(** * ado_summarizer: a proxy in front of the Azure DevOps work-item API

    Shallow embedding of [main.py] and the properties of its request
    shaping and response flattening.

    Python values are modelled as follows.
    - [str] is a sequence of Unicode code points, [bytes] a sequence of
      octets; both are lists of [Z].
    - Parsed JSON is the inductive type [json]; dictionaries are
      association lists read by their first matching key.
    - Awaited upstream calls are the [Call] nodes of a program tree
      [prog]; exceptions are the [Raise] leaves. A handler is run
      against an upstream that answers each request from its own
      state, so no assumption is made on what the upstream replies.

    Library behaviour the handlers rely on is modelled next to its use:
    [base64.b64decode] without validation, strict UTF-8 decoding,
    [str.replace], [str.split], [str.strip], and
    [Response.raise_for_status], which raises on every status outside
    2xx. The text [str(e)] of an exception and the builtin [str()] on
    JSON values are parameters of the endpoints. Logging is left out. *)

From Stdlib Require Import ZArith List Bool Lia String Ascii QArith.
Set Warnings "-register-all".
Import ListNotations.
Open Scope Z_scope.

(** ** Strings *)

Definition str := list Z.
Definition bytes := list Z.

(** A literal of the source, as code points. *)
Definition py (s : string) : str :=
  map (fun a => Z.of_N (N_of_ascii a)) (list_ascii_of_string s).

Fixpoint str_eqb (a b : str) : bool :=
  match a, b with
  | [], [] => true
  | x :: a', y :: b' => (x =? y) && str_eqb a' b'
  | _, _ => false
  end.

(** [s.startswith(p)] *)
Fixpoint startswith (s p : str) {struct p} : bool :=
  match p, s with
  | [], _ => true
  | _ :: _, [] => false
  | c :: p', d :: s' => (c =? d) && startswith s' p'
  end.

(** [p in s] for two strings *)
Fixpoint contains (s p : str) : bool :=
  startswith s p ||
  match s with
  | [] => false
  | _ :: s' => contains s' p
  end.

(** [s.replace(old, new)]: occurrences of [old] are found from the left
    and do not overlap; [skip] counts the characters of a matched
    occurrence still to be passed over. *)
Fixpoint replace_from (old new s : str) (skip : nat) : str :=
  match s with
  | [] => []
  | c :: s' =>
    match skip with
    | S n => replace_from old new s' n
    | O =>
      if startswith s old
      then new ++ replace_from old new s' (Nat.pred (List.length old))
      else c :: replace_from old new s' 0
    end
  end.

Definition replace (old new s : str) : str :=
  match old with
  | [] => new ++ flat_map (fun c => c :: new) s
  | _ :: _ => replace_from old new s 0
  end.

(** [s.split(sep)] for a non-empty separator, which is what every call
    of the source passes; [cur] is the current piece, reversed. *)
Fixpoint split_from (sep s : str) (skip : nat) (cur : str) : list str :=
  match s with
  | [] => [rev cur]
  | c :: s' =>
    match skip with
    | S n => split_from sep s' n cur
    | O =>
      if startswith s sep
      then rev cur :: split_from sep s' (Nat.pred (List.length sep)) []
      else split_from sep s' 0 (c :: cur)
    end
  end.

Definition split (s sep : str) : list str := split_from sep s 0 [].

(** [l[-1]] on the result of a split, which is never empty. *)
Definition last_piece (l : list str) : str := last l [].

(** [sep.join(l)] *)
Fixpoint join (sep : str) (l : list str) : str :=
  match l with
  | [] => []
  | [x] => x
  | x :: l' => x ++ sep ++ join sep l'
  end.

(** The characters [str.strip()] removes: those for which
    [str.isspace] holds. *)
Definition is_space (c : Z) : bool :=
  ((0x09 <=? c) && (c <=? 0x0D)) || ((0x1C <=? c) && (c <=? 0x20))
  || (c =? 0x85) || (c =? 0xA0) || (c =? 0x1680)
  || ((0x2000 <=? c) && (c <=? 0x200A))
  || (c =? 0x2028) || (c =? 0x2029) || (c =? 0x202F) || (c =? 0x205F)
  || (c =? 0x3000).

Fixpoint lstrip (s : str) : str :=
  match s with
  | c :: s' => if is_space c then lstrip s' else s
  | [] => []
  end.

Definition strip (s : str) : str := rev (lstrip (rev (lstrip s))).

Definition nonempty {A} (l : list A) : bool :=
  match l with [] => false | _ :: _ => true end.

(** The character [c] does not occur in [y]. *)
Definition differs_from (y : str) (c : Z) : bool := forallb (fun e => negb (c =? e)) y.

(** ** UTF-8, as [str.encode('utf-8')] and [bytes.decode()] compute it.
    Shifts and masks of the C implementation are written with [/] and
    [mod] by powers of two. *)

Definition is_surrogate (c : Z) : bool := (0xD800 <=? c) && (c <=? 0xDFFF).

Definition utf8_encode_cp (c : Z) : option bytes :=
  if c <? 0 then None
  else if c <? 0x80 then Some [c]
  else if c <? 0x800 then Some [0xC0 + c / 64; 0x80 + c mod 64]
  else if c <? 0x10000 then
    if is_surrogate c then None
    else Some [0xE0 + c / 4096; 0x80 + (c / 64) mod 64; 0x80 + c mod 64]
  else if c <? 0x110000 then
    Some [0xF0 + c / 262144; 0x80 + (c / 4096) mod 64;
          0x80 + (c / 64) mod 64; 0x80 + c mod 64]
  else None.

Fixpoint utf8_encode (s : str) : option bytes :=
  match s with
  | [] => Some []
  | c :: s' =>
    match utf8_encode_cp c, utf8_encode s' with
    | Some b, Some bs => Some (b ++ bs)
    | _, _ => None
    end
  end.

Definition is_cont (b : Z) : bool := (0x80 <=? b) && (b <=? 0xBF).

(** Strict decoding: overlong forms, surrogates, code points above
    U+10FFFF and truncated sequences are all errors. *)
Fixpoint utf8_decode (bs : bytes) : option str :=
  match bs with
  | [] => Some []
  | b0 :: r0 =>
    if (0 <=? b0) && (b0 <? 0x80) then
      option_map (cons b0) (utf8_decode r0)
    else if (0xC2 <=? b0) && (b0 <=? 0xDF) then
      match r0 with
      | b1 :: r1 =>
        if is_cont b1
        then option_map (cons ((b0 - 0xC0) * 64 + (b1 - 0x80))) (utf8_decode r1)
        else None
      | _ => None
      end
    else if (0xE0 <=? b0) && (b0 <=? 0xEF) then
      match r0 with
      | b1 :: b2 :: r2 =>
        let c := (b0 - 0xE0) * 4096 + (b1 - 0x80) * 64 + (b2 - 0x80) in
        if is_cont b1 && is_cont b2 && (0x800 <=? c) && negb (is_surrogate c)
        then option_map (cons c) (utf8_decode r2)
        else None
      | _ => None
      end
    else if (0xF0 <=? b0) && (b0 <=? 0xF4) then
      match r0 with
      | b1 :: b2 :: b3 :: r3 =>
        let c := (b0 - 0xF0) * 262144 + (b1 - 0x80) * 4096
                 + (b2 - 0x80) * 64 + (b3 - 0x80) in
        if is_cont b1 && is_cont b2 && is_cont b3
           && (0x10000 <=? c) && (c <? 0x110000)
        then option_map (cons c) (utf8_decode r3)
        else None
      | _ => None
      end
    else None
  end.

(** ** Base64, as [base64.b64encode] and [base64.b64decode] compute it *)

Definition b64_alphabet : str :=
  py "ABCDEFGHIJKLMNOPQRSTUVWXYZabcdefghijklmnopqrstuvwxyz0123456789+/".

Definition b64_pad : Z := 61.

Definition b64_char (n : Z) : Z := nth (Z.to_nat n) b64_alphabet 0.

Fixpoint index_of (c : Z) (l : list Z) (i : Z) : option Z :=
  match l with
  | [] => None
  | d :: l' => if c =? d then Some i else index_of c l' (i + 1)
  end.

(** The table [table_a2b_base64]: the sextet of an alphabet character. *)
Definition b64_value (c : Z) : option Z := index_of c b64_alphabet 0.

Fixpoint b64encode (bs : bytes) : str :=
  match bs with
  | [] => []
  | [a] => [b64_char (a / 4); b64_char (a mod 4 * 16); b64_pad; b64_pad]
  | [a; b] =>
    [b64_char (a / 4); b64_char (a mod 4 * 16 + b / 16);
     b64_char (b mod 16 * 4); b64_pad]
  | a :: b :: c :: r =>
    b64_char (a / 4) :: b64_char (a mod 4 * 16 + b / 16)
    :: b64_char (b mod 16 * 4 + c / 64) :: b64_char (c mod 64)
    :: b64encode r
  end.

(** The loop of [binascii.a2b_base64] without [strict_mode]: characters
    outside the alphabet are skipped, a pad sequence that completes a
    quad ends the input, and leftover sextets are an error. *)
Fixpoint a2b_base64 (cs : list Z) (quad_pos leftchar pads : Z) : option bytes :=
  match cs with
  | [] => if quad_pos =? 0 then Some [] else None
  | ch :: rest =>
    if ch =? b64_pad then
      if (2 <=? quad_pos) && (4 <=? quad_pos + (pads + 1)) then Some []
      else a2b_base64 rest quad_pos leftchar
             (if 2 <=? quad_pos then pads + 1 else pads)
    else
      match b64_value ch with
      | None => a2b_base64 rest quad_pos leftchar pads
      | Some v =>
        if quad_pos =? 0 then a2b_base64 rest 1 v 0
        else if quad_pos =? 1 then
          option_map (cons (leftchar * 4 + v / 16))
                     (a2b_base64 rest 2 (v mod 16) 0)
        else if quad_pos =? 2 then
          option_map (cons (leftchar * 16 + v / 4))
                     (a2b_base64 rest 3 (v mod 4) 0)
        else
          option_map (cons (leftchar * 64 + v)) (a2b_base64 rest 0 0 0)
      end
  end.

(** [base64.b64decode(s)] for a [str] argument: the text is first
    encoded as ASCII, which fails on any other character. *)
Definition is_byte (b : Z) : Prop := 0 <= b < 256.

Definition is_ascii (c : Z) : bool := (0 <=? c) && (c <? 128).

Definition b64decode (s : str) : option bytes :=
  if forallb is_ascii s then a2b_base64 s 0 0 0 else None.

(** ** Static configuration and the config resolver *)

(** The module-level fallbacks read from [config.yaml] at start-up. *)
Record defaults := {
  AZURE_DEVOPS_ORG : str;
  AZURE_DEVOPS_PROJECT : str;
  AZURE_ACCESS_TOKEN : str;
  DEFAULT_USER : str;
  DEFAULT_ITERATION : str;
  BASE_URL : str
}.

(** The values the source uses when [config.yaml] has no entry. *)
Definition builtin_defaults : defaults := {|
  AZURE_DEVOPS_ORG := py "your-org";
  AZURE_DEVOPS_PROJECT := py "YourProject";
  AZURE_ACCESS_TOKEN := py "your-pat-token";
  DEFAULT_USER := py "user@company.com";
  DEFAULT_ITERATION := py "Project\Sprint\Iteration";
  BASE_URL := py "https://your-org.visualstudio.com"
|}.

Record azure_config := {
  organization : str;
  project : str;
  base_url : str;
  access_token : str
}.

(** [x or d] for an optional string [x]: [None] and the empty string
    are both falsy. *)
Definition or_default (x : option str) (d : str) : str :=
  match x with
  | Some (c :: s) => c :: s
  | _ => d
  end.

(** Lines 103-110: the token carried by the Authorization header. The
    bare [except] turns every decoding failure into [None]. *)
Definition token_of_authorization (authorization : option str) : option str :=
  match authorization with
  | Some (c :: a) =>
    if startswith (c :: a) (py "Basic ") then
      match b64decode (skipn 6 (c :: a)) with
      | Some raw =>
        match utf8_decode raw with
        | Some decoded =>
          if startswith decoded (py ":") then Some (skipn 1 decoded) else None
        | None => None
        end
      | None => None
      end
    else None
  | _ => None
  end.

Definition get_azure_config_from_headers (d : defaults)
    (x_azure_organization x_azure_project x_azure_baseurl authorization : option str)
    : azure_config := {|
  organization := or_default x_azure_organization (AZURE_DEVOPS_ORG d);
  project := or_default x_azure_project (AZURE_DEVOPS_PROJECT d);
  base_url := or_default x_azure_baseurl (BASE_URL d);
  access_token := or_default (token_of_authorization authorization) (AZURE_ACCESS_TOKEN d)
|}.

(** The header value [Basic base64(":" + T)], when [T] can be encoded. *)
Definition basic_credentials (T : str) : option str :=
  option_map (fun bs => py "Basic " ++ b64encode bs) (utf8_encode (58 :: T)).


(** ** JSON values, as [response.json()] returns them *)

Inductive json :=
| JNull
| JBool (b : bool)
| JInt (n : Z)
| JFloat (q : Q)
| JStr (s : str)
| JArr (l : list json)
| JObj (kvs : list (str * json)).

(** A dictionary is read by its first binding of the key. *)
Fixpoint lookup (k : str) (kvs : list (str * json)) : option json :=
  match kvs with
  | [] => None
  | (k', v) :: kvs' => if str_eqb k k' then Some v else lookup k kvs'
  end.

(** Truth value of a JSON value in a condition. *)
Definition truthy (o : json) : bool :=
  match o with
  | JNull => false
  | JBool b => b
  | JInt n => negb (n =? 0)
  | JFloat q => negb (Qeq_bool q 0)
  | JStr s => nonempty s
  | JArr l => nonempty l
  | JObj kvs => nonempty kvs
  end.

(** [v == s] for a string [s] *)
Definition eq_str (v : json) (s : str) : bool :=
  match v with
  | JStr t => str_eqb t s
  | _ => false
  end.

(** ** Upstream calls and exceptions *)

Inductive method := GET | POST.

Record request := {
  rq_method : method;
  rq_url : str;
  rq_headers : list (str * str);
  rq_json : option json
}.

(** An upstream response: [body] is what [response.json()] returns,
    [None] when the text is not JSON. *)
Record response := {
  status_code : Z;
  text : str;
  body : option json
}.

Inductive exn :=
| HTTPStatusError (r : response)
| HTTPException (status : Z) (detail : str)
| TransportError (m : str)
| JSONDecodeError (r : response)
| KeyError (k : str)
| TypeError (v : json)
| AttributeError (v : json) (attr : str)
| UnicodeEncodeError (s : str).

(** What the HTTP client hands back for one request: a response, or a
    failure of the transport. *)
Inductive reply :=
| Response (r : response)
| Failure (m : str).

(** A handler is a tree of awaited upstream calls. *)
Inductive prog (A : Type) : Type :=
| Ret (a : A)
| Raise (e : exn)
| Call (rq : request) (k : reply -> prog A).

Arguments Ret {A} a.
Arguments Raise {A} e.
Arguments Call {A} rq k.

Fixpoint bind {A B} (p : prog A) (f : A -> prog B) : prog B :=
  match p with
  | Ret a => f a
  | Raise e => Raise e
  | Call rq k => Call rq (fun r => bind (k r) f)
  end.

(** [try: p  except Exception as e: h e] *)
Fixpoint try_except {A} (p : prog A) (h : exn -> prog A) : prog A :=
  match p with
  | Ret a => Ret a
  | Raise e => h e
  | Call rq k => Call rq (fun r => try_except (k r) h)
  end.

Notation "x <- p ;; q" := (bind p (fun x => q))
  (at level 61, p at next level, right associativity).
Notation "p ;;; q" := (bind p (fun _ => q))
  (at level 61, right associativity).

(** A comprehension or loop body run over a list, left to right. *)
Fixpoint for_each {A B} (f : A -> prog B) (l : list A) : prog (list B) :=
  match l with
  | [] => Ret []
  | a :: l' => b <- f a ;; bs <- for_each f l' ;; Ret (b :: bs)
  end.

(** Running a handler against an upstream that answers each request
    from its current state. *)
Inductive outcome (A : Type) : Type :=
| Returned (a : A)
| Raised (e : exn).

Arguments Returned {A} a.
Arguments Raised {A} e.

Section Run.
Variable World : Type.
Variable send : request -> World -> reply * World.

Fixpoint run {A} (p : prog A) (w : World) : outcome A * World :=
  match p with
  | Ret a => (Returned a, w)
  | Raise e => (Raised e, w)
  | Call rq k => let (r, w') := send rq w in run (k r) w'
  end.

(** The requests a handler issues and the replies it gets, in order. *)
Fixpoint exchanges {A} (p : prog A) (w : World) : list (request * reply) :=
  match p with
  | Call rq k => let (r, w') := send rq w in (rq, r) :: exchanges (k r) w'
  | _ => []
  end.
End Run.

Arguments run {World} send {A} p w.
Arguments exchanges {World} send {A} p w.

(** ** Operations of the language on JSON values *)

(** [o[k]] *)
Definition getitem (o : json) (k : str) : prog json :=
  match o with
  | JObj kvs =>
    match lookup k kvs with
    | Some v => Ret v
    | None => Raise (KeyError k)
    end
  | _ => Raise (TypeError o)
  end.

(** [o.get(k, dflt)] *)
Definition get (o : json) (k : str) (dflt : json) : prog json :=
  match o with
  | JObj kvs =>
    match lookup k kvs with
    | Some v => Ret v
    | None => Ret dflt
    end
  | _ => Raise (AttributeError o (py "get"))
  end.

(** The elements [for x in o] visits: the items of a list, the keys of
    a dictionary, the characters of a string. *)
Definition iter (o : json) : prog (list json) :=
  match o with
  | JArr l => Ret l
  | JObj kvs => Ret (map (fun kv => JStr (fst kv)) kvs)
  | JStr s => Ret (map (fun c => JStr [c]) s)
  | _ => Raise (TypeError o)
  end.

(** [needle in o] for a string [needle]: substring of a string, element
    of a list, key of a dictionary. *)
Definition py_in (needle : str) (o : json) : prog bool :=
  match o with
  | JStr s => Ret (contains s needle)
  | JArr l => Ret (existsb (fun v => eq_str v needle) l)
  | JObj kvs => Ret (existsb (fun kv => str_eqb (fst kv) needle) kvs)
  | _ => Raise (TypeError o)
  end.

(** The receiver of a string method such as [o.replace] or [o.split]. *)
Definition str_method (o : json) (attr : str) : prog str :=
  match o with
  | JStr s => Ret s
  | _ => Raise (AttributeError o attr)
  end.

(** ** The HTTP client *)

Definition await (rq : request) : prog response :=
  Call rq (fun r =>
    match r with
    | Response rsp => Ret rsp
    | Failure m => Raise (TransportError m)
    end).

Definition client_get (u : str) (h : list (str * str)) : prog response :=
  await {| rq_method := GET; rq_url := u; rq_headers := h; rq_json := None |}.

Definition client_post (u : str) (j : json) (h : list (str * str)) : prog response :=
  await {| rq_method := POST; rq_url := u; rq_headers := h; rq_json := Some j |}.

(** [response.raise_for_status()]: every status outside 2xx raises. *)
Definition raise_for_status (r : response) : prog unit :=
  if (200 <=? status_code r) && (status_code r <=? 299)
  then Ret tt
  else Raise (HTTPStatusError r).

Definition response_json (r : response) : prog json :=
  match body r with
  | Some j => Ret j
  | None => Raise (JSONDecodeError r)
  end.

(** ** Response shaping *)

(** Lines 302 and 306: the four substitutions, in this order. *)
Definition clean_html (s : str) : str :=
  replace (py "&nbsp;") (py " ")
    (replace (py "<br>") [10]
      (replace (py "</div>") []
        (replace (py "<div>") [] s))).

(** Line 296: the substitutions applied to the description of a child. *)
Definition clean_child_html (s : str) : str :=
  replace (py "<br>") [10]
    (replace (py "</div>") []
      (replace (py "<div>") [] s)).

Fixpoint str_compare (a b : str) : comparison :=
  match a, b with
  | [], [] => Eq
  | [], _ :: _ => Lt
  | _ :: _, [] => Gt
  | x :: a', y :: b' =>
    match x ?= y with
    | Eq => str_compare a' b'
    | c => c
    end
  end.

Fixpoint insert_unique (x : str) (l : list str) : list str :=
  match l with
  | [] => [x]
  | y :: l' =>
    match str_compare x y with
    | Lt => x :: l
    | Eq => l
    | Gt => y :: insert_unique x l'
    end
  end.

(** [sorted(list(set(l)))] for strings. *)
Definition sorted_set (l : list str) : list str := fold_right insert_unique [] l.

Definition somes {A} (l : list (option A)) : list A :=
  flat_map (fun o => match o with Some a => [a] | None => [] end) l.

(** ** The endpoints *)

Section Endpoints.
(** The static defaults, the builtin [str()] on parsed JSON values and
    the text [str(e)] of an exception. *)
Variable d : defaults.
Variable str_of : json -> str.
Variable exn_str : exn -> str.

(** Lines 83-92. The Base64 text is ASCII, so decoding it as UTF-8
    yields the same characters. *)
Definition get_auth_header (token : str) : prog (list (str * str)) :=
  let token_to_use := or_default (Some token) (AZURE_ACCESS_TOKEN d) in
  let auth_string := py ":" ++ token_to_use in
  match utf8_encode auth_string with
  | Some raw => Ret [(py "Authorization", py "Basic " ++ b64encode raw)]
  | None => Raise (UnicodeEncodeError auth_string)
  end.

(** The two [except] clauses that close the GET endpoints. *)
Definition upstream_error {A} (e : exn) : prog A :=
  match e with
  | HTTPStatusError r =>
    Raise (HTTPException (status_code r) (py "Azure DevOps API error: " ++ text r))
  | _ => Raise (HTTPException 500 (py "Internal server error: " ++ exn_str e))
  end.

(** *** /work-items *)

(** Lines 149-155: the text of the query up to its WHERE clause, then
    the clause with the assignee put in. *)
Definition work_items_select : str := py "
        SELECT [System.Id], [System.Title], [System.State], [System.AssignedTo], [System.IterationPath], [System.WorkItemType]
        FROM WorkItems 
        ".

Definition work_items_wiql (assigned_to : str) : json :=
  JObj [(py "query",
         JStr (work_items_select
               ++ py "WHERE [System.AssignedTo] = '" ++ assigned_to ++ py "'
        "))].

(** Lines 185-201, the body of the loop; [None] stands for [continue]. *)
Definition simplified_item (iteration : str) (item : json) : prog (option json) :=
  fields <- getitem item (py "fields") ;;
  item_iteration <- get fields (py "System.IterationPath") (JStr []) ;;
  skip <- (if nonempty iteration
           then found <- py_in iteration item_iteration ;; Ret (negb found)
           else Ret false) ;;
  if (skip : bool) then Ret None
  else
    id <- getitem item (py "id") ;;
    title <- get fields (py "System.Title") JNull ;;
    state <- get fields (py "System.State") JNull ;;
    assigned <- get fields (py "System.AssignedTo") (JObj []) ;;
    assigned_to <- get assigned (py "displayName") JNull ;;
    work_item_type <- get fields (py "System.WorkItemType") JNull ;;
    created_date <- get fields (py "System.CreatedDate") JNull ;;
    url <- getitem item (py "url") ;;
    Ret (Some (JObj [
      (py "id", id);
      (py "title", title);
      (py "state", state);
      (py "assigned_to", assigned_to);
      (py "work_item_type", work_item_type);
      (py "iteration", item_iteration);
      (py "created_date", created_date);
      (py "url", url)])).

Definition get_work_items (assigned_to iteration : str)
    (x_azure_organization x_azure_project x_azure_baseurl authorization : option str)
    : prog json :=
  let azure_config := get_azure_config_from_headers d
    x_azure_organization x_azure_project x_azure_baseurl authorization in
  let url := base_url azure_config ++ py "/" ++ project azure_config
             ++ py "/_apis/wit/wiql" in
  let iteration_filter :=
    if nonempty iteration
    then py "AND [System.IterationPath] = '" ++ iteration ++ py "'"
    else [] in
  let wiql_query := work_items_wiql assigned_to in
  auth <- get_auth_header (access_token azure_config) ;;
  let headers := auth ++ [(py "Content-Type", py "application/json")] in
  try_except
    (response <- client_post (url ++ py "?api-version=7.0") wiql_query headers ;;
     raise_for_status response ;;;
     found <- response_json response ;;
     refs <- getitem found (py "workItems") ;;
     refs <- iter refs ;;
     work_item_ids <- for_each (fun item => getitem item (py "id")) refs ;;
     if nonempty work_item_ids then
       let ids_string := join (py ",") (map str_of work_item_ids) in
       let details_url := base_url azure_config ++ py "/" ++ project azure_config
                          ++ py "/_apis/wit/workitems" in
       auth' <- get_auth_header (access_token azure_config) ;;
       details_response <-
         client_get (details_url ++ py "?ids=" ++ ids_string ++ py "&api-version=7.0")
                    auth' ;;
       raise_for_status details_response ;;;
       details <- response_json details_response ;;
       work_items <- getitem details (py "value") ;;
       work_items <- iter work_items ;;
       kept <- for_each (simplified_item iteration) work_items ;;
       let simplified_items := somes kept in
       Ret (JObj [
         (py "work_items", JArr simplified_items);
         (py "count", JInt (Z.of_nat (List.length simplified_items)));
         (py "filters", JObj [
            (py "assigned_to", JStr assigned_to);
            (py "iteration", JStr iteration)])])
     else
       Ret (JObj [(py "work_items", JArr []); (py "count", JInt 0)]))
    upstream_error.

(** *** /work-item-details *)

(** Lines 256-263, one comment of the comments response. *)
Definition shaped_comment (comment : json) : prog json :=
  id <- getitem comment (py "id") ;;
  text <- getitem comment (py "text") ;;
  author <- get comment (py "createdBy") (JObj []) ;;
  created_by <- get author (py "displayName") JNull ;;
  created_date <- get comment (py "createdDate") JNull ;;
  Ret (JObj [
    (py "id", id);
    (py "text", text);
    (py "created_by", created_by);
    (py "created_date", created_date)]).

(** Lines 272-277, the body of the loop over the relations: the child
    ID a relation contributes, if any. *)
Definition child_id_of (relation : json) : prog (option str) :=
  rel <- get relation (py "rel") JNull ;;
  if eq_str rel (py "System.LinkTypes.Hierarchy-Forward") then
    child_url <- get relation (py "url") (JStr []) ;;
    found <- py_in (py "/workItems/") child_url ;;
    if (found : bool) then
      u <- str_method child_url (py "split") ;;
      Ret (Some (last_piece (split u (py "/workItems/"))))
    else Ret None
  else Ret None.

(** Lines 289-297, one entry of [child_work_items]. *)
Definition shaped_child (child : json) : prog json :=
  child_fields <- getitem child (py "fields") ;;
  id <- getitem child (py "id") ;;
  title <- get child_fields (py "System.Title") JNull ;;
  state <- get child_fields (py "System.State") JNull ;;
  work_item_type <- get child_fields (py "System.WorkItemType") JNull ;;
  assigned <- get child_fields (py "System.AssignedTo") (JObj []) ;;
  assigned_to <- get assigned (py "displayName") JNull ;;
  present <- get child_fields (py "System.Description") JNull ;;
  description <-
    (if truthy present then
       raw <- get child_fields (py "System.Description") (JStr []) ;;
       s <- str_method raw (py "replace") ;;
       Ret (JStr (clean_child_html s))
     else Ret JNull) ;;
  Ret (JObj [
    (py "id", id);
    (py "title", title);
    (py "state", state);
    (py "work_item_type", work_item_type);
    (py "assigned_to", assigned_to);
    (py "description", description)]).

(** Lines 300-306: a text field is cleaned when it is truthy. *)
Definition cleaned (v : json) : prog json :=
  if truthy v then
    s <- str_method v (py "replace") ;;
    Ret (JStr (clean_html s))
  else Ret v.

(** Lines 279-297: the children are fetched in one request. *)
Definition fetch_children (azure_config : azure_config) (child_ids : list str)
    : prog (list json) :=
  if nonempty child_ids then
    let ids_string := join (py ",") child_ids in
    let children_url := base_url azure_config ++ py "/" ++ project azure_config
                        ++ py "/_apis/wit/workitems" in
    auth <- get_auth_header (access_token azure_config) ;;
    children_response <-
      client_get (children_url ++ py "?ids=" ++ ids_string ++ py "&api-version=7.0")
                 auth ;;
    if status_code children_response =? 200 then
      children_data <- response_json children_response ;;
      children <- get children_data (py "value") (JArr []) ;;
      children <- iter children ;;
      for_each shaped_child children
    else Ret []
  else Ret [].

(** Lines 242-328, the body of the inner [try]: the detail record of
    one work item. *)
Definition work_item_detail (azure_config : azure_config) (single_id : str)
    : prog json :=
  let work_item_url := base_url azure_config ++ py "/" ++ project azure_config
                       ++ py "/_apis/wit/workitems/" ++ single_id in
  auth <- get_auth_header (access_token azure_config) ;;
  response <- client_get (work_item_url ++ py "?$expand=all&api-version=7.0") auth ;;
  raise_for_status response ;;;
  work_item <- response_json response ;;
  fields <- getitem work_item (py "fields") ;;
  let comments_url := base_url azure_config ++ py "/" ++ project azure_config
                      ++ py "/_apis/wit/workitems/" ++ single_id ++ py "/comments" in
  auth <- get_auth_header (access_token azure_config) ;;
  comments_response <- client_get (comments_url ++ py "?api-version=7.0") auth ;;
  comments <-
    (if status_code comments_response =? 200 then
       comments_data <- response_json comments_response ;;
       listed <- get comments_data (py "comments") (JArr []) ;;
       listed <- iter listed ;;
       for_each shaped_comment listed
     else Ret []) ;;
  relations <- get work_item (py "relations") (JArr []) ;;
  relations <- iter relations ;;
  extracted <- for_each child_id_of relations ;;
  let child_ids := somes extracted in
  child_items <- fetch_children azure_config child_ids ;;
  description <- get fields (py "System.Description") (JStr []) ;;
  description <- cleaned description ;;
  acceptance_criteria <-
    get fields (py "Microsoft.VSTS.Common.AcceptanceCriteria") (JStr []) ;;
  acceptance_criteria <- cleaned acceptance_criteria ;;
  id <- getitem work_item (py "id") ;;
  title <- get fields (py "System.Title") JNull ;;
  state <- get fields (py "System.State") JNull ;;
  work_item_type <- get fields (py "System.WorkItemType") JNull ;;
  assigned <- get fields (py "System.AssignedTo") (JObj []) ;;
  assigned_to <- get assigned (py "displayName") JNull ;;
  creator <- get fields (py "System.CreatedBy") (JObj []) ;;
  created_by <- get creator (py "displayName") JNull ;;
  created_date <- get fields (py "System.CreatedDate") JNull ;;
  changed_date <- get fields (py "System.ChangedDate") JNull ;;
  iteration <- get fields (py "System.IterationPath") JNull ;;
  area <- get fields (py "System.AreaPath") JNull ;;
  priority <- get fields (py "Microsoft.VSTS.Common.Priority") JNull ;;
  story_points <- get fields (py "Microsoft.VSTS.Scheduling.StoryPoints") JNull ;;
  tags <- get fields (py "System.Tags") JNull ;;
  url <- getitem work_item (py "url") ;;
  Ret (JObj [
    (py "id", id);
    (py "title", title);
    (py "description", description);
    (py "acceptance_criteria", acceptance_criteria);
    (py "state", state);
    (py "work_item_type", work_item_type);
    (py "assigned_to", assigned_to);
    (py "created_by", created_by);
    (py "created_date", created_date);
    (py "changed_date", changed_date);
    (py "iteration", iteration);
    (py "area", area);
    (py "priority", priority);
    (py "story_points", story_points);
    (py "tags", tags);
    (py "comments", JArr comments);
    (py "child_work_items", JArr child_items);
    (py "child_count", JInt (Z.of_nat (List.length child_items)));
    (py "url", url)]).

(** Lines 332-336. *)
Definition error_entry (single_id : str) (e : exn) : json :=
  JObj [
    (py "id", JStr single_id);
    (py "error", JStr (py "Failed to fetch details: " ++ exn_str e))].

(** Lines 240-336, one turn of the loop over the requested IDs. *)
Definition detail_or_error (azure_config : azure_config) (single_id : str)
    : prog json :=
  try_except (work_item_detail azure_config single_id)
             (fun e => Ret (error_entry single_id e)).

Definition get_work_item_details (work_item_id : str)
    (x_azure_organization x_azure_project x_azure_baseurl authorization : option str)
    : prog json :=
  try_except
    (let azure_config := get_azure_config_from_headers d
       x_azure_organization x_azure_project x_azure_baseurl authorization in
     let work_item_ids := map strip (split work_item_id (py ",")) in
     all_work_items <- for_each (detail_or_error azure_config) work_item_ids ;;
     if (List.length work_item_ids =? 1)%nat then
       match all_work_items with
       | first :: _ => Ret first
       | [] => Ret (JObj [(py "error", JStr (py "No work items found"))])
       end
     else
       Ret (JObj [
         (py "work_items", JArr all_work_items);
         (py "count", JInt (Z.of_nat (List.length all_work_items)))]))
    upstream_error.

(** *** /my-iterations *)

(** Lines 371-377. *)
Definition my_iterations_select : str := py "
        SELECT [System.Id], [System.IterationPath]
        FROM WorkItems 
        ".

Definition my_iterations_wiql (assigned_to : str) : json :=
  JObj [(py "query",
         JStr (my_iterations_select
               ++ py "WHERE [System.AssignedTo] = '" ++ assigned_to ++ py "'
        "))].

(** Lines 402-404, the body of the loop: the value added to the set.
    A list or dictionary cannot be hashed. *)
Definition iteration_path_of (item : json) : prog (option json) :=
  fields <- getitem item (py "fields") ;;
  iteration_path <- get fields (py "System.IterationPath") JNull ;;
  if truthy iteration_path then
    match iteration_path with
    | JArr _ | JObj _ => Raise (TypeError iteration_path)
    | _ => Ret (Some iteration_path)
    end
  else Ret None.

(** A number or boolean enters the set, and then [sorted] or the [in]
    test of the comprehension raises [TypeError]: only strings get
    through lines 406-417. *)
Fixpoint strings_of (l : list json) : prog (list str) :=
  match l with
  | [] => Ret []
  | JStr s :: l' => ss <- strings_of l' ;; Ret (s :: ss)
  | v :: _ => Raise (TypeError v)
  end.

(** Lines 411-415. *)
Definition shaped_iteration (iteration : str) : json :=
  JObj [
    (py "path", JStr iteration);
    (py "name", JStr (if contains iteration (py "\")
                      then last_piece (split iteration (py "\"))
                      else iteration));
    (py "is_active", JBool (contains iteration (py "Active")))].

Definition get_my_iterations (assigned_to : str)
    (x_azure_organization x_azure_project x_azure_baseurl authorization : option str)
    : prog json :=
  let azure_config := get_azure_config_from_headers d
    x_azure_organization x_azure_project x_azure_baseurl authorization in
  let url := base_url azure_config ++ py "/" ++ project azure_config
             ++ py "/_apis/wit/wiql" in
  let wiql_query := my_iterations_wiql assigned_to in
  try_except
    (auth <- get_auth_header (access_token azure_config) ;;
     response <- client_post (url ++ py "?api-version=7.0") wiql_query auth ;;
     raise_for_status response ;;;
     found <- response_json response ;;
     refs <- getitem found (py "workItems") ;;
     refs <- iter refs ;;
     work_item_ids <- for_each (fun item => getitem item (py "id")) refs ;;
     if nonempty work_item_ids then
       let ids_string := join (py ",") (map str_of work_item_ids) in
       let details_url := base_url azure_config ++ py "/" ++ project azure_config
                          ++ py "/_apis/wit/workitems" in
       auth' <- get_auth_header (access_token azure_config) ;;
       details_response <-
         client_get (details_url ++ py "?ids=" ++ ids_string
                     ++ py "&fields=System.IterationPath&api-version=7.0")
                    auth' ;;
       raise_for_status details_response ;;;
       details <- response_json details_response ;;
       work_items <- getitem details (py "value") ;;
       work_items <- iter work_items ;;
       added <- for_each iteration_path_of work_items ;;
       iterations <- strings_of (somes added) ;;
       let sorted_iterations := sorted_set iterations in
       Ret (JObj [
         (py "iterations", JArr (map shaped_iteration sorted_iterations));
         (py "count", JInt (Z.of_nat (List.length sorted_iterations)))])
     else
       Ret (JObj [(py "iterations", JArr []); (py "count", JInt 0)]))
    upstream_error.

(** *** /test-connection *)

Record TestConnectionRequest := {
  tc_organization : str;
  tc_project : str;
  baseUrl : str;
  accessToken : str
}.

(** Lines 474-477. *)
Definition permission_hints : str :=
  py "Invalid Personal Access Token (PAT) or insufficient permissions. Please check:" ++ [10]
  ++ py "1. Your PAT is not expired" ++ [10]
  ++ py "2. Your PAT has 'Project and Team (read)' permissions" ++ [10]
  ++ py "3. You have access to the organization and project".

Definition not_found_message : str :=
  py "Project or organization not found. Please verify the organization name and project name are correct.".

Definition test_query : json :=
  JObj [(py "query",
         JStr (py "SELECT [System.Id] FROM WorkItems WHERE [System.AssignedTo] = '"
               ++ py "test@example.com" ++ py "'"))].

(** Lines 465-485, the two [except] clauses. *)
Definition connection_error (e : exn) : prog json :=
  match e with
  | HTTPStatusError r =>
    if (status_code r =? 400) && contains (text r) (py "size limit") then
      Ret (JObj [
        (py "status", JStr (py "success"));
        (py "message", JStr (py "Connection successful (large dataset detected)"))])
    else if status_code r =? 401 then
      Raise (HTTPException 400 permission_hints)
    else if status_code r =? 404 then
      Raise (HTTPException 400 not_found_message)
    else
      Raise (HTTPException 400 (py "Azure DevOps API error: " ++ text r))
  | _ => Raise (HTTPException 400 (py "Connection failed: " ++ exn_str e))
  end.

Definition test_connection (settings : TestConnectionRequest) : prog json :=
  let base_url :=
    if startswith (baseUrl settings) (py "http://")
       || startswith (baseUrl settings) (py "https://")
    then baseUrl settings
    else py "https://" ++ baseUrl settings in
  try_except
    (let url := base_url ++ py "/" ++ tc_project settings ++ py "/_apis/wit/wiql" in
     auth <- get_auth_header (accessToken settings) ;;
     let headers := auth ++ [(py "Content-Type", py "application/json")] in
     response <- client_post (url ++ py "?api-version=7.0") test_query headers ;;
     raise_for_status response ;;;
     Ret (JObj [
       (py "status", JStr (py "success"));
       (py "message", JStr (py "Connection successful"))]))
    connection_error.
End Endpoints.

(** ** Assertions on handlers *)

(** The exchanges with the upstream so far, the latest first. *)
Definition history := list (request * reply).

(** Whatever the upstream replies after the exchanges [h], a value the
    handler returns satisfies [Q] and an exception it raises satisfies
    [E], both read with the exchanges made by then. *)
Fixpoint ensures {A} (h : history) (p : prog A)
    (Q : history -> A -> Prop) (E : history -> exn -> Prop) : Prop :=
  match p with
  | Ret a => Q h a
  | Raise e => E h e
  | Call rq k => forall r, ensures ((rq, r) :: h) (k r) Q E
  end.

(** A handler step that awaits nothing. *)
Definition pure {A} (p : prog A) : Prop :=
  match p with
  | Call _ _ => False
  | _ => True
  end.

(** Every request the handler may issue satisfies [P]. *)
Fixpoint issues {A} (P : request -> Prop) (p : prog A) : Prop :=
  match p with
  | Call rq k => P rq /\ forall r, issues P (k r)
  | _ => True
  end.

(** [l] is a list stored under [list_key] and [count] is its length. *)
Definition counted (list_key : str) (resp : json) : Prop :=
  exists kvs l,
    resp = JObj kvs /\ lookup list_key kvs = Some (JArr l)
    /\ lookup (py "count") kvs = Some (JInt (Z.of_nat (List.length l))).

(** A detail record whose [child_count] is the length of its
    [child_work_items]. *)
Definition children_counted (record : json) : Prop :=
  exists kvs l,
    record = JObj kvs /\ lookup (py "child_work_items") kvs = Some (JArr l)
    /\ lookup (py "child_count") kvs = Some (JInt (Z.of_nat (List.length l))).

(** An entry of a details response for the requested ID [single_id]:
    a detail record, or the record of a failure. *)
Definition entry_for (exn_str : exn -> str) (single_id : str) (entry : json) : Prop :=
  children_counted entry \/ exists e, entry = error_entry exn_str single_id e.

(** The entries of a batch as the specification describes them: each
    requested ID is fetched in turn, from the state of the upstream the
    previous fetch left, and a failure becomes the [{id, error}] record
    of that ID. *)
Section Isolation.
Variable World : Type.
Variable send : request -> World -> reply * World.
Variable d : defaults.
Variable exn_str : exn -> str.
Variable cfg : azure_config.

Definition isolated_entry (single_id : str) (w : World) : json * World :=
  let (o, w1) := run send (work_item_detail d cfg single_id) w in
  (match o with
   | Returned record => record
   | Raised e =>
     JObj [(py "id", JStr single_id);
           (py "error", JStr (py "Failed to fetch details: " ++ exn_str e))]
   end, w1).

Fixpoint isolated_entries (ids : list str) (w : World) : list json * World :=
  match ids with
  | [] => ([], w)
  | single_id :: rest =>
    let (entry, w1) := isolated_entry single_id w in
    let (entries, w2) := isolated_entries rest w1 in
    (entry :: entries, w2)
  end.
End Isolation.

Arguments isolated_entry {World} send d exn_str cfg single_id w.
Arguments isolated_entries {World} send d exn_str cfg ids w.

(** ** What the upstream listed *)

(** The items of a reply to a request for work items by ID: the
    elements of its [value]. *)
Definition listed_items (r : reply) : list json :=
  match r with
  | Response rsp =>
    match body rsp with
    | Some details =>
      match getitem details (py "value") with
      | Ret listed =>
        match iter listed with
        | Ret items => items
        | _ => []
        end
      | _ => []
      end
    | None => []
    end
  | Failure _ => []
  end.

Definition is_get (x : request * reply) : bool :=
  match rq_method (fst x) with
  | GET => true
  | POST => false
  end.

(** The items fetched in the course of [exchanges]: those listed by the
    reply to the first GET. *)
Definition fetched_items (exchanges : list (request * reply)) : list json :=
  match find is_get exchanges with
  | Some x => listed_items (snd x)
  | None => []
  end.

(** The relations of the work item a reply describes. *)
Definition listed_relations (r : reply) : list json :=
  match r with
  | Response rsp =>
    match body rsp with
    | Some work_item =>
      match get work_item (py "relations") (JArr []) with
      | Ret relations =>
        match iter relations with
        | Ret items => items
        | _ => []
        end
      | _ => []
      end
    | None => []
    end
  | Failure _ => []
  end.

(** The children a reply to the request for child items lists. *)
Definition listed_children (r : reply) : list json :=
  match r with
  | Response rsp =>
    match body rsp with
    | Some children_data =>
      match get children_data (py "value") (JArr []) with
      | Ret children =>
        match iter children with
        | Ret items => items
        | _ => []
        end
      | _ => []
      end
    | None => []
    end
  | Failure _ => []
  end.

Definition forward_link : str := py "System.LinkTypes.Hierarchy-Forward".

(** Where the [child_work_items] of a detail record come from, given
    the exchanges of its fetch in order: the child IDs are extracted
    from the relations of the first reply; without child IDs there is
    no third request and no child; otherwise the third request asks
    for exactly those IDs and the children are shaped from its reply. *)
Definition children_origin (cfg : azure_config) (exchanges : list (request * reply))
    (record : json) : Prop :=
  exists x1 x2 rest extracted kvs children,
    exchanges = x1 :: x2 :: rest
    /\ for_each child_id_of (listed_relations (snd x1)) = Ret extracted
    /\ record = JObj kvs
    /\ lookup (py "child_work_items") kvs = Some (JArr children)
    /\ match rest with
       | [] => somes extracted = [] /\ children = []
       | (rq, r) :: _ =>
         somes extracted <> []
         /\ rq_url rq =
            (base_url cfg ++ py "/" ++ project cfg ++ py "/_apis/wit/workitems")
            ++ py "?ids=" ++ join (py ",") (somes extracted) ++ py "&api-version=7.0"
         /\ match r with
            | Response rsp =>
              if status_code rsp =? 200
              then for_each shaped_child (listed_children r) = Ret children
              else children = []
            | Failure _ => False
            end
       end.

(** The specification's wording of the child ID: the segment of [s]
    after the last occurrence of [sep], when there is one. *)
Fixpoint segment_after_last_occurrence (sep s : str) : option str :=
  match s with
  | [] => None
  | _ :: s' =>
    match segment_after_last_occurrence sep s' with
    | Some t => Some t
    | None => if startswith s sep then Some (skipn (List.length sep) s) else None
    end
  end.

(** ** A scripted upstream, for examples *)

(** The upstream plays back a list of replies, whatever it is asked, and
    refuses the connection once the list is over. *)
Definition scripted (rq : request) (script : list reply) : reply * list reply :=
  match script with
  | r :: rest => (r, rest)
  | [] => (Failure (py "connection refused"), [])
  end.

Definition ok (j : json) : reply :=
  Response {| status_code := 200; text := []; body := Some j |}.

Definition status (code : Z) (message : str) : reply :=
  Response {| status_code := code; text := message; body := None |}.

(** The class of an exception, standing for its text in examples. *)
Definition class_name (e : exn) : str :=
  match e with
  | HTTPStatusError _ => py "HTTPStatusError"
  | HTTPException _ _ => py "HTTPException"
  | TransportError _ => py "TransportError"
  | JSONDecodeError _ => py "JSONDecodeError"
  | KeyError _ => py "KeyError"
  | TypeError _ => py "TypeError"
  | AttributeError _ _ => py "AttributeError"
  | UnicodeEncodeError _ => py "UnicodeEncodeError"
  end.

Fixpoint digits (fuel : nat) (n : Z) (acc : str) : str :=
  match fuel with
  | O => acc
  | S fuel' =>
    let acc' := (48 + n mod 10) :: acc in
    if n / 10 =? 0 then acc' else digits fuel' (n / 10) acc'
  end.

(** [str()] on the values the examples use. *)
Definition decimal (v : json) : str :=
  match v with
  | JInt n => if n <? 0 then 45 :: digits 64 (- n) [] else digits 64 n []
  | JStr s => s
  | _ => py "?"
  end.

(** Two work items of one assignee, in two sprints. *)
Definition sprint_item (id : Z) (path : string) : json :=
  JObj [(py "id", JInt id);
        (py "fields", JObj [(py "System.IterationPath", JStr (py path))]);
        (py "url", JStr (py "u"))].

Definition sprint_script : list reply :=
  [ok (JObj [(py "workItems", JArr [JObj [(py "id", JInt 1)]; JObj [(py "id", JInt 2)]])]);
   ok (JObj [(py "value", JArr [sprint_item 1 "Proj\Sprint 1"; sprint_item 2 "Proj\Sprint 2"])])].

Definition sprint_entry (id : Z) (path : string) : json :=
  JObj [(py "id", JInt id); (py "title", JNull); (py "state", JNull);
        (py "assigned_to", JNull); (py "work_item_type", JNull);
        (py "iteration", JStr (py path)); (py "created_date", JNull);
        (py "url", JStr (py "u"))].

(** A work item and its one child, both described by the same markup. *)
Definition nbsp_script : list reply :=
  [ok (JObj [(py "id", JInt 1);
             (py "fields", JObj [(py "System.Description", JStr (py "<div>a&nbsp;b</div>"))]);
             (py "relations",
              JArr [JObj [(py "rel", JStr forward_link);
                          (py "url", JStr (py "https://h/p/_apis/wit/workItems/2"))]]);
             (py "url", JStr (py "u1"))]);
   ok (JObj [(py "comments", JArr [])]);
   ok (JObj [(py "value",
              JArr [JObj [(py "id", JInt 2);
                          (py "fields",
                           JObj [(py "System.Description",
                                  JStr (py "<div>a&nbsp;b</div>"))])]])])].

(** No occurrence of [sep] in [pre ++ s] starts inside [pre]. *)
Definition settled (sep pre s : str) : Prop :=
  forall a b, pre = a ++ b -> b <> [] -> startswith (b ++ s) sep = false.

(** ** Failures of the upstream *)

Definition is_success (r : response) : bool :=
  (200 <=? status_code r) && (status_code r <=? 299).

(** An exception other than the one [raise_for_status] raises. *)
Definition plain (e : exn) : Prop :=
  match e with
  | HTTPStatusError _ => False
  | _ => True
  end.

Definition raises_plainly {A} (p : prog A) : Prop :=
  match p with
  | Raise e => plain e
  | _ => True
  end.

(** What the caller of /work-items or /my-iterations gets when the
    handler fails after the exchanges [h], the latest first: the status
    and text of a failed upstream response are passed on, and anything
    else is a 500. *)
Definition upstream_failure (exn_str : exn -> str) (h : history) (e : exn) : Prop :=
  match h with
  | (_, Response r) :: _ =>
    if is_success r
    then exists detail, e = HTTPException 500 detail
    else e = HTTPException (status_code r) (py "Azure DevOps API error: " ++ text r)
  | (_, Failure m) :: _ =>
    e = HTTPException 500 (py "Internal server error: " ++ exn_str (TransportError m))
  | [] => exists detail, e = HTTPException 500 detail
  end.

Definition answered_with_success (x : request * reply) : Prop :=
  exists r, snd x = Response r /\ is_success r = true.

(** ** Listings *)

(** Each string is below every later one. *)
Fixpoint ascending (l : list str) : Prop :=
  match l with
  | [] => True
  | x :: l' => Forall (fun y => str_compare x y = Lt) l' /\ ascending l'
  end.

(** Three work items in two sprints, the later sprint listed first. *)
Definition iteration_script : list reply :=
  [ok (JObj [(py "workItems",
              JArr [JObj [(py "id", JInt 1)]; JObj [(py "id", JInt 2)];
                    JObj [(py "id", JInt 3)]])]);
   ok (JObj [(py "value",
              JArr [sprint_item 1 "Proj\Sprint 2"; sprint_item 2 "Proj\Sprint 1";
                    sprint_item 3 "Proj\Sprint 2"])])].

(** ** The requests *)

(** [p] awaits at most [n] upstream calls, whatever the replies. *)
Fixpoint at_most {A} (n : nat) (p : prog A) {struct p} : Prop :=
  match p with
  | Call _ k =>
    match n with
    | O => False
    | S m => forall r, at_most m (k r)
    end
  | _ => True
  end.

(** [str.endswith]. *)
Definition endswith (s p : str) : bool := startswith (rev s) (rev p).

(** A request to the work-item tracking API of the project of [cfg],
    in version 7.0, with the Basic credentials of the token of [cfg]. *)
Definition addressed (d : defaults) (cfg : azure_config) (rq : request) : Prop :=
  startswith (rq_url rq) (base_url cfg ++ py "/" ++ project cfg ++ py "/_apis/wit/") = true
  /\ endswith (rq_url rq) (py "api-version=7.0") = true
  /\ exists raw,
       utf8_encode (py ":" ++ or_default (Some (access_token cfg)) (AZURE_ACCESS_TOKEN d))
       = Some raw
       /\ In (py "Authorization", py "Basic " ++ b64encode raw) (rq_headers rq).

(** ** The fan-out of a listing *)

(** The references of a reply to a WIQL query: the elements of its
    [workItems]. *)
Definition listed_refs (r : reply) : list json :=
  match r with
  | Response rsp =>
    match body rsp with
    | Some found =>
      match getitem found (py "workItems") with
      | Ret refs =>
        match iter refs with
        | Ret items => items
        | _ => []
        end
      | _ => []
      end
    | None => []
    end
  | Failure _ => []
  end.

(** The exchanges of a listing that succeeds, in order: the query is
    posted; when its reply lists no work item nothing else is asked;
    otherwise one GET asks for the listed IDs, in the order of the
    listing, with the query string ending in [tail]. *)
Definition fanned_out (str_of : json -> str) (cfg : azure_config) (tail : str)
    (exchanges : list (request * reply)) : Prop :=
  exists x1 rest ids,
    exchanges = x1 :: rest
    /\ rq_method (fst x1) = POST
    /\ for_each (fun item => getitem item (py "id")) (listed_refs (snd x1)) = Ret ids
    /\ match rest with
       | [] => ids = []
       | [x2] =>
         ids <> []
         /\ rq_method (fst x2) = GET
         /\ rq_url (fst x2)
            = (base_url cfg ++ py "/" ++ project cfg ++ py "/_apis/wit/workitems")
              ++ py "?ids=" ++ join (py ",") (map str_of ids) ++ tail
       | _ => False
       end.

(** ** The outcome of a probe *)

(** What /test-connection answers after the exchanges [h]: a success
    for a 2xx reply and for a 400 reply that mentions the size limit. *)
Definition probe_success (h : history) (resp : json) : Prop :=
  exists rq r,
    h = [(rq, Response r)]
    /\ if is_success r
       then resp = JObj [(py "status", JStr (py "success"));
                         (py "message", JStr (py "Connection successful"))]
       else status_code r = 400 /\ contains (text r) (py "size limit") = true
            /\ resp = JObj [(py "status", JStr (py "success"));
                            (py "message",
                             JStr (py "Connection successful (large dataset detected)"))].

(** What /test-connection raises after the exchanges [h]: always a 400. *)
Definition probe_failure (exn_str : exn -> str) (h : history) (e : exn) : Prop :=
  exists detail,
    e = HTTPException 400 detail
    /\ match h with
       | [] => exists s, detail = py "Connection failed: " ++ exn_str (UnicodeEncodeError s)
       | [(_, Failure m)] => detail = py "Connection failed: " ++ exn_str (TransportError m)
       | [(_, Response r)] =>
         is_success r = false
         /\ (status_code r = 400 -> contains (text r) (py "size limit") = false)
       | _ => False
       end.

(** ** The comments of a work item *)

(** The comments a reply to the request for comments lists. *)
Definition listed_comments (r : reply) : list json :=
  match r with
  | Response rsp =>
    match body rsp with
    | Some comments_data =>
      match get comments_data (py "comments") (JArr []) with
      | Ret listed =>
        match iter listed with
        | Ret items => items
        | _ => []
        end
      | _ => []
      end
    | None => []
    end
  | Failure _ => []
  end.

(** Where the [comments] of a detail record come from, given the
    exchanges of its fetch in order: the second request asks for the
    comments of the work item, and the comments are shaped from its
    reply when the status is 200 and are none for every other status. *)
Definition comments_origin (cfg : azure_config) (single_id : str)
    (exchanges : list (request * reply)) (record : json) : Prop :=
  exists x1 x2 rest rsp kvs comments,
    exchanges = x1 :: x2 :: rest
    /\ rq_url (fst x2)
       = (base_url cfg ++ py "/" ++ project cfg ++ py "/_apis/wit/workitems/"
          ++ single_id ++ py "/comments") ++ py "?api-version=7.0"
    /\ snd x2 = Response rsp
    /\ record = JObj kvs
    /\ lookup (py "comments") kvs = Some (JArr comments)
    /\ if status_code rsp =? 200
       then for_each shaped_comment (listed_comments (snd x2)) = Ret comments
       else comments = [].

(** A work item without relations whose comments are refused. *)
Definition comments_refused_script : list reply :=
  [ok (JObj [(py "id", JInt 8); (py "fields", JObj []); (py "url", JStr (py "u8"))]);
   status 503 (py "busy")].

(** ** The entries of a details response *)

(** The keys of a detail record, in order. *)
Definition detail_keys : list str :=
  [py "id"; py "title"; py "description"; py "acceptance_criteria"; py "state";
   py "work_item_type"; py "assigned_to"; py "created_by"; py "created_date";
   py "changed_date"; py "iteration"; py "area"; py "priority"; py "story_points";
   py "tags"; py "comments"; py "child_work_items"; py "child_count"; py "url"].

(** The [id] of the work item a reply describes. *)
Definition reported_id (r : reply) : option json :=
  match r with
  | Response rsp =>
    match body rsp with
    | Some (JObj kvs) => lookup (py "id") kvs
    | _ => None
    end
  | Failure _ => None
  end.

(** The request that opens the fetch of one work item. *)
Definition detail_request (cfg : azure_config) (hdrs : list (str * str)) (single_id : str)
    : request :=
  {| rq_method := GET;
     rq_url := (base_url cfg ++ py "/" ++ project cfg ++ py "/_apis/wit/workitems/"
                ++ single_id) ++ py "?$expand=all&api-version=7.0";
     rq_headers := hdrs;
     rq_json := None |}.

(** A detail record, given the exchanges of its fetch in order: an
    object with the keys of a detail record whose [id] is the one the
    first reply reports. *)
Definition detail_record (exchanges : list (request * reply)) (record : json) : Prop :=
  exists x1 rest kvs v,
    exchanges = x1 :: rest
    /\ reported_id (snd x1) = Some v
    /\ record = JObj kvs
    /\ map fst kvs = detail_keys
    /\ lookup (py "id") kvs = Some v.

(** An entry of a details response for the requested ID [single_id],
    as the specification describes it: a detail record, or the record
    [{id, error}] of the ID. *)
Definition answer_for (exn_str : exn -> str) (single_id : str) (entry : json) : Prop :=
  (exists kvs v,
     entry = JObj kvs /\ map fst kvs = detail_keys /\ lookup (py "id") kvs = Some v)
  \/ exists e,
       entry = JObj [(py "id", JStr single_id);
                     (py "error", JStr (py "Failed to fetch details: " ++ exn_str e))].

(** * Properties *)

(** ** Encodings *)

Ltac zcases :=
  repeat match goal with
  | |- context [Z.leb ?a ?b] => destruct (Z.leb_spec a b); try (exfalso; lia)
  | |- context [Z.ltb ?a ?b] => destruct (Z.ltb_spec a b); try (exfalso; lia)
  end.

Lemma sextets2 c : exists q r, c / 64 = q /\ c mod 64 = r /\ c = 64 * q + r /\ 0 <= r < 64.
Proof.
  exists (c / 64), (c mod 64). repeat split; try apply Z.mod_pos_bound; try lia.
  apply Z.div_mod; lia.
Qed.

Lemma sextets3 c : exists a b d, c / 4096 = a /\ (c / 64) mod 64 = b /\ c mod 64 = d /\
  c = 4096 * a + 64 * b + d /\ 0 <= b < 64 /\ 0 <= d < 64.
Proof.
  destruct (sextets2 c) as (q & d & Hq & Hd & Hc & Hdr).
  destruct (sextets2 q) as (a & b & Ha & Hb & Hq' & Hbr).
  exists a, b, d. rewrite Hq, Hb, Hd.
  replace 4096 with (64 * 64) by reflexivity. rewrite <- Z.div_div by lia. rewrite Hq, Ha.
  repeat split; lia.
Qed.

Lemma sextets4 c : exists a b d e, c / 262144 = a /\ (c / 4096) mod 64 = b /\
  (c / 64) mod 64 = d /\ c mod 64 = e /\
  c = 262144 * a + 4096 * b + 64 * d + e /\ 0 <= b < 64 /\ 0 <= d < 64 /\ 0 <= e < 64.
Proof.
  destruct (sextets2 c) as (q & e & Hq & He & Hc & Her).
  destruct (sextets3 q) as (a & b & d & Ha & Hb & Hd & Hq' & Hbr & Hdr).
  exists a, b, d, e.
  assert (E1 : c / 262144 = q / 4096)
    by (rewrite <- Hq, Z.div_div by lia; reflexivity).
  assert (E2 : c / 4096 = q / 64)
    by (rewrite <- Hq, Z.div_div by lia; reflexivity).
  rewrite E1, E2, Hq. repeat split; lia.
Qed.

Lemma utf8_decode_1 b0 rest :
  0 <= b0 < 0x80 ->
  utf8_decode (b0 :: rest) = option_map (cons b0) (utf8_decode rest).
Proof. intros. cbn [utf8_decode]. zcases. reflexivity. Qed.

Lemma utf8_decode_2 b0 b1 rest :
  0xC2 <= b0 <= 0xDF -> 0x80 <= b1 <= 0xBF ->
  utf8_decode (b0 :: b1 :: rest)
  = option_map (cons ((b0 - 0xC0) * 64 + (b1 - 0x80))) (utf8_decode rest).
Proof. intros. cbn [utf8_decode]. unfold is_cont. zcases. reflexivity. Qed.

Lemma utf8_decode_3 b0 b1 b2 rest c :
  0xE0 <= b0 <= 0xEF -> 0x80 <= b1 <= 0xBF -> 0x80 <= b2 <= 0xBF ->
  c = (b0 - 0xE0) * 4096 + (b1 - 0x80) * 64 + (b2 - 0x80) ->
  0x800 <= c -> is_surrogate c = false ->
  utf8_decode (b0 :: b1 :: b2 :: rest) = option_map (cons c) (utf8_decode rest).
Proof.
  intros ? ? ? Hc ? Hs. cbn [utf8_decode]. cbv zeta. rewrite <- Hc, Hs. unfold is_cont.
  zcases. reflexivity.
Qed.

Lemma utf8_decode_4 b0 b1 b2 b3 rest c :
  0xF0 <= b0 <= 0xF4 -> 0x80 <= b1 <= 0xBF -> 0x80 <= b2 <= 0xBF -> 0x80 <= b3 <= 0xBF ->
  c = (b0 - 0xF0) * 262144 + (b1 - 0x80) * 4096 + (b2 - 0x80) * 64 + (b3 - 0x80) ->
  0x10000 <= c < 0x110000 ->
  utf8_decode (b0 :: b1 :: b2 :: b3 :: rest) = option_map (cons c) (utf8_decode rest).
Proof.
  intros ? ? ? ? Hc ?. cbn [utf8_decode]. cbv zeta. rewrite <- Hc. unfold is_cont.
  zcases. reflexivity.
Qed.

Lemma Some_inj {A} (a b : A) : Some a = Some b -> a = b.
Proof. congruence. Qed.

Lemma utf8_decode_encode_cp c b rest :
  utf8_encode_cp c = Some b ->
  utf8_decode (b ++ rest) = option_map (cons c) (utf8_decode rest).
Proof.
  unfold utf8_encode_cp.
  destruct (Z.ltb_spec c 0); [discriminate|].
  destruct (Z.ltb_spec c 0x80).
  { intros E; apply Some_inj in E; subst b. apply utf8_decode_1. lia. }
  destruct (Z.ltb_spec c 0x800).
  { destruct (sextets2 c) as (q & r & -> & -> & Hc & Hr).
    intros E; apply Some_inj in E; subst b. cbn [app]. rewrite utf8_decode_2 by lia. do 2 f_equal. lia. }
  destruct (Z.ltb_spec c 0x10000).
  { destruct (sextets3 c) as (a & k & d & -> & -> & -> & Hc & Hk & Hd).
    destruct (is_surrogate c) eqn:Hs; [discriminate|].
    intros E; apply Some_inj in E; subst b. cbn [app]. apply utf8_decode_3; try lia. exact Hs. }
  destruct (Z.ltb_spec c 0x110000); [|discriminate].
  destruct (sextets4 c) as (a & k & d & e & -> & -> & -> & -> & Hc & Hk & Hd & He).
  intros E; apply Some_inj in E; subst b. cbn [app]. apply utf8_decode_4; lia.
Qed.

Lemma utf8_decode_encode s bs :
  utf8_encode s = Some bs -> utf8_decode bs = Some s.
Proof.
  revert bs. induction s as [|c s IH]; intros bs; cbn [utf8_encode].
  - intros [= <-]. reflexivity.
  - destruct (utf8_encode_cp c) as [b|] eqn:Ec; [|discriminate].
    destruct (utf8_encode s) as [bs'|]; [|discriminate].
    intros [= <-]. rewrite (utf8_decode_encode_cp _ _ _ Ec), (IH bs' eq_refl). reflexivity.
Qed.


Lemma b64_char_spec n :
  0 <= n < 64 ->
  b64_value (b64_char n) = Some n /\ b64_char n <> b64_pad /\ 0 <= b64_char n < 128.
Proof.
  intros Hn. assert (E : n = Z.of_nat (Z.to_nat n)) by lia.
  assert (Hk : (Z.to_nat n < 64)%nat) by lia.
  revert E Hk. generalize (Z.to_nat n). intros k -> Hk. clear Hn.
  do 64 (destruct k as [|k]; [vm_compute; repeat split; congruence|]).
  lia.
Qed.

Lemma a2b_step ch v rest q l p :
  b64_value ch = Some v -> ch <> b64_pad ->
  a2b_base64 (ch :: rest) q l p =
    if q =? 0 then a2b_base64 rest 1 v 0
    else if q =? 1 then option_map (cons (l * 4 + v / 16)) (a2b_base64 rest 2 (v mod 16) 0)
    else if q =? 2 then option_map (cons (l * 16 + v / 4)) (a2b_base64 rest 3 (v mod 4) 0)
    else option_map (cons (l * 64 + v)) (a2b_base64 rest 0 0 0).
Proof.
  intros Hv Hp. cbn [a2b_base64]. rewrite Hv.
  destruct (Z.eqb_spec ch b64_pad); [contradiction|reflexivity].
Qed.

Lemma a2b_char n rest q l p :
  0 <= n < 64 ->
  a2b_base64 (b64_char n :: rest) q l p =
    if q =? 0 then a2b_base64 rest 1 n 0
    else if q =? 1 then option_map (cons (l * 4 + n / 16)) (a2b_base64 rest 2 (n mod 16) 0)
    else if q =? 2 then option_map (cons (l * 16 + n / 4)) (a2b_base64 rest 3 (n mod 4) 0)
    else option_map (cons (l * 64 + n)) (a2b_base64 rest 0 0 0).
Proof.
  intros Hn. destruct (b64_char_spec n Hn) as (Hv & Hp & _). now apply a2b_step.
Qed.

Lemma list_ind3 {A} (P : list A -> Prop) :
  P [] -> (forall a, P [a]) -> (forall a b, P [a; b]) ->
  (forall a b c r, P r -> P (a :: b :: c :: r)) ->
  forall l, P l.
Proof.
  intros H0 H1 H2 H3.
  fix IH 1. intros [|a [|b [|c r]]].
  - exact H0.
  - apply H1.
  - apply H2.
  - apply H3, IH.
Qed.

Lemma a2b_base64_encode bs :
  Forall is_byte bs -> a2b_base64 (b64encode bs) 0 0 0 = Some bs.
Proof.
  unfold is_byte.
  induction bs as [|a|a b|a b c r IH] using list_ind3; intros HB.
  - reflexivity.
  - inversion_clear HB as [|? ? Ha _]. cbn [b64encode].
    rewrite a2b_char by (Z.div_mod_to_equations; lia). cbn [Z.eqb].
    rewrite a2b_char by (Z.div_mod_to_equations; lia). cbn [Z.eqb Pos.eqb].
    replace (a / 4 * 4 + a mod 4 * 16 / 16) with a by (Z.div_mod_to_equations; lia).
    reflexivity.
  - inversion_clear HB as [|? ? Ha HB']. inversion_clear HB' as [|? ? Hb _].
    cbn [b64encode].
    rewrite a2b_char by (Z.div_mod_to_equations; lia). cbn [Z.eqb].
    rewrite a2b_char by (Z.div_mod_to_equations; lia). cbn [Z.eqb Pos.eqb].
    rewrite a2b_char by (Z.div_mod_to_equations; lia). cbn [Z.eqb Pos.eqb].
    replace (a / 4 * 4 + (a mod 4 * 16 + b / 16) / 16) with a by (Z.div_mod_to_equations; lia).
    replace ((a mod 4 * 16 + b / 16) mod 16 * 16 + b mod 16 * 4 / 4) with b
      by (Z.div_mod_to_equations; lia).
    reflexivity.
  - inversion_clear HB as [|? ? Ha HB']. inversion_clear HB' as [|? ? Hb HB''].
    inversion_clear HB'' as [|? ? Hc Hr].
    cbn [b64encode].
    rewrite a2b_char by (Z.div_mod_to_equations; lia). cbn [Z.eqb].
    rewrite a2b_char by (Z.div_mod_to_equations; lia). cbn [Z.eqb Pos.eqb].
    rewrite a2b_char by (Z.div_mod_to_equations; lia). cbn [Z.eqb Pos.eqb].
    rewrite a2b_char by (Z.div_mod_to_equations; lia). cbn [Z.eqb Pos.eqb].
    rewrite (IH Hr). cbn [option_map].
    replace (a / 4 * 4 + (a mod 4 * 16 + b / 16) / 16) with a by (Z.div_mod_to_equations; lia).
    replace ((a mod 4 * 16 + b / 16) mod 16 * 16 + (b mod 16 * 4 + c / 64) / 4) with b
      by (Z.div_mod_to_equations; lia).
    replace ((b mod 16 * 4 + c / 64) mod 4 * 64 + c mod 64) with c
      by (Z.div_mod_to_equations; lia).
    reflexivity.
Qed.

Lemma utf8_encode_cp_bytes c b : utf8_encode_cp c = Some b -> Forall is_byte b.
Proof.
  unfold utf8_encode_cp, is_byte.
  destruct (Z.ltb_spec c 0); [discriminate|].
  destruct (Z.ltb_spec c 0x80).
  { intros E; apply Some_inj in E; subst b. repeat constructor; lia. }
  destruct (Z.ltb_spec c 0x800).
  { destruct (sextets2 c) as (q & r & -> & -> & Hc & Hr).
    intros E; apply Some_inj in E; subst b. repeat constructor; lia. }
  destruct (Z.ltb_spec c 0x10000).
  { destruct (sextets3 c) as (a & k & d & -> & -> & -> & Hc & Hk & Hd).
    destruct (is_surrogate c); [discriminate|].
    intros E; apply Some_inj in E; subst b. repeat constructor; lia. }
  destruct (Z.ltb_spec c 0x110000); [|discriminate].
  destruct (sextets4 c) as (a & k & d & e & -> & -> & -> & -> & Hc & Hk & Hd & He).
  intros E; apply Some_inj in E; subst b. repeat constructor; lia.
Qed.

Lemma utf8_encode_bytes s bs : utf8_encode s = Some bs -> Forall is_byte bs.
Proof.
  revert bs. induction s as [|c s IH]; intros bs; cbn [utf8_encode].
  - intros E; apply Some_inj in E; subst bs. constructor.
  - destruct (utf8_encode_cp c) as [b|] eqn:Ec; [|discriminate].
    destruct (utf8_encode s) as [bs'|]; [|discriminate].
    intros E; apply Some_inj in E; subst bs.
    apply Forall_app. split; [eapply utf8_encode_cp_bytes; eassumption | now apply IH].
Qed.


Lemma is_ascii_b64_char n : 0 <= n < 64 -> is_ascii (b64_char n) = true.
Proof.
  intros Hn. destruct (b64_char_spec n Hn) as (_ & _ & H). unfold is_ascii.
  apply andb_true_intro. split; [apply Z.leb_le | apply Z.ltb_lt]; lia.
Qed.

Lemma b64encode_ascii bs :
  Forall is_byte bs -> forallb is_ascii (b64encode bs) = true.
Proof.
  unfold is_byte.
  induction bs as [|a|a b|a b c r IH] using list_ind3; intros HB.
  - reflexivity.
  - inversion_clear HB as [|? ? Ha _]. cbn [b64encode forallb].
    rewrite !is_ascii_b64_char by (Z.div_mod_to_equations; lia). reflexivity.
  - inversion_clear HB as [|? ? Ha HB']. inversion_clear HB' as [|? ? Hb _].
    cbn [b64encode forallb].
    rewrite !is_ascii_b64_char by (Z.div_mod_to_equations; lia). reflexivity.
  - inversion_clear HB as [|? ? Ha HB']. inversion_clear HB' as [|? ? Hb HB''].
    inversion_clear HB'' as [|? ? Hc Hr].
    cbn [b64encode forallb].
    rewrite !is_ascii_b64_char by (Z.div_mod_to_equations; lia). rewrite (IH Hr). reflexivity.
Qed.

Lemma b64decode_encode bs : Forall is_byte bs -> b64decode (b64encode bs) = Some bs.
Proof.
  intros HB. unfold b64decode. fold is_ascii.
  rewrite (b64encode_ascii _ HB). now apply a2b_base64_encode.
Qed.

Lemma token_of_authorization_basic x :
  token_of_authorization (Some (py "Basic " ++ x)) =
  match b64decode x with
  | Some raw =>
    match utf8_decode raw with
    | Some decoded => if startswith decoded (py ":") then Some (skipn 1 decoded) else None
    | None => None
    end
  | None => None
  end.
Proof. reflexivity. Qed.

Lemma token_of_basic_credentials T h :
  basic_credentials T = Some h -> token_of_authorization (Some h) = Some T.
Proof.
  unfold basic_credentials. destruct (utf8_encode (58 :: T)) as [bs|] eqn:E; [|discriminate].
  intros Eh; apply Some_inj in Eh; subst h.
  rewrite token_of_authorization_basic.
  rewrite (b64decode_encode _ (utf8_encode_bytes _ _ E)), (utf8_decode_encode _ _ E).
  reflexivity.
Qed.

(** C1, amended. For every non-empty token string [T], a request whose
    Authorization header is [Basic base64(":" + T)] has its access
    token resolved to exactly [T]; for the empty token the resolver
    substitutes the static default token. *)
Theorem basic_token_resolved d o p u T h :
  basic_credentials T = Some h ->
  let resolved := access_token (get_azure_config_from_headers d o p u (Some h)) in
  (T <> [] -> resolved = T) /\ (T = [] -> resolved = AZURE_ACCESS_TOKEN d).
Proof.
  intros Hh resolved. unfold resolved. cbn [get_azure_config_from_headers access_token].
  rewrite (token_of_basic_credentials _ _ Hh). split.
  - intros HT. destruct T; [contradiction|reflexivity].
  - intros ->. reflexivity.
Qed.

Lemma basic_token_resolved_witness :
  access_token (get_azure_config_from_headers builtin_defaults None None None
    (Some (py "Basic OmFiYw=="))) = py "abc".
Proof.
  apply (basic_token_resolved builtin_defaults None None None (py "abc")
           (py "Basic OmFiYw==") eq_refl).
  discriminate.
Defined.

(** C1 as stated fails for the empty token: the header [Basic Og==],
    which is [Basic base64(":")], resolves to the default token. *)
Lemma empty_basic_token_replaced :
  ~ (forall d T h, basic_credentials T = Some h ->
       access_token (get_azure_config_from_headers d None None None (Some h)) = T).
Proof.
  intros H. specialize (H builtin_defaults [] (py "Basic Og==") eq_refl).
  vm_compute in H. discriminate.
Qed.

(** C9. When the Authorization header is missing, does not start with
    the Basic scheme, carries a payload that is not Base64 or not
    UTF-8, or decodes to a text that does not start with a colon, the
    resolver, a total function, yields the static default token and
    resolves the other three settings as usual. *)
Theorem malformed_authorization_falls_back d o p u authorization :
  (authorization = None
   \/ (exists a, authorization = Some a /\ startswith a (py "Basic ") = false)
   \/ (exists a, authorization = Some a /\ b64decode (skipn 6 a) = None)
   \/ (exists a raw, authorization = Some a /\ b64decode (skipn 6 a) = Some raw
                     /\ utf8_decode raw = None)
   \/ (exists a raw decoded,
         authorization = Some a /\ b64decode (skipn 6 a) = Some raw
         /\ utf8_decode raw = Some decoded /\ startswith decoded (py ":") = false)) ->
  get_azure_config_from_headers d o p u authorization =
  {| organization := or_default o (AZURE_DEVOPS_ORG d);
     project := or_default p (AZURE_DEVOPS_PROJECT d);
     base_url := or_default u (BASE_URL d);
     access_token := AZURE_ACCESS_TOKEN d |}.
Proof.
  intros H. unfold get_azure_config_from_headers. f_equal.
  assert (E : token_of_authorization authorization = None); [|now rewrite E].
  destruct H as [->|[(a & -> & H)|[(a & -> & H)|[(a & raw & -> & H1 & H2)
                |(a & raw & decoded & -> & H1 & H2 & H3)]]]];
    [reflexivity| | | |]; destruct a as [|c a]; try reflexivity;
    unfold token_of_authorization;
    destruct (startswith (c :: a) (py "Basic ")); try reflexivity; try discriminate.
  - now rewrite H.
  - now rewrite H1, H2.
  - now rewrite H1, H2, H3.
Qed.

Lemma malformed_authorization_falls_back_witness :
  get_azure_config_from_headers builtin_defaults None (Some (py "Backlog")) None
    (Some (py "Basic abc")) =
  {| organization := py "your-org";
     project := py "Backlog";
     base_url := py "https://your-org.visualstudio.com";
     access_token := py "your-pat-token" |}.
Proof.
  apply (malformed_authorization_falls_back builtin_defaults None (Some (py "Backlog")) None
           (Some (py "Basic abc"))).
  right. right. left. exists (py "Basic abc"). split; reflexivity.
Defined.

(** ** The program logic *)

Lemma ensures_weaken {A} (p : prog A) (Q Q' : history -> A -> Prop)
    (E E' : history -> exn -> Prop) h :
  (forall h' a, Q h' a -> Q' h' a) -> (forall h' e, E h' e -> E' h' e) ->
  ensures h p Q E -> ensures h p Q' E'.
Proof.
  intros HQ HE. revert h. induction p as [a|e|rq k IH]; cbn; auto.
Qed.

Lemma ensures_bind {A B} (p : prog A) (f : A -> prog B) Q E h :
  ensures h p (fun h' a => ensures h' (f a) Q E) E -> ensures h (bind p f) Q E.
Proof.
  revert h. induction p as [a|e|rq k IH]; cbn; auto.
Qed.

Lemma ensures_try {A} (p : prog A) (handler : exn -> prog A) Q E h :
  ensures h p Q (fun h' e => ensures h' (handler e) Q E) ->
  ensures h (try_except p handler) Q E.
Proof.
  revert h. induction p as [a|e|rq k IH]; cbn; auto.
Qed.

Lemma ensures_any {A} (p : prog A) h :
  ensures h p (fun _ _ => True) (fun _ _ => True).
Proof.
  revert h. induction p as [a|e|rq k IH]; cbn; auto.
Qed.

Lemma ensures_bind_any {A B} (p : prog A) (f : A -> prog B) Q h :
  (forall h' a, ensures h' (f a) Q (fun _ _ => True)) ->
  ensures h (bind p f) Q (fun _ _ => True).
Proof.
  intros H. apply ensures_bind.
  eapply ensures_weaken; [| |apply ensures_any]; cbn; auto.
Qed.

Lemma ensures_try_any {A} (p : prog A) (handler : exn -> prog A) Q h :
  ensures h p Q (fun _ _ => True) ->
  (forall h' e, ensures h' (handler e) Q (fun _ _ => True)) ->
  ensures h (try_except p handler) Q (fun _ _ => True).
Proof.
  intros Hp Hh. apply ensures_try.
  eapply ensures_weaken; [| |apply Hp]; cbn; auto.
Qed.

Lemma ensures_for_each {A B} (f : A -> prog B) (R : A -> B -> Prop)
    (E : history -> exn -> Prop) l h :
  (forall h' a, In a l -> ensures h' (f a) (fun _ b => R a b) E) ->
  ensures h (for_each f l) (fun _ bs => Forall2 R l bs) E.
Proof.
  revert h. induction l as [|a l IH]; intros h Hf; cbn [for_each].
  - constructor.
  - apply ensures_bind. eapply ensures_weaken; [| |apply Hf; now left].
    + intros h1 b Hb. apply ensures_bind.
      eapply ensures_weaken; [| |apply IH; intros; apply Hf; now right].
      * intros h2 bs Hbs. cbn. now constructor.
      * auto.
    + auto.
Qed.

(** *** Steps that await nothing *)

Lemma pure_inv {A} (p : prog A) :
  pure p -> (exists a, p = Ret a) \/ (exists e, p = Raise e).
Proof.
  destruct p as [a|e|rq k]; cbn; [left|right|intros []]; eauto.
Qed.

Lemma pure_bind {A B} (p : prog A) (f : A -> prog B) :
  pure p -> (forall a, pure (f a)) -> pure (bind p f).
Proof.
  destruct p as [a|e|rq k]; cbn; auto.
Qed.

Lemma pure_for_each {A B} (f : A -> prog B) l :
  (forall a, pure (f a)) -> pure (for_each f l).
Proof.
  intros Hf. induction l as [|a l IH]; cbn [for_each]; [exact I|].
  apply pure_bind; [apply Hf|]. intros b. apply pure_bind; [apply IH|]. intros; exact I.
Qed.

Lemma ensures_bind_pure {A B} (p : prog A) (f : A -> prog B) Q E h :
  pure p ->
  (forall a, p = Ret a -> ensures h (f a) Q E) ->
  (forall e, p = Raise e -> E h e) ->
  ensures h (bind p f) Q E.
Proof.
  intros Hp HR HE. destruct (pure_inv p Hp) as [[a ->]|[e ->]]; cbn; auto.
Qed.

Lemma for_each_ret {A B} (f : A -> prog B) l bs :
  for_each f l = Ret bs -> Forall2 (fun a b => f a = Ret b) l bs.
Proof.
  revert bs. induction l as [|a l IH]; intros bs; cbn [for_each].
  - intros [= <-]. constructor.
  - destruct (f a) as [b|e|rq k] eqn:Ea; cbn [bind]; try discriminate.
    destruct (for_each f l) as [bs'|e|rq k]; cbn [bind]; try discriminate.
    intros [= <-]. constructor; auto.
Qed.

(** *** Running a handler *)

Section RunFacts.
Variable World : Type.
Variable send : request -> World -> reply * World.

Lemma run_bind {A B} (p : prog A) (f : A -> prog B) w :
  run send (bind p f) w =
  match run send p w with
  | (Returned a, w1) => run send (f a) w1
  | (Raised e, w1) => (Raised e, w1)
  end.
Proof.
  revert w. induction p as [a|e|rq k IH]; intros w; cbn; auto.
  destruct (send rq w) as [r w1]. apply IH.
Qed.

Lemma run_try {A} (p : prog A) (handler : exn -> prog A) w :
  run send (try_except p handler) w =
  match run send p w with
  | (Returned a, w1) => (Returned a, w1)
  | (Raised e, w1) => run send (handler e) w1
  end.
Proof.
  revert w. induction p as [a|e|rq k IH]; intros w; cbn; auto.
  destruct (send rq w) as [r w1]. apply IH.
Qed.

Lemma ensures_run {A} (p : prog A) Q E h w :
  ensures h p Q E ->
  match fst (run send p w) with
  | Returned a => Q (rev (exchanges send p w) ++ h) a
  | Raised e => E (rev (exchanges send p w) ++ h) e
  end.
Proof.
  revert h w. induction p as [a|e|rq k IH]; intros h w H; cbn in *; auto.
  destruct (send rq w) as [r w1]. cbn [rev]. rewrite <- app_assoc. cbn [app].
  apply IH, H.
Qed.

Lemma ensures_returned {A} (p : prog A) Q E w a w' :
  ensures [] p Q E -> run send p w = (Returned a, w') ->
  Q (rev (exchanges send p w)) a.
Proof.
  intros H Hr. pose proof (ensures_run p Q E [] w H) as Hq.
  rewrite Hr, app_nil_r in Hq. exact Hq.
Qed.

Lemma ensures_raised {A} (p : prog A) Q E w e w' :
  ensures [] p Q E -> run send p w = (Raised e, w') ->
  E (rev (exchanges send p w)) e.
Proof.
  intros H Hr. pose proof (ensures_run p Q E [] w H) as Hq.
  rewrite Hr, app_nil_r in Hq. exact Hq.
Qed.
End RunFacts.

(** ** Counts *)

Lemma ensures_upstream_error {A} exn_str (Q : history -> A -> Prop) e h :
  ensures h (upstream_error exn_str e) Q (fun _ _ => True).
Proof. destruct e; exact I. Qed.

Ltac walk :=
  repeat first
    [ apply ensures_bind_any; intros ? ?
    | apply ensures_try_any; [|intros ? ?; apply ensures_upstream_error] ].

Lemma get_work_items_counted d str_of exn_str a it o p u auth :
  ensures [] (get_work_items d str_of exn_str a it o p u auth)
          (fun _ => counted (py "work_items")) (fun _ _ => True).
Proof.
  unfold get_work_items. cbv zeta. walk.
  match goal with |- context [nonempty ?l] => destruct (nonempty l) end.
  - walk. cbn [ensures]. unfold counted. do 2 eexists. repeat split.
  - cbn [ensures]. unfold counted. do 2 eexists. repeat split.
Qed.

Lemma get_my_iterations_counted d str_of exn_str a o p u auth :
  ensures [] (get_my_iterations d str_of exn_str a o p u auth)
          (fun _ => counted (py "iterations")) (fun _ _ => True).
Proof.
  unfold get_my_iterations. cbv zeta. walk.
  match goal with |- context [nonempty ?l] => destruct (nonempty l) end.
  - walk. cbn [ensures]. unfold counted. do 2 eexists.
    split; [reflexivity|]. split; [reflexivity|].
    rewrite length_map. reflexivity.
  - cbn [ensures]. unfold counted. do 2 eexists. repeat split.
Qed.

Lemma work_item_detail_counted d cfg single_id h :
  ensures h (work_item_detail d cfg single_id)
          (fun _ => children_counted) (fun _ _ => True).
Proof.
  unfold work_item_detail. cbv zeta. walk.
  cbn [ensures]. unfold children_counted. do 2 eexists. repeat split.
Qed.

Lemma detail_or_error_entry d exn_str cfg single_id h :
  ensures h (detail_or_error d exn_str cfg single_id)
          (fun _ => entry_for exn_str single_id) (fun _ _ => False).
Proof.
  unfold detail_or_error. apply ensures_try.
  eapply ensures_weaken; [| |apply work_item_detail_counted].
  - intros h' a Ha. now left.
  - intros h' e _. cbn. right. now exists e.
Qed.

Lemma get_work_item_details_shape d exn_str wid o p u auth :
  ensures [] (get_work_item_details d exn_str wid o p u auth)
    (fun _ resp =>
       let ids := map strip (split wid (py ",")) in
       if (List.length ids =? 1)%nat
       then exists single_id, ids = [single_id] /\ entry_for exn_str single_id resp
       else exists entries,
              resp = JObj [(py "work_items", JArr entries);
                           (py "count", JInt (Z.of_nat (List.length entries)))]
              /\ Forall2 (entry_for exn_str) ids entries)
    (fun _ _ => False).
Proof.
  unfold get_work_item_details. cbv zeta.
  apply ensures_try. apply ensures_bind.
  eapply ensures_weaken;
    [| |apply ensures_for_each; intros; apply detail_or_error_entry].
  - intros h entries HF. cbn beta.
    destruct (Nat.eqb_spec (List.length (map strip (split wid (py ",")))) 1) as [E1|E1].
    + destruct HF as [|single_id entry ids rest He Hrest]; [discriminate|].
      destruct ids; [|discriminate]. cbn [ensures]. exists single_id. split; auto.
    + cbn [ensures]. exists entries. split; auto.
  - intros h e [].
Qed.

(** C10. In every successful response each count is the length of the
    list it accompanies: [count] and [work_items] of /work-items and of
    a /work-item-details request for several IDs, [count] and
    [iterations] of /my-iterations, and [child_count] and
    [child_work_items] of every detail record, whether it is returned
    bare or inside [work_items]. *)
Theorem counts_equal_lengths (World : Type) (send : request -> World -> reply * World)
    d str_of exn_str (w w' : World) (resp : json) :
  (forall a it o p u auth,
     run send (get_work_items d str_of exn_str a it o p u auth) w = (Returned resp, w') ->
     counted (py "work_items") resp)
  /\ (forall wid o p u auth,
     run send (get_work_item_details d exn_str wid o p u auth) w = (Returned resp, w') ->
     let ids := map strip (split wid (py ",")) in
     (List.length ids <> 1%nat ->
        counted (py "work_items") resp
        /\ exists entries,
             resp = JObj [(py "work_items", JArr entries);
                          (py "count", JInt (Z.of_nat (List.length entries)))]
             /\ Forall (fun entry =>
                  children_counted entry
                  \/ exists single_id e, entry = error_entry exn_str single_id e) entries)
     /\ (List.length ids = 1%nat ->
        children_counted resp
        \/ exists single_id e, resp = error_entry exn_str single_id e))
  /\ (forall a o p u auth,
     run send (get_my_iterations d str_of exn_str a o p u auth) w = (Returned resp, w') ->
     counted (py "iterations") resp).
Proof.
  split; [|split].
  - intros a it o p u auth Hrun.
    exact (ensures_returned _ _ _ _ _ _ _ _ (get_work_items_counted d str_of exn_str a it o p u auth) Hrun).
  - intros wid o p u auth Hrun ids.
    pose proof (ensures_returned _ _ _ _ _ _ _ _
                  (get_work_item_details_shape d exn_str wid o p u auth) Hrun) as H.
    cbn zeta in H. fold ids in H. split; intros Hlen.
    + destruct (Nat.eqb_spec (List.length ids) 1) as [E1|_]; [contradiction|].
      destruct H as (entries & -> & HF). split.
      * unfold counted. do 2 eexists. repeat split.
      * exists entries. split; [reflexivity|].
        clear -HF. induction HF as [|single_id entry ids entries [Hc|[e He]] _ IH]; constructor; eauto.
    + rewrite Hlen in H. cbn in H. destruct H as (single_id & _ & [Hc|[e He]]); eauto.
  - intros a o p u auth Hrun.
    exact (ensures_returned _ _ _ _ _ _ _ _ (get_my_iterations_counted d str_of exn_str a o p u auth) Hrun).
Qed.

(** ** Splitting *)

Lemma split_from_skip sep s k cur :
  split_from sep s k cur = split_from sep (skipn k s) 0 cur.
Proof.
  revert k. induction s as [|c s IH]; intros [|k]; cbn [split_from skipn]; auto.
Qed.

Lemma split_from_not_nil sep s k cur : split_from sep s k cur <> [].
Proof.
  revert k cur. induction s as [|c s IH]; intros k cur; cbn [split_from]; [discriminate|].
  destruct k; [|apply IH]. destruct (startswith (c :: s) sep); [discriminate|apply IH].
Qed.

Lemma contains_cons s c p :
  contains (c :: s) p = startswith (c :: s) p || contains s p.
Proof. reflexivity. Qed.

Lemma split_from_absent sep s cur :
  contains s sep = false -> split_from sep s 0 cur = [rev cur ++ s].
Proof.
  revert cur. induction s as [|c s IH]; intros cur H.
  - cbn. now rewrite app_nil_r.
  - rewrite contains_cons in H. apply orb_false_elim in H as [H1 H2].
    cbn [split_from]. rewrite H1, (IH _ H2). cbn [rev]. now rewrite <- app_assoc.
Qed.

Lemma split_absent s sep : contains s sep = false -> split s sep = [s].
Proof. intros H. unfold split. now rewrite split_from_absent. Qed.

Lemma split_from_present sep s cur :
  sep <> [] -> contains s sep = true ->
  (2 <= List.length (split_from sep s 0 cur))%nat.
Proof.
  intros Hsep. revert cur. induction s as [|c s IH]; intros cur H.
  - destruct sep; [contradiction|discriminate].
  - rewrite contains_cons in H. cbn [split_from].
    destruct (startswith (c :: s) sep).
    + cbn [List.length].
      pose proof (split_from_not_nil sep s (Nat.pred (List.length sep)) []) as Hn.
      destruct (split_from sep s (Nat.pred (List.length sep)) []); [contradiction|cbn; lia].
    + apply IH, H.
Qed.

(** ** Batches of work items *)

Section Batches.
Variable World : Type.
Variable send : request -> World -> reply * World.
Variable d : defaults.
Variable exn_str : exn -> str.

Lemma run_detail_or_error cfg single_id w :
  run send (detail_or_error d exn_str cfg single_id) w =
  (Returned (fst (isolated_entry send d exn_str cfg single_id w)),
   snd (isolated_entry send d exn_str cfg single_id w)).
Proof.
  unfold detail_or_error, isolated_entry. rewrite run_try.
  destruct (run send (work_item_detail d cfg single_id) w) as [[record|e] w1]; reflexivity.
Qed.

Lemma run_for_each_detail cfg ids w :
  run send (for_each (detail_or_error d exn_str cfg) ids) w =
  (Returned (fst (isolated_entries send d exn_str cfg ids w)),
   snd (isolated_entries send d exn_str cfg ids w)).
Proof.
  revert w. induction ids as [|single_id ids IH]; intros w; cbn [for_each isolated_entries].
  - reflexivity.
  - rewrite run_bind, run_detail_or_error.
    destruct (isolated_entry send d exn_str cfg single_id w) as [entry w1]. cbn [fst snd].
    rewrite run_bind, IH.
    destruct (isolated_entries send d exn_str cfg ids w1) as [entries w2]. reflexivity.
Qed.

Lemma isolated_entries_length cfg ids w :
  List.length (fst (isolated_entries send d exn_str cfg ids w)) = List.length ids.
Proof.
  revert w. induction ids as [|single_id ids IH]; intros w; cbn [isolated_entries].
  - reflexivity.
  - destruct (isolated_entry send d exn_str cfg single_id w) as [entry w1].
    specialize (IH w1).
    destruct (isolated_entries send d exn_str cfg ids w1) as [entries w2].
    cbn in *. now rewrite IH.
Qed.

Lemma run_get_work_item_details wid o p u auth w :
  let cfg := get_azure_config_from_headers d o p u auth in
  let ids := map strip (split wid (py ",")) in
  let batch := isolated_entries send d exn_str cfg ids w in
  run send (get_work_item_details d exn_str wid o p u auth) w =
  (Returned
     (if (List.length ids =? 1)%nat
      then hd (JObj [(py "error", JStr (py "No work items found"))]) (fst batch)
      else JObj [(py "work_items", JArr (fst batch));
                 (py "count", JInt (Z.of_nat (List.length (fst batch))))]),
   snd batch).
Proof.
  intros cfg ids batch. unfold get_work_item_details. cbv zeta.
  rewrite run_try, run_bind, run_for_each_detail. fold cfg ids batch.
  destruct (List.length ids =? 1)%nat.
  - destruct (fst batch); reflexivity.
  - reflexivity.
Qed.
End Batches.

Lemma failures_isolated_aux (World : Type) (send : request -> World -> reply * World)
    d exn_str (w : World) wid o p u auth :
  let cfg := get_azure_config_from_headers d o p u auth in
  let ids := map strip (split wid (py ",")) in
  let batch := isolated_entries send d exn_str cfg ids w in
  (2 <= List.length ids)%nat ->
  run send (get_work_item_details d exn_str wid o p u auth) w =
  (Returned (JObj [(py "work_items", JArr (fst batch));
                   (py "count", JInt (Z.of_nat (List.length ids)))]),
   snd batch).
Proof.
  intros cfg ids batch Hlen.
  rewrite run_get_work_item_details. fold cfg ids batch.
  destruct (Nat.eqb_spec (List.length ids) 1) as [E|_]; [lia|].
  unfold batch. now rewrite isolated_entries_length.
Qed.

Example batch_with_failure :
  fst (run scripted
    (get_work_item_details builtin_defaults class_name (py "7, 8") None None None None)
    [status 404 (py "no such item");
     ok (JObj [(py "id", JInt 8); (py "fields", JObj []); (py "url", JStr (py "u8"))]);
     status 500 []]) =
  Returned (JObj [
    (py "work_items", JArr [
       JObj [(py "id", JStr (py "7"));
             (py "error", JStr (py "Failed to fetch details: HTTPStatusError"))];
       JObj [(py "id", JInt 8); (py "title", JNull); (py "description", JStr []);
             (py "acceptance_criteria", JStr []); (py "state", JNull);
             (py "work_item_type", JNull); (py "assigned_to", JNull);
             (py "created_by", JNull); (py "created_date", JNull);
             (py "changed_date", JNull); (py "iteration", JNull); (py "area", JNull);
             (py "priority", JNull); (py "story_points", JNull); (py "tags", JNull);
             (py "comments", JArr []); (py "child_work_items", JArr []);
             (py "child_count", JInt 0); (py "url", JStr (py "u8"))]]);
    (py "count", JInt 2)]).
Proof. vm_compute. reflexivity. Qed.

Example single_failure_is_bare :
  fst (run scripted
    (get_work_item_details builtin_defaults class_name (py "537902") None None None None)
    [status 404 (py "no such item")]) =
  Returned (JObj [(py "id", JStr (py "537902"));
                  (py "error", JStr (py "Failed to fetch details: HTTPStatusError"))]).
Proof. vm_compute. reflexivity. Qed.

Example single_detail_is_bare :
  exists kvs,
    fst (run scripted
      (get_work_item_details builtin_defaults class_name (py " 537902 ") None None None None)
      [ok (JObj [(py "id", JInt 537902); (py "fields", JObj []); (py "url", JStr (py "u"))]);
       status 404 []]) = Returned (JObj kvs)
    /\ lookup (py "id") kvs = Some (JInt 537902)
    /\ lookup (py "work_items") kvs = None.
Proof. eexists. split; [vm_compute; reflexivity|]. split; reflexivity. Qed.

(** ** /test-connection *)

Lemma test_connection_answered (World : Type) (send : request -> World -> reply * World)
    d exn_str (w : World) settings rq r :
  exchanges send (test_connection d exn_str settings) w = [(rq, Response r)] ->
  fst (run send (test_connection d exn_str settings) w) =
  if (200 <=? status_code r) && (status_code r <=? 299)
  then Returned (JObj [(py "status", JStr (py "success"));
                       (py "message", JStr (py "Connection successful"))])
  else fst (run send (connection_error exn_str (HTTPStatusError r)) w).
Proof.
  unfold test_connection, get_auth_header. cbv zeta.
  destruct (utf8_encode _) as [raw|]; [|discriminate].
  cbn [bind try_except client_post await run exchanges].
  destruct (send _ w) as [[r0|m] w1]; cbn [bind try_except run exchanges]; [|discriminate].
  unfold raise_for_status.
  destruct ((200 <=? status_code r0) && (status_code r0 <=? 299)) eqn:E2;
    cbn [bind try_except run exchanges]; intros [= _ ->]; rewrite E2; [reflexivity|].
  unfold connection_error.
  repeat match goal with |- context [if ?c then _ else _] => destruct c end; reflexivity.
Qed.

(** C6. When the upstream answers the probe of /test-connection with a
    failure status: a 400 whose body contains "size limit" is returned
    as a success; a 401 raises a 400 error whose detail lists the three
    PAT-permission hints; a 404 raises a 400 error with a not-found
    message; every other status outside 2xx raises a 400 error carrying
    the upstream text. *)
Theorem connection_failures_mapped (World : Type)
    (send : request -> World -> reply * World) d exn_str (w : World) settings rq r :
  exchanges send (test_connection d exn_str settings) w = [(rq, Response r)] ->
  let outcome := fst (run send (test_connection d exn_str settings) w) in
  (status_code r = 400 -> contains (text r) (py "size limit") = true ->
     exists message,
       outcome = Returned (JObj [(py "status", JStr (py "success"));
                                 (py "message", JStr message)]))
  /\ (status_code r = 401 ->
     exists detail,
       outcome = Raised (HTTPException 400 detail)
       /\ contains detail (py "1. Your PAT is not expired") = true
       /\ contains detail (py "2. Your PAT has 'Project and Team (read)' permissions") = true
       /\ contains detail (py "3. You have access to the organization and project") = true)
  /\ (status_code r = 404 ->
     exists detail,
       outcome = Raised (HTTPException 400 detail)
       /\ contains detail (py "not found") = true)
  /\ (~ 200 <= status_code r <= 299 ->
     status_code r <> 401 -> status_code r <> 404 ->
     ~ (status_code r = 400 /\ contains (text r) (py "size limit") = true) ->
     outcome = Raised (HTTPException 400 (py "Azure DevOps API error: " ++ text r))).
Proof.
  intros Hex outcome. unfold outcome.
  rewrite (test_connection_answered World send d exn_str w settings rq r Hex).
  repeat split.
  - intros Hs Ht. rewrite Hs. cbn [Z.leb Z.compare Pos.compare Pos.compare_cont andb].
    unfold connection_error. rewrite Hs, Ht. cbn. eexists. reflexivity.
  - intros Hs. rewrite Hs. cbn [Z.leb Z.compare Pos.compare Pos.compare_cont andb].
    unfold connection_error. rewrite Hs. cbn [Z.eqb Pos.eqb andb run fst].
    exists permission_hints. repeat split; vm_compute; reflexivity.
  - intros Hs. rewrite Hs. cbn [Z.leb Z.compare Pos.compare Pos.compare_cont andb].
    unfold connection_error. rewrite Hs. cbn [Z.eqb Pos.eqb andb run fst].
    exists not_found_message. split; vm_compute; reflexivity.
  - intros H2 H401 H404 Hsize.
    destruct (Z.leb_spec 200 (status_code r)); destruct (Z.leb_spec (status_code r) 299);
      cbn [andb]; try lia.
    all: unfold connection_error.
    all: destruct (Z.eqb_spec (status_code r) 400) as [E400|E400];
      destruct (contains (text r) (py "size limit")) eqn:Et; cbn [andb];
      try (exfalso; apply Hsize; now split).
    all: destruct (Z.eqb_spec (status_code r) 401); [contradiction|].
    all: destruct (Z.eqb_spec (status_code r) 404); [contradiction|].
    all: reflexivity.
Qed.

Lemma connection_failures_mapped_witness :
  let settings := {| tc_organization := py "org"; tc_project := py "proj";
                     baseUrl := py "dev.example.com"; accessToken := py "pat" |} in
  let r := {| status_code := 401; text := py "denied"; body := None |} in
  exists detail,
    fst (run scripted (test_connection builtin_defaults class_name settings) [Response r])
    = Raised (HTTPException 400 detail)
    /\ contains detail (py "1. Your PAT is not expired") = true
    /\ contains detail (py "2. Your PAT has 'Project and Team (read)' permissions") = true
    /\ contains detail (py "3. You have access to the organization and project") = true.
Proof.
  intros settings r.
  destruct (connection_failures_mapped (list reply) scripted builtin_defaults class_name
              [Response r] settings
              {| rq_method := POST;
                 rq_url := py "https://dev.example.com/proj/_apis/wit/wiql?api-version=7.0";
                 rq_headers := [(py "Authorization", py "Basic OnBhdA==");
                                (py "Content-Type", py "application/json")];
                 rq_json := Some test_query |} r eq_refl)
    as (_ & H401 & _).
  exact (H401 eq_refl).
Defined.

Example size_limit_is_success :
  fst (run scripted
         (test_connection builtin_defaults class_name
            {| tc_organization := py "org"; tc_project := py "proj";
               baseUrl := py "https://dev.example.com"; accessToken := py "pat" |})
         [status 400 (py "VS402337: the query exceeds the size limit")])
  = Returned (JObj [(py "status", JStr (py "success"));
                    (py "message",
                     JStr (py "Connection successful (large dataset detected)"))]).
Proof. vm_compute. reflexivity. Qed.

(** ** Purity of the shaping steps *)

Create HintDb pure.

Lemma pure_getitem o k : pure (getitem o k).
Proof. destruct o; try exact I. cbn. destruct (lookup k kvs); exact I. Qed.

Lemma pure_get o k dflt : pure (get o k dflt).
Proof. destruct o; try exact I. cbn. destruct (lookup k kvs); exact I. Qed.

Lemma pure_iter o : pure (iter o).
Proof. destruct o; exact I. Qed.

Lemma pure_py_in needle o : pure (py_in needle o).
Proof. destruct o; exact I. Qed.

Lemma pure_str_method o attr : pure (str_method o attr).
Proof. destruct o; exact I. Qed.

Lemma pure_raise_for_status r : pure (raise_for_status r).
Proof. unfold raise_for_status. destruct (_ && _); exact I. Qed.

Lemma pure_response_json r : pure (response_json r).
Proof. unfold response_json. destruct (body r); exact I. Qed.

Lemma pure_get_auth_header d token : pure (get_auth_header d token).
Proof. unfold get_auth_header. cbv zeta. destruct (utf8_encode _); exact I. Qed.

Lemma pure_Ret {A} (a : A) : pure (Ret a).
Proof. exact I. Qed.

Lemma pure_Raise {A} e : pure (@Raise A e).
Proof. exact I. Qed.

Lemma pure_if {A} (b : bool) (p q : prog A) : pure p -> pure q -> pure (if b then p else q).
Proof. destruct b; auto. Qed.

#[local] Hint Resolve pure_getitem pure_get pure_iter pure_py_in pure_str_method
  pure_raise_for_status pure_response_json pure_get_auth_header pure_Ret pure_Raise
  pure_if : pure.

Lemma pure_upstream_error {A} exn_str e : pure (@upstream_error exn_str A e).
Proof. destruct e; exact I. Qed.

#[local] Hint Resolve pure_upstream_error : pure.

Ltac purity :=
  repeat match goal with
  | |- pure (bind _ _) => apply pure_bind; [|intros ?]
  | |- pure (if _ then _ else _) => apply pure_if
  | |- pure (for_each _ _) => apply pure_for_each; intros ?
  | |- pure (Ret _) => exact I
  | |- pure (Raise _) => exact I
  | |- pure _ => solve [auto with pure]
  end.

Lemma pure_simplified_item it item : pure (simplified_item it item).
Proof. unfold simplified_item. purity. Qed.

Lemma pure_shaped_comment comment : pure (shaped_comment comment).
Proof. unfold shaped_comment. purity. Qed.

Lemma pure_child_id_of relation : pure (child_id_of relation).
Proof. unfold child_id_of. purity. Qed.

Lemma pure_shaped_child child : pure (shaped_child child).
Proof. unfold shaped_child. purity. Qed.

Lemma pure_cleaned v : pure (cleaned v).
Proof. unfold cleaned. purity. Qed.

Lemma pure_iteration_path_of item : pure (iteration_path_of item).
Proof.
  unfold iteration_path_of. purity.
  match goal with |- context [match ?x with _ => _ end] => destruct x end; exact I.
Qed.

Lemma pure_strings_of l : pure (strings_of l).
Proof.
  induction l as [|v l IH]; [exact I|]. destruct v; try exact I.
  cbn [strings_of]. purity.
Qed.

#[local] Hint Resolve pure_simplified_item pure_shaped_comment pure_child_id_of
  pure_shaped_child pure_cleaned pure_iteration_path_of pure_strings_of : pure.

(** ** The requests a handler issues *)

Lemma issues_pure {A} P (p : prog A) : pure p -> issues P p.
Proof. destruct p; cbn; auto. intros []. Qed.

Lemma issues_bind {A B} P (p : prog A) (f : A -> prog B) :
  issues P p -> (forall a, issues P (f a)) -> issues P (bind p f).
Proof.
  induction p as [a|e|rq k IH]; cbn; auto.
  intros [Hrq Hk] Hf. split; auto.
Qed.

Lemma issues_try {A} P (p : prog A) (handler : exn -> prog A) :
  issues P p -> (forall e, issues P (handler e)) -> issues P (try_except p handler).
Proof.
  induction p as [a|e|rq k IH]; cbn; auto.
  intros [Hrq Hk] Hf. split; auto.
Qed.

Lemma issues_await P rq : P rq -> issues P (await rq).
Proof. intros H. cbn. split; [exact H|]. intros [r|m]; exact I. Qed.

Lemma issues_exchanges {A} (World : Type) (send : request -> World -> reply * World)
    P (p : prog A) w :
  issues P p -> Forall (fun x => P (fst x)) (exchanges send p w).
Proof.
  revert w. induction p as [a|e|rq k IH]; intros w; cbn; auto.
  intros [Hrq Hk]. destruct (send rq w) as [r w1]. constructor; auto.
Qed.

Ltac issuing :=
  repeat match goal with
  | |- issues _ (bind _ _) => apply issues_bind; [|intros ?]
  | |- issues _ (try_except _ _) => apply issues_try; [|intros ?]
  | |- issues _ (await _) => apply issues_await
  | |- issues _ (client_post _ _ _) => unfold client_post
  | |- issues _ (client_get _ _) => unfold client_get
  | |- issues _ (if ?b then _ else _) => destruct b
  | |- issues _ _ => apply issues_pure; solve [purity]
  end.

(** ** The WIQL queries *)

Lemma startswith_app_free p s y :
  forallb (differs_from y) p = true -> startswith (s ++ y) p = startswith s p.
Proof.
  revert s. induction p as [|c p IH]; intros s H; [reflexivity|].
  cbn [forallb] in H. apply andb_prop in H as [Hc Hp].
  destruct s as [|e s]; cbn [app startswith].
  - destruct y as [|e y]; [reflexivity|].
    cbn [differs_from forallb] in Hc. apply andb_prop in Hc as [Hc _].
    apply negb_true_iff in Hc. now rewrite Hc.
  - now rewrite IH.
Qed.

Lemma contains_skip_prefix x r c p :
  differs_from x c = true -> contains (x ++ r) (c :: p) = contains r (c :: p).
Proof.
  induction x as [|e x IH]; intros H; [reflexivity|].
  cbn [differs_from forallb] in H. apply andb_prop in H as [Hc Hx].
  apply negb_true_iff in Hc.
  cbn [app]. rewrite contains_cons. cbn [startswith]. rewrite Hc. cbn [andb orb].
  now apply IH.
Qed.

Lemma contains_skip_suffix a y c p :
  forallb (differs_from y) (c :: p) = true ->
  contains (a ++ y) (c :: p) = contains a (c :: p).
Proof.
  intros H. induction a as [|e a IH].
  - cbn [app]. rewrite <- (app_nil_r y), contains_skip_prefix; [reflexivity|].
    cbn [forallb] in H. now apply andb_prop in H as [Hc _].
  - cbn [app]. rewrite !contains_cons, IH. f_equal.
    exact (startswith_app_free (c :: p) (e :: a) y H).
Qed.

(** C3. Whatever the iteration parameter, the WIQL query /work-items
    posts is the text built from the assignee alone, so the parameter
    never reaches it: its WHERE clause, the only one, is the comparison
    of [System.AssignedTo] with the assignee put in as it is, followed
    by white space, and it mentions an iteration path exactly when the
    assignee text does. The same holds for the query of
    /my-iterations. *)
Theorem wiql_has_no_iteration_condition (World : Type)
    (send : request -> World -> reply * World) d str_of exn_str (w : World)
    a it o p u auth :
  Forall (fun x => rq_method (fst x) = POST ->
                   rq_json (fst x) = Some (work_items_wiql a))
         (exchanges send (get_work_items d str_of exn_str a it o p u auth) w)
  /\ Forall (fun x => rq_method (fst x) = POST ->
                      rq_json (fst x) = Some (my_iterations_wiql a))
            (exchanges send (get_my_iterations d str_of exn_str a o p u auth) w)
  /\ (exists head tail,
        work_items_wiql a =
          JObj [(py "query",
                 JStr (head ++ py "WHERE [System.AssignedTo] = '" ++ a ++ py "'" ++ tail))]
        /\ contains head (py "WHERE") = false /\ forallb is_space tail = true)
  /\ (exists head tail,
        my_iterations_wiql a =
          JObj [(py "query",
                 JStr (head ++ py "WHERE [System.AssignedTo] = '" ++ a ++ py "'" ++ tail))]
        /\ contains head (py "WHERE") = false /\ forallb is_space tail = true)
  /\ (forall tail,
        forallb is_space tail = true ->
        contains (py "[System.AssignedTo] = '" ++ a ++ py "'" ++ tail)
                 (py "IterationPath")
        = contains a (py "IterationPath")).
Proof.
  split; [|split; [|split; [|split]]].
  - apply (issues_exchanges World send
             (fun rq => rq_method rq = POST -> rq_json rq = Some (work_items_wiql a))).
    unfold get_work_items. cbv zeta.
    issuing; cbn; congruence.
  - apply (issues_exchanges World send
             (fun rq => rq_method rq = POST -> rq_json rq = Some (my_iterations_wiql a))).
    unfold get_my_iterations. cbv zeta.
    issuing; cbn; congruence.
  - exists work_items_select, (10 :: py "        "). repeat split.
  - exists my_iterations_select, (10 :: py "        "). repeat split.
  - intros tail Ht.
    change (py "IterationPath") with (73 :: py "terationPath") in *.
    rewrite contains_skip_prefix by reflexivity.
    rewrite contains_skip_suffix; [reflexivity|].
    change (py "'" ++ tail) with (39 :: tail).
    cbn [forallb]. 
    assert (Hs : forall c, is_space c = false -> negb (c =? 39) = true ->
                 differs_from (39 :: tail) c = true).
    { intros c Hc H39. cbn [differs_from forallb]. rewrite H39. cbn [andb].
      clear -Ht Hc. induction tail as [|e tail IH]; [reflexivity|].
      cbn [forallb] in *. apply andb_prop in Ht as [He Ht]. rewrite (IH Ht), andb_true_r.
      apply negb_true_iff. apply Z.eqb_neq. intros ->. congruence. }
    vm_compute py. cbn [forallb].
    rewrite !Hs by reflexivity. reflexivity.
Qed.

(** C3 as stated fails for an assignee text that closes the quote: the
    assignee is put into the query as it is, so the posted WHERE clause
    can hold a condition on [System.IterationPath]. *)
Lemma injected_iteration_condition :
  ~ (forall a it,
       Forall (fun x =>
                 forall head clause,
                   rq_json (fst x) = Some (JObj [(py "query", JStr (head ++ clause))]) ->
                   startswith clause (py "WHERE") = true ->
                   contains clause (py "[System.IterationPath] =") = false)
         (exchanges scripted
            (get_work_items builtin_defaults decimal class_name a it None None None None)
            [])).
Proof.
  intros H.
  specialize (H (py "x' OR [System.IterationPath] = 'Proj\Sprint 1") []).
  apply Forall_inv in H.
  specialize (H work_items_select
                (py "WHERE [System.AssignedTo] = 'x' OR [System.IterationPath] = 'Proj\Sprint 1'"
                 ++ 10 :: py "        ") eq_refl eq_refl).
  vm_compute in H. discriminate.
Qed.

Example injected_query_text :
  work_items_wiql (py "x' OR [System.IterationPath] = 'Proj\Sprint 1")
  = JObj [(py "query",
           JStr (work_items_select
                 ++ py "WHERE [System.AssignedTo] = 'x' OR [System.IterationPath] = 'Proj\Sprint 1'"
                 ++ 10 :: py "        "))].
Proof. reflexivity. Qed.

(** ** /work-items: the iteration filter *)

Ltac pure_steps :=
  repeat match goal with
  | H : context [bind ?p _] |- _ =>
    let E := fresh "E" in destruct p eqn:E; cbn [bind] in H; try discriminate H
  end.

Lemma simplified_item_kept it item entry :
  simplified_item it item = Ret (Some entry) ->
  exists fields path kvs,
    getitem item (py "fields") = Ret fields
    /\ get fields (py "System.IterationPath") (JStr []) = Ret path
    /\ entry = JObj kvs /\ lookup (py "iteration") kvs = Some path
    /\ (it <> [] -> py_in it path = Ret true).
Proof.
  unfold simplified_item. intros H.
  destruct (getitem item (py "fields")) as [fields| |] eqn:Ef; cbn [bind] in H; try discriminate.
  destruct (get fields (py "System.IterationPath") (JStr [])) as [path| |] eqn:Ep;
    cbn [bind] in H; try discriminate.
  exists fields, path.
  destruct it as [|c it]; cbn [nonempty bind] in H.
  - pure_steps. eexists.
    assert (H' := f_equal (fun r => match r with Ret (Some x) => x | _ => JNull end) H).
    cbn in H'. subst entry. repeat split; try assumption. congruence.
  - destruct (py_in (c :: it) path) as [found| |] eqn:Ei; cbn [bind] in H; try discriminate.
    destruct found; cbn [negb] in H; [|discriminate].
    pure_steps.
    assert (H' := f_equal (fun r => match r with Ret (Some x) => x | _ => JNull end) H).
    cbn in H'. subst entry. eexists. repeat split; assumption.
Qed.

Lemma simplified_item_skipped it item :
  simplified_item it item = Ret None ->
  it <> []
  /\ exists fields path,
       getitem item (py "fields") = Ret fields
       /\ get fields (py "System.IterationPath") (JStr []) = Ret path
       /\ py_in it path = Ret false.
Proof.
  unfold simplified_item. intros H.
  destruct (getitem item (py "fields")) as [fields| |] eqn:Ef; cbn [bind] in H; try discriminate.
  destruct (get fields (py "System.IterationPath") (JStr [])) as [path| |] eqn:Ep;
    cbn [bind] in H; try discriminate.
  destruct it as [|c it]; cbn [nonempty bind] in H.
  - pure_steps.
  - split; [discriminate|]. exists fields, path.
    destruct (py_in (c :: it) path) as [found| |] eqn:Ei; cbn [bind] in H; try discriminate.
    destruct found; cbn [negb] in H; [pure_steps|]. repeat split; assumption.
Qed.

Lemma py_in_substring it path s :
  py_in it path = Ret true -> path = JStr s -> contains s it = true.
Proof. intros H ->. cbn in H. congruence. Qed.

Lemma response_json_body r j : response_json r = Ret j -> body r = Some j.
Proof. unfold response_json. destruct (body r); congruence. Qed.

Ltac advance :=
  match goal with
  | |- ensures _ (try_except _ _) _ _ => apply ensures_try
  | |- ensures _ (bind (client_post _ _ _) _) _ _ =>
    unfold client_post, await; cbn [bind ensures];
    intros [?rsp|?m]; cbn [bind ensures]; [|try apply ensures_upstream_error]
  | |- ensures _ (bind (client_get _ _) _) _ _ =>
    unfold client_get, await; cbn [bind ensures];
    intros [?rsp|?m]; cbn [bind ensures]; [|try apply ensures_upstream_error]
  | |- ensures _ (bind _ _) _ _ =>
    apply ensures_bind_pure;
    [ solve [purity] | intros ? ? | intros ? ?; try apply ensures_upstream_error ]
  end.

Lemma get_work_items_filtered d str_of exn_str a it o p u auth :
  ensures [] (get_work_items d str_of exn_str a it o p u auth)
    (fun h resp =>
       exists kept kvs,
         for_each (simplified_item it) (fetched_items (rev h)) = Ret kept
         /\ resp = JObj kvs
         /\ lookup (py "work_items") kvs = Some (JArr (somes kept)))
    (fun _ _ => True).
Proof.
  unfold get_work_items. cbv zeta.
  advance; [|exact I]. repeat advance.
  match goal with |- context [nonempty ?l] => destruct (nonempty l) end.
  - repeat advance. cbn [ensures].
    match goal with
    | Hb : response_json rsp0 = Ret ?details,
      Hv : getitem ?details (py "value") = Ret ?listed,
      Hi : iter ?listed = Ret ?items,
      Hk : for_each _ ?items = Ret ?kept |- _ =>
      exists kept; eexists; split; [|split; reflexivity];
      unfold fetched_items, listed_items; cbn [rev app find is_get fst snd rq_method];
      rewrite (response_json_body _ _ Hb), Hv, Hi; exact Hk
    end.
  - cbn [ensures]. exists []. eexists. split; [|split; reflexivity]. reflexivity.
Qed.

(** C7. In a successful /work-items response, [work_items] holds the
    shaped forms of the fetched items the loop keeps, in order. With a
    non-empty iteration parameter an item is kept only when its
    [System.IterationPath] contains the parameter, as a substring when
    the path is a string, and is skipped only when it does not; with an
    empty parameter no fetched item is skipped. *)
Theorem iteration_filter_applied (World : Type)
    (send : request -> World -> reply * World) d str_of exn_str (w w' : World)
    a it o p u auth resp :
  run send (get_work_items d str_of exn_str a it o p u auth) w = (Returned resp, w') ->
  let fetched :=
    fetched_items (exchanges send (get_work_items d str_of exn_str a it o p u auth) w) in
  exists kept kvs,
    resp = JObj kvs
    /\ lookup (py "work_items") kvs = Some (JArr (somes kept))
    /\ Forall2 (fun item k => simplified_item it item = Ret k) fetched kept
    /\ (it <> [] ->
        Forall2 (fun item k =>
          exists fields path,
            getitem item (py "fields") = Ret fields
            /\ get fields (py "System.IterationPath") (JStr []) = Ret path
            /\ match k with
               | Some entry =>
                 py_in it path = Ret true
                 /\ forall s, path = JStr s -> contains s it = true
               | None =>
                 py_in it path = Ret false
                 /\ forall s, path = JStr s -> contains s it = false
               end) fetched kept)
    /\ (it = [] ->
        Forall (fun k => k <> None) kept
        /\ List.length (somes kept) = List.length fetched).
Proof.
  intros Hrun fetched.
  pose proof (ensures_returned World send _ _ _ w resp w'
                (get_work_items_filtered d str_of exn_str a it o p u auth) Hrun) as H.
  cbn beta in H. rewrite rev_involutive in H. fold fetched in H.
  destruct H as (kept & kvs & Hk & -> & Hl).
  exists kept, kvs. split; [reflexivity|]. split; [exact Hl|].
  pose proof (for_each_ret _ _ _ Hk) as HF. split; [exact HF|]. split.
  - intros Hit. clear -HF Hit.
    induction HF as [|item k fetched kept Hs _ IH]; constructor; [|exact IH].
    destruct k as [entry|].
    + destruct (simplified_item_kept _ _ _ Hs) as (fields & path & kvs & Hf & Hp & _ & _ & Hin).
      exists fields, path. repeat split; auto.
      intros s ->. specialize (Hin Hit). cbn in Hin. congruence.
    + destruct (simplified_item_skipped _ _ Hs) as (_ & fields & path & Hf & Hp & Hin).
      exists fields, path. repeat split; auto.
      intros s ->. cbn in Hin. congruence.
  - intros ->. clear -HF.
    induction HF as [|item k fetched kept Hs _ [IH1 IH2]]; [split; [constructor|reflexivity]|].
    destruct k as [entry|].
    + split; [constructor; [discriminate|exact IH1]|].
      change (somes (Some entry :: kept)) with (entry :: somes kept).
      cbn [List.length]. now rewrite IH2.
    + destruct (simplified_item_skipped _ _ Hs) as (Hne & _). now contradiction Hne.
Qed.

Example sprint_1_only :
  run scripted
    (get_work_items builtin_defaults decimal class_name (py "me") (py "Sprint 1")
       None None None None) sprint_script
  = (Returned (JObj [
       (py "work_items", JArr [sprint_entry 1 "Proj\Sprint 1"]);
       (py "count", JInt 1);
       (py "filters", JObj [(py "assigned_to", JStr (py "me"));
                            (py "iteration", JStr (py "Sprint 1"))])]), []).
Proof. vm_compute. reflexivity. Qed.

Example no_iteration_keeps_all :
  run scripted
    (get_work_items builtin_defaults decimal class_name (py "me") []
       None None None None) sprint_script
  = (Returned (JObj [
       (py "work_items", JArr [sprint_entry 1 "Proj\Sprint 1"; sprint_entry 2 "Proj\Sprint 2"]);
       (py "count", JInt 2);
       (py "filters", JObj [(py "assigned_to", JStr (py "me"));
                            (py "iteration", JStr [])])]), []).
Proof. vm_compute. reflexivity. Qed.

Lemma iteration_filter_applied_witness :
  exists kept kvs,
    JObj [(py "work_items", JArr [sprint_entry 1 "Proj\Sprint 1"]);
          (py "count", JInt 1);
          (py "filters", JObj [(py "assigned_to", JStr (py "me"));
                               (py "iteration", JStr (py "Sprint 1"))])] = JObj kvs
    /\ lookup (py "work_items") kvs = Some (JArr (somes kept))
    /\ Forall2 (fun item k => simplified_item (py "Sprint 1") item = Ret k)
         [sprint_item 1 "Proj\Sprint 1"; sprint_item 2 "Proj\Sprint 2"] kept.
Proof.
  destruct (iteration_filter_applied (list reply) scripted builtin_defaults decimal
              class_name sprint_script [] (py "me") (py "Sprint 1") None None None None
              _ sprint_1_only)
    as (kept & kvs & H1 & H2 & H3 & _).
  exists kept, kvs. split; [exact H1|]. split; [exact H2|exact H3].
Defined.

(** ** Children *)

Lemma startswith_app s p : startswith s p = true -> s = p ++ skipn (List.length p) s.
Proof.
  revert s. induction p as [|c p IH]; intros s H; [reflexivity|].
  destruct s as [|e s]; [discriminate|]. cbn [startswith] in H.
  apply andb_prop in H as [Hc Hs]. apply Z.eqb_eq in Hc. subst e.
  cbn [List.length skipn app]. f_equal. now apply IH.
Qed.

Lemma skipn_pred_tail (n : nat) c (s : str) :
  n <> 0%nat -> skipn (Nat.pred n) s = skipn n (c :: s).
Proof. destruct n; [congruence|reflexivity]. Qed.

Lemma last_cons_not_nil {A} (x : A) l dflt : l <> [] -> last (x :: l) dflt = last l dflt.
Proof. destruct l; [congruence|reflexivity]. Qed.

(** The last piece of a split follows an occurrence of the separator
    and holds no further occurrence of it. *)
Lemma last_piece_split_from sep n :
  sep <> [] ->
  forall s cur, (List.length s <= n)%nat ->
    let piece := last (split_from sep s 0 cur) [] in
    (contains s sep = false -> piece = rev cur ++ s)
    /\ (contains s sep = true ->
        exists before, s = before ++ sep ++ piece /\ contains piece sep = false).
Proof.
  intros Hsep. induction n as [|n IH]; intros s cur Hlen piece.
  - destruct s; [|cbn in Hlen; lia]. split.
    + intros _. cbn. now rewrite app_nil_r.
    + destruct sep; [contradiction|discriminate].
  - destruct s as [|c s].
    + split.
      * intros _. cbn. now rewrite app_nil_r.
      * destruct sep; [contradiction|discriminate].
    + cbn [List.length] in Hlen. unfold piece. cbn [split_from].
      rewrite contains_cons. destruct (startswith (c :: s) sep) eqn:Hst.
      * cbn [orb]. split; [discriminate|]. intros _.
        rewrite last_cons_not_nil by apply split_from_not_nil.
        rewrite split_from_skip, (skipn_pred_tail _ c) by (destruct sep; [contradiction|discriminate]).
        pose proof (startswith_app _ _ Hst) as Hs.
        set (rest := skipn (List.length sep) (c :: s)) in *.
        assert (Hr : (List.length rest <= n)%nat).
        { apply (f_equal (@List.length Z)) in Hs. rewrite length_app in Hs.
          cbn [List.length] in Hs. destruct sep; [contradiction|]. cbn [List.length] in Hs. lia. }
        destruct (IH rest [] Hr) as [Habs Hpres].
        destruct (contains rest sep) eqn:Hc.
        -- destruct (Hpres eq_refl) as (before & Hb & Hno).
           exists (sep ++ before). split; [|exact Hno].
           rewrite Hs at 1. rewrite Hb at 1. now rewrite <- app_assoc.
        -- rewrite (Habs eq_refl). cbn [rev app]. exists []. split; [exact Hs|exact Hc].
      * cbn [orb].
        assert (Hr : (List.length s <= n)%nat) by lia.
        destruct (IH s (c :: cur) Hr) as [Habs Hpres]. split.
        -- intros Hc. rewrite (Habs Hc). cbn [rev]. now rewrite <- app_assoc.
        -- intros Hc. destruct (Hpres Hc) as (before & Hb & Hno).
           exists (c :: before). split; [|exact Hno]. cbn [app]. now f_equal.
Qed.

Lemma last_piece_split s sep :
  sep <> [] -> contains s sep = true ->
  exists before,
    s = before ++ sep ++ last_piece (split s sep)
    /\ contains (last_piece (split s sep)) sep = false.
Proof.
  intros Hsep Hc.
  exact (proj2 (last_piece_split_from sep (List.length s) Hsep s [] (le_n _)) Hc).
Qed.

Lemma child_id_of_some relation child_id :
  child_id_of relation = Ret (Some child_id) ->
  exists rel u,
    get relation (py "rel") JNull = Ret rel
    /\ eq_str rel forward_link = true
    /\ get relation (py "url") (JStr []) = Ret (JStr u)
    /\ contains u (py "/workItems/") = true
    /\ child_id = last_piece (split u (py "/workItems/")).
Proof.
  unfold child_id_of. intros H.
  destruct (get relation (py "rel") JNull) as [rel| |] eqn:Er; cbn [bind] in H; try discriminate.
  exists rel. fold forward_link in H. destruct (eq_str rel forward_link); [|discriminate].
  destruct (get relation (py "url") (JStr [])) as [child_url| |] eqn:Eu;
    cbn [bind] in H; try discriminate.
  destruct (py_in (py "/workItems/") child_url) as [found| |] eqn:Ei;
    cbn [bind] in H; try discriminate.
  destruct found; [|discriminate].
  destruct child_url as [| | | |u| |]; cbn [str_method bind] in H; try discriminate.
  exists u. cbn [py_in] in Ei. repeat split; try congruence.
Qed.

Lemma child_id_of_other relation rel :
  get relation (py "rel") JNull = Ret rel ->
  eq_str rel forward_link = false ->
  child_id_of relation = Ret None.
Proof.
  intros Hr He. unfold child_id_of. rewrite Hr. cbn [bind].
  fold forward_link. now rewrite He.
Qed.

Lemma ensures_bind_assoc {A B C} (p : prog A) (f : A -> prog B) (g : B -> prog C) Q E h :
  ensures h (bind p (fun a => bind (f a) g)) Q E -> ensures h (bind (bind p f) g) Q E.
Proof.
  revert h. induction p as [a|e|rq k IH]; cbn; auto.
Qed.

Ltac proceed :=
  match goal with
  | |- ensures _ (bind (bind _ _) _) _ _ => apply ensures_bind_assoc
  | |- ensures _ (Call _ _) _ _ =>
    cbn [ensures]; intros [?rsp|?m]; cbn [bind ensures]; [|exact I]
  | |- ensures _ (bind (client_get _ _) _) _ _ =>
    unfold client_get, await; cbn [bind ensures];
    intros [?rsp|?m]; cbn [bind ensures]; [|exact I]
  | |- ensures _ (bind _ _) _ _ =>
    apply ensures_bind_pure; [ solve [purity] | intros ? ? | intros ? ?; exact I ]
  end.

Lemma nonempty_false {A} (l : list A) : nonempty l = false -> l = [].
Proof. destruct l; [reflexivity|discriminate]. Qed.

Lemma nonempty_true {A} (l : list A) : nonempty l = true -> l <> [].
Proof. destruct l; [discriminate|discriminate]. Qed.

Lemma Ret_inj {A} (a b : A) : Ret a = Ret b -> a = b.
Proof. congruence. Qed.

Lemma work_item_detail_children d cfg single_id :
  ensures [] (work_item_detail d cfg single_id)
    (fun h record => children_origin cfg (rev h) record) (fun _ _ => True).
Proof.
  unfold work_item_detail. cbv zeta.
  repeat proceed.
  match goal with |- context [fetch_children ?d ?c ?ids] =>
    unfold fetch_children; destruct (nonempty ids) eqn:Hids end.
  - cbv zeta. repeat proceed. cbn [ensures rev app]. unfold children_origin.
    do 6 eexists. split; [reflexivity|].
    match goal with
    | Hb : response_json rsp = Ret ?work_item,
      Hr : get ?work_item (py "relations") (JArr []) = Ret ?relations,
      Hi : iter ?relations = Ret ?items,
      He : for_each child_id_of ?items = Ret ?extracted |- _ =>
      split;
      [ unfold listed_relations; cbn [snd];
        rewrite (response_json_body _ _ Hb), Hr, Hi; exact He |]
    end.
    split; [reflexivity|]. split; [reflexivity|].
    split; [now apply nonempty_true|]. split; [reflexivity|].
    match goal with
    | Hc : (if status_code rsp1 =? 200 then _ else _) = Ret _ |- _ =>
      destruct (status_code rsp1 =? 200);
      [ unfold listed_children;
        destruct (response_json rsp1) as [children_data| |] eqn:Ej;
          cbn [bind] in Hc; try discriminate Hc;
        rewrite (response_json_body _ _ Ej);
        destruct (get children_data (py "value") (JArr [])) as [children| |];
          cbn [bind] in Hc; try discriminate Hc;
        destruct (iter children) as [items| |]; cbn [bind] in Hc; try discriminate Hc;
        exact Hc
      | now apply Ret_inj in Hc ]
    end.
  - repeat proceed. cbn [ensures rev app]. unfold children_origin.
    do 6 eexists. split; [reflexivity|].
    match goal with
    | Hb : response_json rsp = Ret ?work_item,
      Hr : get ?work_item (py "relations") (JArr []) = Ret ?relations,
      Hi : iter ?relations = Ret ?items,
      He : for_each child_id_of ?items = Ret ?extracted |- _ =>
      split;
      [ unfold listed_relations; cbn [snd];
        rewrite (response_json_body _ _ Hb), Hr, Hi; exact He |]
    end.
    split; [reflexivity|]. split; [reflexivity|].
    split; [now apply nonempty_false|].
    match goal with Hc : Ret [] = Ret _ |- _ => now apply Ret_inj in Hc end.
Qed.

Lemma str_eqb_eq a b : str_eqb a b = true <-> a = b.
Proof.
  revert b. induction a as [|x a IH]; intros [|y b]; cbn; split; try congruence.
  - intros H. apply andb_prop in H as [Hx Ha]. apply Z.eqb_eq in Hx. apply IH in Ha. congruence.
  - intros [= -> ->]. rewrite Z.eqb_refl. now apply IH.
Qed.

Lemma eq_str_true v s : eq_str v s = true <-> v = JStr s.
Proof.
  destruct v; cbn; split; try congruence.
  - intros H. apply str_eqb_eq in H. congruence.
  - intros [= ->]. now apply str_eqb_eq.
Qed.

(** ** The split and the last occurrence *)

Lemma segment_none sep s :
  sep <> [] -> (segment_after_last_occurrence sep s = None <-> contains s sep = false).
Proof.
  intros Hsep. induction s as [|c s IH].
  - cbn. destruct sep; [contradiction|]. split; reflexivity.
  - cbn [segment_after_last_occurrence]. rewrite contains_cons.
    destruct (segment_after_last_occurrence sep s) as [t|].
    + split; [discriminate|]. intros H. apply orb_false_elim in H as [_ H].
      apply IH in H. discriminate.
    + destruct (startswith (c :: s) sep); cbn [orb]; split; try discriminate.
      * intros _. now apply IH.
      * reflexivity.
Qed.

Lemma skipn_app_length {A} (p s : list A) : skipn (List.length p) (p ++ s) = s.
Proof. induction p; [reflexivity|assumption]. Qed.

Lemma startswith_self_app p s : startswith (p ++ s) p = true.
Proof. induction p as [|c p IH]; [reflexivity|]. cbn. now rewrite Z.eqb_refl. Qed.

Lemma segment_after_split sep before t :
  sep <> [] ->
  contains (tl (sep ++ t)) sep = false ->
  segment_after_last_occurrence sep (before ++ sep ++ t) = Some t.
Proof.
  intros Hsep Hno. induction before as [|b before IH].
  - cbn [app]. destruct sep as [|c sep]; [contradiction|].
    cbn [app tl] in *. cbn [segment_after_last_occurrence].
    apply (segment_none (c :: sep)) in Hno; [|discriminate]. rewrite Hno.
    change (c :: sep ++ t) with ((c :: sep) ++ t).
    now rewrite startswith_self_app, skipn_app_length.
  - cbn [app segment_after_last_occurrence]. now rewrite IH.
Qed.

Lemma contains_unfold s p :
  contains s p = startswith s p || match s with [] => false | _ :: s' => contains s' p end.
Proof. destruct s; reflexivity. Qed.

Lemma contains_middle before p rest : contains (before ++ p ++ rest) p = true.
Proof.
  induction before as [|b before IH].
  - cbn [app]. now rewrite contains_unfold, startswith_self_app.
  - cbn [app]. rewrite contains_cons, IH. apply orb_true_r.
Qed.

(** Without two overlapping occurrences of "/workItems/" in the URL,
    the last piece of the split is the segment after the last
    occurrence. *)
Lemma last_piece_is_last_segment u :
  contains u (py "/workItems/") = true ->
  contains u (py "/workItems/workItems/") = false ->
  segment_after_last_occurrence (py "/workItems/") u
  = Some (last_piece (split u (py "/workItems/"))).
Proof.
  intros Hc Hno.
  destruct (last_piece_split u (py "/workItems/")) as (before & Hb & Hn);
    [discriminate|exact Hc|].
  set (piece := last_piece (split u (py "/workItems/"))) in *.
  rewrite Hb at 1. apply segment_after_split; [discriminate|].
  change (tl (py "/workItems/" ++ piece)) with (py "workItems/" ++ piece).
  destruct (startswith piece (py "workItems/")) eqn:Hs.
  - exfalso. apply startswith_app in Hs.
    rewrite Hb, Hs in Hno.
    change (py "/workItems/" ++ py "workItems/" ++ skipn (List.length (py "workItems/")) piece)
      with (py "/workItems/workItems/" ++ skipn (List.length (py "workItems/")) piece) in Hno.
    rewrite contains_middle in Hno. discriminate.
  - change (py "workItems/" ++ piece)
      with (119 :: 111 :: 114 :: 107 :: 73 :: 116 :: 101 :: 109 :: 115 :: 47 :: piece).
    change (py "/workItems/") with (47 :: py "workItems/") in *.
    repeat (rewrite contains_cons; cbn [startswith Z.eqb Pos.eqb andb orb]).
    now rewrite Hs, Hn.
Qed.

(** C8, amended. A relation contributes a child ID only when its [rel]
    is the forward-hierarchy link type, and a relation with any other
    [rel] contributes none. The child ID is the last piece of the
    relation's URL split on "/workItems/": it follows an occurrence of
    "/workItems/" in the URL and holds no further occurrence, and it
    is the segment after the last occurrence whenever the URL does not
    contain "/workItems/workItems/". The entries of [child_work_items]
    are shaped from the reply to the one request for exactly these IDs,
    and there is none without such an ID. *)
Theorem children_from_forward_relations (World : Type)
    (send : request -> World -> reply * World) d cfg single_id (w w' : World) record :
  (forall relation child_id,
     child_id_of relation = Ret (Some child_id) ->
     exists u before,
       get relation (py "rel") JNull = Ret (JStr forward_link)
       /\ get relation (py "url") (JStr []) = Ret (JStr u)
       /\ child_id = last_piece (split u (py "/workItems/"))
       /\ u = before ++ py "/workItems/" ++ child_id
       /\ contains child_id (py "/workItems/") = false)
  /\ (forall relation child_id u,
     child_id_of relation = Ret (Some child_id) ->
     get relation (py "url") (JStr []) = Ret (JStr u) ->
     contains u (py "/workItems/workItems/") = false ->
     segment_after_last_occurrence (py "/workItems/") u = Some child_id)
  /\ (forall relation rel,
     get relation (py "rel") JNull = Ret rel -> rel <> JStr forward_link ->
     child_id_of relation = Ret None)
  /\ (run send (work_item_detail d cfg single_id) w = (Returned record, w') ->
      children_origin cfg (exchanges send (work_item_detail d cfg single_id) w) record).
Proof.
  split; [|split; [|split]].
  - intros relation child_id H.
    destruct (child_id_of_some _ _ H) as (rel & u & Hr & He & Hu & Hc & Hid).
    apply eq_str_true in He. subst rel.
    destruct (last_piece_split u (py "/workItems/")) as (before & Hb & Hn);
      [discriminate|exact Hc|].
    exists u, before. rewrite <- Hid in Hb, Hn. repeat split; assumption.
  - intros relation child_id u H Hu Hno.
    destruct (child_id_of_some _ _ H) as (rel & u' & _ & _ & Hu' & Hc & ->).
    rewrite Hu in Hu'. apply Ret_inj in Hu'. injection Hu' as <-.
    now apply last_piece_is_last_segment.
  - intros relation rel Hr Hne. apply (child_id_of_other _ _ Hr).
    destruct (eq_str rel forward_link) eqn:E; [|reflexivity].
    apply eq_str_true in E. contradiction.
  - intros Hrun.
    pose proof (ensures_returned World send _ _ _ w record w'
                  (work_item_detail_children d cfg single_id) Hrun) as H.
    cbn beta in H. now rewrite rev_involutive in H.
Qed.

(** C8 as stated fails when two occurrences of "/workItems/" overlap:
    the split takes the first of them and the child ID keeps the text
    of the second. *)
Lemma overlapping_separator_child_id :
  ~ (forall relation child_id u,
       child_id_of relation = Ret (Some child_id) ->
       get relation (py "url") (JStr []) = Ret (JStr u) ->
       segment_after_last_occurrence (py "/workItems/") u = Some child_id).
Proof.
  intros H.
  specialize (H (JObj [(py "rel", JStr forward_link);
                       (py "url", JStr (py "http://h/workItems/workItems/7"))])
                (py "workItems/7") (py "http://h/workItems/workItems/7") eq_refl eq_refl).
  vm_compute in H. discriminate.
Qed.

Example plain_url_child_id :
  child_id_of (JObj [(py "rel", JStr forward_link);
                     (py "url", JStr (py "https://h/p/_apis/wit/workItems/123456"))])
  = Ret (Some (py "123456"))
  /\ segment_after_last_occurrence (py "/workItems/")
       (py "https://h/p/_apis/wit/workItems/123456") = Some (py "123456").
Proof. split; vm_compute; reflexivity. Qed.

(** ** HTML cleanup *)

Lemma cleaned_text s :
  s <> [] -> cleaned (JStr s) = Ret (JStr (clean_html s)).
Proof. destruct s; [congruence|reflexivity]. Qed.

Lemma cleaned_falsy v : truthy v = false -> cleaned v = Ret v.
Proof. intros H. unfold cleaned. now rewrite H. Qed.

Lemma work_item_detail_cleaned d cfg single_id :
  ensures [] (work_item_detail d cfg single_id)
    (fun h record =>
       exists x rest rsp work_item fields raw_description description
              raw_acceptance acceptance kvs,
         rev h = x :: rest
         /\ snd x = Response rsp /\ body rsp = Some work_item
         /\ getitem work_item (py "fields") = Ret fields
         /\ get fields (py "System.Description") (JStr []) = Ret raw_description
         /\ cleaned raw_description = Ret description
         /\ get fields (py "Microsoft.VSTS.Common.AcceptanceCriteria") (JStr [])
            = Ret raw_acceptance
         /\ cleaned raw_acceptance = Ret acceptance
         /\ record = JObj kvs
         /\ lookup (py "description") kvs = Some description
         /\ lookup (py "acceptance_criteria") kvs = Some acceptance)
    (fun _ _ => True).
Proof.
  unfold work_item_detail. cbv zeta.
  repeat proceed.
  match goal with |- context [fetch_children ?d ?c ?ids] =>
    unfold fetch_children; destruct (nonempty ids) eqn:Hids end.
  all: cbv zeta; repeat proceed; cbn [ensures rev app].
  all: match goal with
       | Hb : response_json ?r = Ret ?work_item,
         Hf : getitem ?work_item (py "fields") = Ret ?fields,
         Hd : get ?fields (py "System.Description") (JStr []) = Ret ?rd,
         Hcd : cleaned ?rd = Ret ?cd,
         Ha : get ?fields (py "Microsoft.VSTS.Common.AcceptanceCriteria") (JStr []) = Ret ?ra,
         Hca : cleaned ?ra = Ret ?ca |- _ =>
         eexists; eexists; exists r, work_item, fields, rd, cd, ra, ca; eexists;
         split; [reflexivity|]; split; [reflexivity|];
         split; [exact (response_json_body _ _ Hb)|];
         repeat (split; [eassumption || reflexivity|]); reflexivity
       end.
Qed.

(** The text fields of a detail record are the cleaned values of the
    two fields of the work item the upstream returned: a non-empty text
    has the four substitutions applied, in order. *)
Lemma detail_text_fields_cleaned (World : Type)
    (send : request -> World -> reply * World) d cfg single_id (w w' : World) record :
  run send (work_item_detail d cfg single_id) w = (Returned record, w') ->
  exists x rest rsp work_item fields raw_description description
         raw_acceptance acceptance kvs,
    exchanges send (work_item_detail d cfg single_id) w = x :: rest
    /\ snd x = Response rsp /\ body rsp = Some work_item
    /\ getitem work_item (py "fields") = Ret fields
    /\ get fields (py "System.Description") (JStr []) = Ret raw_description
    /\ cleaned raw_description = Ret description
    /\ get fields (py "Microsoft.VSTS.Common.AcceptanceCriteria") (JStr [])
       = Ret raw_acceptance
    /\ cleaned raw_acceptance = Ret acceptance
    /\ record = JObj kvs
    /\ lookup (py "description") kvs = Some description
    /\ lookup (py "acceptance_criteria") kvs = Some acceptance.
Proof.
  intros Hrun.
  pose proof (ensures_returned World send _ _ _ w record w'
                (work_item_detail_cleaned d cfg single_id) Hrun) as H.
  cbn beta in H. now rewrite rev_involutive in H.
Qed.

(** The description of a child entry has three substitutions applied. *)
Lemma shaped_child_description child entry :
  shaped_child child = Ret entry ->
  exists child_fields present kvs,
    getitem child (py "fields") = Ret child_fields
    /\ get child_fields (py "System.Description") JNull = Ret present
    /\ entry = JObj kvs
    /\ (truthy present = false -> lookup (py "description") kvs = Some JNull)
    /\ (forall s, present = JStr s -> s <> [] ->
        lookup (py "description") kvs = Some (JStr (clean_child_html s))).
Proof.
  unfold shaped_child. intros H.
  destruct (getitem child (py "fields")) as [child_fields| |] eqn:Ef;
    cbn [bind] in H; try discriminate.
  do 6 (match type of H with context [bind ?p _] =>
          destruct p eqn:?; cbn [bind] in H; try discriminate H end).
  destruct (get child_fields (py "System.Description") JNull) as [present| |] eqn:Ep;
    cbn [bind] in H; try discriminate.
  exists child_fields, present.
  destruct (truthy present) eqn:Et.
  - destruct child_fields as [| | | | | |fkvs]; try discriminate Ep.
    cbn [get] in Ep, H. destruct (lookup (py "System.Description") fkvs) as [v|] eqn:El.
    + apply Ret_inj in Ep. subst v. cbn [bind] in H.
      destruct present as [| | | |s| |]; cbn [str_method bind] in H; try discriminate H.
      apply Ret_inj in H. subst entry. eexists. repeat split; try discriminate.
      * cbn [get]. now rewrite El.
      * intros s' [= <-] _. reflexivity.
    + apply Ret_inj in Ep. subst present. discriminate.
  - cbn [bind] in H. apply Ret_inj in H. subst entry. eexists. repeat split.
    + exact Ep.
    + intros s -> Hs. destruct s; [congruence|discriminate].
Qed.

(** C2. The description of a child entry keeps [&nbsp;]: line 296
    applies three of the four substitutions that lines 302 and 306
    apply to the description and the acceptance criteria of the work
    item itself. *)
Theorem child_description_keeps_nbsp :
  exists kvs child_kvs,
    fst (run scripted
           (get_work_item_details builtin_defaults class_name (py "1")
              None None None None) nbsp_script)
    = Returned (JObj kvs)
    /\ lookup (py "description") kvs = Some (JStr (clean_html (py "<div>a&nbsp;b</div>")))
    /\ clean_html (py "<div>a&nbsp;b</div>") = py "a b"
    /\ lookup (py "child_work_items") kvs = Some (JArr [JObj child_kvs])
    /\ lookup (py "description") child_kvs = Some (JStr (py "a&nbsp;b"))
    /\ py "a&nbsp;b" <> clean_html (py "<div>a&nbsp;b</div>").
Proof.
  do 2 eexists. split; [vm_compute; reflexivity|].
  repeat split; try (vm_compute; reflexivity). vm_compute. discriminate.
Qed.

(** ** The entries of a details response *)

Lemma getitem_reported rsp work_item v :
  response_json rsp = Ret work_item -> getitem work_item (py "id") = Ret v ->
  reported_id (Response rsp) = Some v.
Proof.
  intros Hb Hv. unfold reported_id. rewrite (response_json_body _ _ Hb).
  destruct work_item; try discriminate Hv.
  cbn [getitem] in Hv. destruct (lookup (py "id") kvs); congruence.
Qed.

Lemma work_item_detail_record d cfg single_id :
  ensures [] (work_item_detail d cfg single_id)
    (fun h record => detail_record (rev h) record) (fun _ _ => True).
Proof.
  unfold work_item_detail. cbv zeta.
  repeat proceed.
  match goal with |- context [fetch_children ?d ?c ?ids] =>
    unfold fetch_children; destruct (nonempty ids) eqn:Hids end.
  - cbv zeta. repeat proceed. cbn [ensures rev app]. unfold detail_record.
    do 4 eexists. split; [reflexivity|]. cbn [snd].
    split; [eapply getitem_reported; eassumption|].
    split; [reflexivity|]. split; reflexivity.
  - repeat proceed. cbn [ensures rev app]. unfold detail_record.
    do 4 eexists. split; [reflexivity|]. cbn [snd].
    split; [eapply getitem_reported; eassumption|].
    split; [reflexivity|]. split; reflexivity.
Qed.

Section Refusals.
Variable World : Type.
Variable send : request -> World -> reply * World.
Variable d : defaults.
Variable exn_str : exn -> str.

Lemma work_item_detail_refused cfg single_id hdrs r (w w1 : World) :
  get_auth_header d (access_token cfg) = Ret hdrs ->
  send (detail_request cfg hdrs single_id) w = (Response r, w1) ->
  ~ (200 <= status_code r <= 299) ->
  run send (work_item_detail d cfg single_id) w = (Raised (HTTPStatusError r), w1).
Proof.
  intros Hh Hs Hr. unfold work_item_detail. cbv zeta. rewrite Hh. cbn [bind].
  unfold client_get at 1. unfold await. cbn [bind run].
  fold (detail_request cfg hdrs single_id). rewrite Hs. cbn [bind].
  unfold raise_for_status.
  replace ((200 <=? status_code r) && (status_code r <=? 299)) with false
    by (symmetry; apply andb_false_iff;
        destruct (Z.leb_spec 200 (status_code r)); [right; apply Z.leb_gt; lia|now left]).
  reflexivity.
Qed.


Lemma isolated_entry_answer cfg single_id (w : World) :
  answer_for exn_str single_id (fst (isolated_entry send d exn_str cfg single_id w)).
Proof.
  unfold isolated_entry.
  pose proof (ensures_run World send _ _ _ [] w (work_item_detail_record d cfg single_id)) as H.
  destruct (run send (work_item_detail d cfg single_id) w) as [[record|e] w1]; cbn [fst] in *.
  - left. destruct H as (x1 & rest & kvs & v & _ & _ & -> & Hk & Hv). now exists kvs, v.
  - right. now exists e.
Qed.

Lemma isolated_entries_answers cfg ids (w : World) :
  Forall2 (answer_for exn_str) ids (fst (isolated_entries send d exn_str cfg ids w)).
Proof.
  revert w. induction ids as [|single_id ids IH]; intros w; cbn [isolated_entries].
  - constructor.
  - pose proof (isolated_entry_answer cfg single_id w) as Ha.
    destruct (isolated_entry send d exn_str cfg single_id w) as [entry w1].
    specialize (IH w1).
    destruct (isolated_entries send d exn_str cfg ids w1) as [entries w2].
    cbn [fst] in *. now constructor.
Qed.
End Refusals.



(** C5. /work-item-details with a comma-free [work_item_id] returns a
    bare object: the detail record of that ID, with the keys of a
    detail record and the [id] the upstream reports, when the fetch
    succeeds, and the record [{id, error}] with the requested ID when
    the fetch fails, as it does on a status outside 2xx. With a comma
    in [work_item_id] it returns [{work_items, count}] for two or more
    requested IDs, with one entry per requested ID, in order, each a
    detail record or the [{id, error}] record of its ID. *)
Theorem bare_or_wrapped (World : Type) (send : request -> World -> reply * World)
    d exn_str (w : World) wid o p u auth :
  let cfg := get_azure_config_from_headers d o p u auth in
  let ids := map strip (split wid (py ",")) in
  let batch := isolated_entries send d exn_str cfg ids w in
  (contains wid (py ",") = false ->
     let fetch := work_item_detail d cfg (strip wid) in
     match run send fetch w with
     | (Returned record, w1) =>
       run send (get_work_item_details d exn_str wid o p u auth) w = (Returned record, w1)
       /\ detail_record (exchanges send fetch w) record
     | (Raised e, w1) =>
       run send (get_work_item_details d exn_str wid o p u auth) w
       = (Returned (JObj [(py "id", JStr (strip wid));
                          (py "error", JStr (py "Failed to fetch details: " ++ exn_str e))]),
          w1)
     end)
  /\ (contains wid (py ",") = false ->
      forall hdrs r (w1 : World),
        get_auth_header d (access_token cfg) = Ret hdrs ->
        send (detail_request cfg hdrs (strip wid)) w = (Response r, w1) ->
        ~ (200 <= status_code r <= 299) ->
        run send (get_work_item_details d exn_str wid o p u auth) w
        = (Returned (JObj [(py "id", JStr (strip wid));
                           (py "error", JStr (py "Failed to fetch details: "
                                              ++ exn_str (HTTPStatusError r)))]),
           w1))
  /\ (contains wid (py ",") = true ->
     run send (get_work_item_details d exn_str wid o p u auth) w
     = (Returned (JObj [(py "work_items", JArr (fst batch));
                        (py "count", JInt (Z.of_nat (List.length ids)))]),
        snd batch)
     /\ (2 <= List.length ids)%nat
     /\ List.length (fst batch) = List.length ids
     /\ Forall2 (answer_for exn_str) ids (fst batch)).
Proof.
  intros cfg ids batch.
  assert (Hone : contains wid (py ",") = false ->
                 run send (get_work_item_details d exn_str wid o p u auth) w
                 = (Returned (fst (isolated_entry send d exn_str cfg (strip wid) w)),
                    snd (isolated_entry send d exn_str cfg (strip wid) w))).
  { intros Hc. rewrite run_get_work_item_details. fold cfg.
    rewrite (split_absent _ _ Hc). cbn [map List.length Nat.eqb isolated_entries].
    destruct (isolated_entry send d exn_str cfg (strip wid) w) as [entry w1]. reflexivity. }
  split; [|split]; intros Hc.
  - intros fetch. rewrite (Hone Hc). unfold isolated_entry. fold fetch.
    pose proof (ensures_run World send fetch _ _ [] w
                  (work_item_detail_record d cfg (strip wid))) as H.
    rewrite app_nil_r, rev_involutive in H.
    destruct (run send fetch w) as [[record|e] w1]; cbn [fst snd] in *.
    + split; [reflexivity|exact H].
    + reflexivity.
  - intros hdrs r w1 Hh Hs Hr. rewrite (Hone Hc). unfold isolated_entry.
    now rewrite (work_item_detail_refused World send d cfg (strip wid) hdrs r w w1 Hh Hs Hr).
  - assert (Hlen : (2 <= List.length ids)%nat).
    { unfold ids. rewrite length_map. apply split_from_present; [discriminate|exact Hc]. }
    split; [now apply failures_isolated_aux|]. split; [exact Hlen|].
    split; [apply isolated_entries_length|apply isolated_entries_answers].
Qed.

Lemma bare_or_wrapped_witness :
  run scripted
    (get_work_item_details builtin_defaults class_name (py "537902") None None None None)
    [status 404 (py "no such item")]
  = (Returned (JObj [(py "id", JStr (py "537902"));
                     (py "error", JStr (py "Failed to fetch details: HTTPStatusError"))]),
     []).
Proof.
  destruct (bare_or_wrapped (list reply) scripted builtin_defaults class_name
              [status 404 (py "no such item")] (py "537902") None None None None)
    as (_ & H & _).
  eapply (H eq_refl); [reflexivity|reflexivity|cbn; lia].
Defined.

(** * Further properties *)

(** ** Substitution *)

Lemma contains_nil s : contains s [] = true.
Proof. destruct s; reflexivity. Qed.

Lemma replace_from_absent old new s :
  contains s old = false -> replace_from old new s 0 = s.
Proof.
  induction s as [|c s IH]; intros H; [reflexivity|].
  rewrite contains_cons in H. apply orb_false_elim in H as [H1 H2].
  cbn [replace_from]. now rewrite H1, IH.
Qed.

Lemma replace_absent old new s : contains s old = false -> replace old new s = s.
Proof.
  intros H. destruct old as [|a old].
  - now rewrite contains_nil in H.
  - now apply replace_from_absent.
Qed.

(** A prefix without [c] of a text in which [old] was replaced by [c]
    is a prefix of the text before the replacement. *)
Lemma startswith_replaced old c p :
  differs_from p c = true ->
  forall s, startswith (replace_from old [c] s 0) p = true -> startswith s p = true.
Proof.
  induction p as [|a p IH]; intros Hp s H; [reflexivity|].
  cbn [differs_from forallb] in Hp. apply andb_prop in Hp as [Ha Hp].
  apply negb_true_iff in Ha.
  destruct s as [|x s]; [discriminate H|].
  cbn [replace_from] in H. destruct (startswith (x :: s) old).
  - cbn [app startswith] in H. rewrite Z.eqb_sym, Ha in H. discriminate.
  - cbn [startswith] in *. apply andb_prop in H as [Hx H]. rewrite Hx. cbn [andb].
    now apply IH.
Qed.

(** Replacing by a character that [q] does not hold creates no
    occurrence of [q]. *)
Lemma replace_from_creates_none old c q :
  differs_from q c = true ->
  forall s k, contains (replace_from old [c] s k) q = true -> contains s q = true.
Proof.
  intros Hq. induction s as [|x s IH]; intros k H; [destruct k; exact H|].
  rewrite contains_cons. destruct k as [|k]; cbn [replace_from] in H.
  - destruct (startswith (x :: s) old) eqn:Hm.
    + cbn [app] in H. rewrite contains_cons in H. apply orb_prop in H as [H|H].
      * destruct q as [|a q]; [reflexivity|].
        cbn [differs_from forallb] in Hq. apply andb_prop in Hq as [Ha _].
        apply negb_true_iff in Ha. cbn [startswith] in H. rewrite Z.eqb_sym, Ha in H.
        discriminate.
      * rewrite (IH _ H). apply orb_true_r.
    + rewrite contains_cons in H. apply orb_prop in H as [H|H].
      * assert (H' : startswith (replace_from old [c] (x :: s) 0) q = true)
          by (cbn [replace_from]; now rewrite Hm).
        now rewrite (startswith_replaced old c q Hq _ H').
      * rewrite (IH _ H). apply orb_true_r.
  - rewrite (IH _ H). apply orb_true_r.
Qed.

(** Replacing [old] by a character it does not hold leaves no
    occurrence of [old]. *)
Lemma replace_from_leaves_none old c :
  old <> [] -> differs_from old c = true ->
  forall s k, contains (replace_from old [c] s k) old = false.
Proof.
  intros Hne Hc. induction s as [|x s IH]; intros k.
  - destruct k; cbn; destruct old; [contradiction|reflexivity|contradiction|reflexivity].
  - destruct k as [|k]; cbn [replace_from]; [|apply IH].
    destruct (startswith (x :: s) old) eqn:Hm.
    + cbn [app]. rewrite contains_cons, IH, orb_false_r.
      destruct old as [|a old]; [contradiction|].
      cbn [differs_from forallb] in Hc. apply andb_prop in Hc as [Ha _].
      apply negb_true_iff in Ha. cbn [startswith]. now rewrite Z.eqb_sym, Ha.
    + rewrite contains_cons, IH, orb_false_r.
      destruct (startswith (x :: replace_from old [c] s 0) old) eqn:H; [|reflexivity].
      assert (H' : startswith (replace_from old [c] (x :: s) 0) old = true)
        by (cbn [replace_from]; now rewrite Hm).
      apply (startswith_replaced old c old Hc) in H'. congruence.
Qed.

(** X1. The cleanup of lines 302 and 306 leaves neither [<br>] nor
    [&nbsp;] in a text, and the cleanup of line 296 leaves no [<br>]:
    the replacement characters, a line feed and a space, occur in
    neither pattern. *)
Theorem cleanup_leaves_no_break s :
  contains (clean_html s) (py "<br>") = false
  /\ contains (clean_html s) (py "&nbsp;") = false
  /\ contains (clean_child_html s) (py "<br>") = false.
Proof.
  assert (Hbr : forall t, contains (replace (py "<br>") [10] t) (py "<br>") = false).
  { intros t. apply (replace_from_leaves_none (py "<br>") 10); [discriminate|reflexivity]. }
  repeat split.
  - unfold clean_html.
    destruct (contains (replace (py "&nbsp;") (py " ")
                (replace (py "<br>") [10]
                   (replace (py "</div>") [] (replace (py "<div>") [] s)))) (py "<br>")) eqn:E;
      [|reflexivity].
    apply (replace_from_creates_none (py "&nbsp;") 32 (py "<br>") eq_refl) in E.
    now rewrite Hbr in E.
  - unfold clean_html.
    apply (replace_from_leaves_none (py "&nbsp;") 32); [discriminate|reflexivity].
  - apply Hbr.
Qed.

(** X2. A text that holds none of the four patterns is returned as it is,
    so cleaning twice gives what cleaning once gives whenever the first
    pass leaves none of them. *)
Theorem cleanup_fixes_clean_text s :
  contains s (py "<div>") = false -> contains s (py "</div>") = false ->
  contains s (py "<br>") = false -> contains s (py "&nbsp;") = false ->
  clean_html s = s /\ clean_child_html s = s.
Proof.
  intros H1 H2 H3 H4. unfold clean_html, clean_child_html.
  rewrite (replace_absent _ _ _ H1), (replace_absent _ _ _ H2),
          (replace_absent _ _ _ H3), (replace_absent _ _ _ H4).
  split; reflexivity.
Qed.

Lemma cleanup_fixes_clean_text_witness :
  clean_html (clean_html (py "<div>a&nbsp;b<br>c</div>"))
  = clean_html (py "<div>a&nbsp;b<br>c</div>").
Proof.
  apply (cleanup_fixes_clean_text (clean_html (py "<div>a&nbsp;b<br>c</div>")));
    vm_compute; reflexivity.
Defined.

(** ** Splitting and joining *)

Lemma join_cons sep x l : l <> [] -> join sep (x :: l) = x ++ sep ++ join sep l.
Proof. destruct l; [congruence|reflexivity]. Qed.

Lemma join_split_from sep n :
  sep <> [] ->
  forall s cur, (List.length s <= n)%nat ->
    join sep (split_from sep s 0 cur) = rev cur ++ s.
Proof.
  intros Hsep. induction n as [|n IH]; intros s cur Hlen.
  - destruct s; [|cbn in Hlen; lia]. cbn. now rewrite app_nil_r.
  - destruct s as [|c s]; [cbn; now rewrite app_nil_r|].
    cbn [List.length] in Hlen. cbn [split_from].
    destruct (startswith (c :: s) sep) eqn:Hst.
    + rewrite join_cons by apply split_from_not_nil.
      rewrite split_from_skip, (skipn_pred_tail _ c)
        by (destruct sep; [contradiction|discriminate]).
      pose proof (startswith_app _ _ Hst) as Hs.
      set (rest := skipn (List.length sep) (c :: s)) in *.
      assert (Hr : (List.length rest <= n)%nat).
      { apply (f_equal (@List.length Z)) in Hs. rewrite length_app in Hs.
        cbn [List.length] in Hs. destruct sep; [contradiction|].
        cbn [List.length] in Hs. lia. }
      rewrite (IH rest [] Hr). cbn [rev app]. now rewrite <- Hs.
    + rewrite (IH s (c :: cur)) by lia. cbn [rev]. now rewrite <- app_assoc.
Qed.

Lemma startswith_app_l s t p : startswith s p = true -> startswith (s ++ t) p = true.
Proof.
  revert s. induction p as [|c p IH]; intros s H; [reflexivity|].
  destruct s as [|e s]; [discriminate|]. cbn [app startswith] in *.
  apply andb_prop in H as [Hc Hs]. now rewrite Hc, IH.
Qed.

Lemma settled_free sep pre s : sep <> [] -> settled sep pre s -> contains pre sep = false.
Proof.
  intros Hsep. revert s. 
  assert (G : forall b a s, settled sep (a ++ b) s -> contains b sep = false).
  { induction b as [|x b IH]; intros a s H.
    - destruct sep; [contradiction|reflexivity].
    - rewrite contains_cons. apply orb_false_intro.
      + destruct (startswith (x :: b) sep) eqn:E; [|reflexivity].
        apply (startswith_app_l _ s) in E.
        rewrite (H a (x :: b) eq_refl) in E; [discriminate|discriminate].
      + apply (IH (a ++ [x]) s). now rewrite <- app_assoc. }
  intros s H. exact (G pre [] s H).
Qed.

Lemma settled_nil sep s : settled sep [] s.
Proof. intros a b H Hb. destruct a, b; try discriminate. contradiction. Qed.

Lemma settled_snoc sep pre c s :
  settled sep pre (c :: s) -> startswith (c :: s) sep = false ->
  settled sep (pre ++ [c]) s.
Proof.
  intros H Hc a b Hab Hb.
  destruct (exists_last Hb) as (b' & x & ->).
  rewrite app_assoc in Hab. apply app_inj_tail in Hab as [-> ->].
  rewrite <- app_assoc. cbn [app].
  destruct b' as [|y b']; [exact Hc|].
  apply (H a (y :: b') eq_refl). discriminate.
Qed.

Lemma split_from_pieces_free sep n :
  sep <> [] ->
  forall s cur, (List.length s <= n)%nat -> settled sep (rev cur) s ->
    Forall (fun piece => contains piece sep = false) (split_from sep s 0 cur).
Proof.
  intros Hsep. induction n as [|n IH]; intros s cur Hlen Hset.
  - destruct s; [|cbn in Hlen; lia]. cbn. constructor; [|constructor].
    now apply (settled_free sep _ []).
  - destruct s as [|c s].
    + cbn. constructor; [|constructor]. now apply (settled_free sep _ []).
    + cbn [List.length] in Hlen. cbn [split_from].
      destruct (startswith (c :: s) sep) eqn:Hst.
      * constructor; [now apply (settled_free sep _ (c :: s))|].
        rewrite split_from_skip, (skipn_pred_tail _ c)
          by (destruct sep; [contradiction|discriminate]).
        pose proof (startswith_app _ _ Hst) as Hs.
        set (rest := skipn (List.length sep) (c :: s)) in *.
        apply IH; [|apply settled_nil].
        apply (f_equal (@List.length Z)) in Hs. rewrite length_app in Hs.
        cbn [List.length] in Hs. destruct sep; [contradiction|].
        cbn [List.length] in Hs. lia.
      * apply IH; [lia|]. cbn [rev]. now apply settled_snoc.
Qed.

Lemma split_from_char_length c s cur :
  List.length (split_from [c] s 0 cur) = S (count_occ Z.eq_dec s c).
Proof.
  revert cur. induction s as [|x s IH]; intros cur; [reflexivity|].
  cbn [split_from startswith List.length Nat.pred count_occ].
  destruct (Z.eq_dec x c) as [->|Hne].
  - rewrite Z.eqb_refl. cbn [andb List.length]. now rewrite IH.
  - destruct (Z.eqb_spec c x) as [->|_]; [contradiction|]. cbn [andb]. apply IH.
Qed.

Lemma split_pieces_free s sep :
  sep <> [] -> Forall (fun piece => contains piece sep = false) (split s sep).
Proof.
  intros Hsep.
  apply (split_from_pieces_free sep (List.length s) Hsep s [] (le_n _)).
  apply settled_nil.
Qed.

(** X3. Lines 235, 276 and 413. Joining the pieces of a split with the
    separator gives the text back, and no piece holds the separator. *)
Theorem join_split s sep :
  sep <> [] ->
  join sep (split s sep) = s
  /\ Forall (fun piece => contains piece sep = false) (split s sep).
Proof.
  intros Hsep. split.
  - exact (join_split_from sep (List.length s) Hsep s [] (le_n _)).
  - now apply split_pieces_free.
Qed.

Lemma join_split_witness :
  join (py ",") (split (py "537902,,537904") (py ",")) = py "537902,,537904"
  /\ Forall (fun piece => contains piece (py ",") = false)
       (split (py "537902,,537904") (py ",")).
Proof. apply join_split. discriminate. Defined.

(** ** The requested IDs *)

Lemma contains_char s c : contains s [c] = false -> ~ In c s.
Proof.
  induction s as [|x s IH]; intros H; [intros []|].
  rewrite contains_cons in H. apply orb_false_elim in H as [H1 H2].
  cbn [startswith] in H1. rewrite andb_true_r in H1. apply Z.eqb_neq in H1.
  intros [->|Hin]; [congruence|now apply IH].
Qed.

Lemma lstrip_In x s : In x (lstrip s) -> In x s.
Proof.
  induction s as [|c s IH]; [auto|]. cbn [lstrip].
  destruct (is_space c); [right; auto|auto].
Qed.

Lemma strip_In x s : In x (strip s) -> In x s.
Proof.
  unfold strip. intros H. apply in_rev, lstrip_In, in_rev, lstrip_In in H. exact H.
Qed.

Lemma lstrip_head s x t : lstrip s = x :: t -> is_space x = false.
Proof.
  induction s as [|c s IH]; [discriminate|]. cbn [lstrip].
  destruct (is_space c) eqn:E; [exact IH|]. now intros [= <- _].
Qed.

Lemma lstrip_snoc y x : is_space x = false -> lstrip (y ++ [x]) = lstrip y ++ [x].
Proof.
  intros Hx. induction y as [|c y IH]; cbn [app lstrip]; [now rewrite Hx|].
  destruct (is_space c); [exact IH|reflexivity].
Qed.

Lemma strip_ends s x :
  (hd_error (strip s) = Some x -> is_space x = false)
  /\ (hd_error (rev (strip s)) = Some x -> is_space x = false).
Proof.
  unfold strip. split.
  - destruct (lstrip s) as [|y t] eqn:E; [discriminate|].
    pose proof (lstrip_head _ _ _ E) as Hy. cbn [rev].
    rewrite (lstrip_snoc _ _ Hy), rev_app_distr. cbn. now intros [= <-].
  - rewrite rev_involutive.
    destruct (lstrip (rev (lstrip s))) as [|y t] eqn:E; [discriminate|].
    cbn. intros [= <-]. exact (lstrip_head _ _ _ E).
Qed.

(** X4. Line 235. The IDs a /work-item-details request asks for are one
    more than the commas of [work_item_id], empty pieces included; none
    holds a comma, and none starts or ends with white space. *)
Theorem requested_ids_shape work_item_id :
  let work_item_ids := map strip (split work_item_id (py ",")) in
  List.length work_item_ids = S (count_occ Z.eq_dec work_item_id 44)
  /\ Forall (fun single_id =>
       ~ In 44 single_id
       /\ (forall x, hd_error single_id = Some x -> is_space x = false)
       /\ (forall x, hd_error (rev single_id) = Some x -> is_space x = false))
     work_item_ids.
Proof.
  intros work_item_ids. unfold work_item_ids. split.
  - rewrite length_map. apply split_from_char_length.
  - apply Forall_map.
    assert (HF := split_pieces_free work_item_id (py ",")).
    eapply Forall_impl; [|apply HF; discriminate]. intros piece Hp. cbn beta in Hp. repeat split.
    + intros Hin. apply strip_In in Hin. now apply (contains_char _ _ Hp).
    + intros x. apply strip_ends.
    + intros x. apply strip_ends.
Qed.

(** ** Decoding, then encoding *)

Lemma div_mul_add h l : 0 <= l < 64 -> (h * 64 + l) / 64 = h /\ (h * 64 + l) mod 64 = l.
Proof.
  intros Hl. rewrite Z.add_comm, Z.div_add, Z.mod_add, Z.div_small, Z.mod_small by lia.
  split; reflexivity.
Qed.

Lemma utf8_encode_cp_1 b : 0 <= b < 0x80 -> utf8_encode_cp b = Some [b].
Proof. intros H. unfold utf8_encode_cp. zcases. reflexivity. Qed.

Lemma utf8_encode_cp_2 h l :
  2 <= h <= 31 -> 0 <= l < 64 ->
  utf8_encode_cp (h * 64 + l) = Some [0xC0 + h; 0x80 + l].
Proof.
  intros Hh Hl. destruct (div_mul_add h l Hl) as [Hd Hm].
  unfold utf8_encode_cp. rewrite Hd, Hm. zcases. reflexivity.
Qed.

Lemma utf8_encode_cp_3 h m l :
  0 <= h <= 15 -> 0 <= m < 64 -> 0 <= l < 64 ->
  0x800 <= h * 4096 + m * 64 + l ->
  is_surrogate (h * 4096 + m * 64 + l) = false ->
  utf8_encode_cp (h * 4096 + m * 64 + l) = Some [0xE0 + h; 0x80 + m; 0x80 + l].
Proof.
  intros Hh Hm Hl Hc Hs.
  replace (h * 4096 + m * 64 + l) with ((h * 64 + m) * 64 + l) in * by lia.
  destruct (div_mul_add (h * 64 + m) l Hl) as [Hd1 Hm1].
  destruct (div_mul_add h m Hm) as [Hd2 Hm2].
  assert (Hd3 : ((h * 64 + m) * 64 + l) / 4096 = h).
  { replace 4096 with (64 * 64) by reflexivity.
    now rewrite <- Z.div_div, Hd1, Hd2 by lia. }
  unfold utf8_encode_cp. rewrite Hs, Hd3, Hd1, Hm1, Hm2. zcases. reflexivity.
Qed.

Lemma utf8_encode_cp_4 h k m l :
  0 <= h <= 4 -> 0 <= k < 64 -> 0 <= m < 64 -> 0 <= l < 64 ->
  0x10000 <= h * 262144 + k * 4096 + m * 64 + l < 0x110000 ->
  utf8_encode_cp (h * 262144 + k * 4096 + m * 64 + l)
  = Some [0xF0 + h; 0x80 + k; 0x80 + m; 0x80 + l].
Proof.
  intros Hh Hk Hm Hl Hc.
  replace (h * 262144 + k * 4096 + m * 64 + l)
    with (((h * 64 + k) * 64 + m) * 64 + l) in * by lia.
  destruct (div_mul_add ((h * 64 + k) * 64 + m) l Hl) as [Hd1 Hm1].
  destruct (div_mul_add (h * 64 + k) m Hm) as [Hd2 Hm2].
  destruct (div_mul_add h k Hk) as [Hd3 Hm3].
  assert (Hd4 : (((h * 64 + k) * 64 + m) * 64 + l) / 4096 = h * 64 + k).
  { replace 4096 with (64 * 64) by reflexivity.
    now rewrite <- Z.div_div, Hd1, Hd2 by lia. }
  assert (Hd5 : (((h * 64 + k) * 64 + m) * 64 + l) / 262144 = h).
  { replace 262144 with (4096 * 64) by reflexivity.
    now rewrite <- Z.div_div, Hd4, Hd3 by lia. }
  unfold utf8_encode_cp. rewrite Hd5, Hd4, Hd1, Hm1, Hm2, Hm3. zcases. reflexivity.
Qed.

Lemma option_map_cons_inv (c : Z) (o : option str) s :
  option_map (cons c) o = Some s -> exists s', o = Some s' /\ s = c :: s'.
Proof. destruct o as [s'|]; [|discriminate]. intros E. apply Some_inj in E. eauto. Qed.

Lemma is_cont_range b : is_cont b = true -> 0x80 <= b <= 0xBF.
Proof. unfold is_cont. intros H. apply andb_prop in H as [H1 H2]. lia. Qed.

Lemma utf8_encode_cons c s b bs :
  utf8_encode_cp c = Some b -> utf8_encode s = Some bs ->
  utf8_encode (c :: s) = Some (b ++ bs).
Proof. intros Hc Hs. cbn [utf8_encode]. now rewrite Hc, Hs. Qed.

Lemma utf8_encode_decode_upto n :
  forall bs s, (List.length bs <= n)%nat ->
    utf8_decode bs = Some s -> utf8_encode s = Some bs.
Proof.
  induction n as [|n IH]; intros bs s Hlen H.
  { destruct bs; [|cbn in Hlen; lia]. apply Some_inj in H. now subst s. }
  destruct bs as [|b0 r0]; [apply Some_inj in H; now subst s|].
  cbn [List.length] in Hlen. cbn [utf8_decode] in H.
  destruct ((0 <=? b0) && (b0 <? 128)) eqn:E1.
  { apply andb_prop in E1 as [Ha Hb].
    apply option_map_cons_inv in H as (s' & H' & ->).
    apply (utf8_encode_cons b0 s' [b0] r0); [apply utf8_encode_cp_1; lia|].
    apply IH; [lia|exact H']. }
  destruct ((194 <=? b0) && (b0 <=? 223)) eqn:E2.
  { apply andb_prop in E2 as [Ha Hb].
    destruct r0 as [|b1 r1]; [discriminate|].
    destruct (is_cont b1) eqn:C1; [|discriminate].
    apply is_cont_range in C1.
    apply option_map_cons_inv in H as (s' & H' & ->).
    replace ((b0 - 192) * 64 + (b1 - 128)) with ((b0 - 192) * 64 + (b1 - 128)) by reflexivity.
    pose proof (utf8_encode_cp_2 (b0 - 192) (b1 - 128)) as Hc.
    replace (192 + (b0 - 192)) with b0 in Hc by lia.
    replace (128 + (b1 - 128)) with b1 in Hc by lia.
    apply (utf8_encode_cons _ s' [b0; b1] r1); [apply Hc; lia|].
    apply IH; [cbn [List.length] in Hlen; lia|exact H']. }
  destruct ((224 <=? b0) && (b0 <=? 239)) eqn:E3.
  { apply andb_prop in E3 as [Ha Hb].
    destruct r0 as [|b1 [|b2 r2]]; try discriminate.
    cbv zeta in H.
    destruct (is_cont b1) eqn:C1; [|discriminate].
    destruct (is_cont b2) eqn:C2; [|discriminate].
    apply is_cont_range in C1. apply is_cont_range in C2. cbn [andb] in H.
    destruct (2048 <=? (b0 - 224) * 4096 + (b1 - 128) * 64 + (b2 - 128)) eqn:C3;
      [|discriminate].
    destruct (is_surrogate ((b0 - 224) * 4096 + (b1 - 128) * 64 + (b2 - 128))) eqn:C4;
      [discriminate|].
    cbn [andb negb] in H.
    apply option_map_cons_inv in H as (s' & H' & ->).
    pose proof (utf8_encode_cp_3 (b0 - 224) (b1 - 128) (b2 - 128)) as Hc.
    replace (224 + (b0 - 224)) with b0 in Hc by lia.
    replace (128 + (b1 - 128)) with b1 in Hc by lia.
    replace (128 + (b2 - 128)) with b2 in Hc by lia.
    apply (utf8_encode_cons _ s' [b0; b1; b2] r2); [apply Hc; try lia; exact C4|].
    apply IH; [cbn [List.length] in Hlen; lia|exact H']. }
  destruct ((240 <=? b0) && (b0 <=? 244)) eqn:E4; [|discriminate].
  apply andb_prop in E4 as [Ha Hb].
  destruct r0 as [|b1 [|b2 [|b3 r3]]]; try discriminate.
  cbv zeta in H.
  destruct (is_cont b1) eqn:C1; [|discriminate].
  destruct (is_cont b2) eqn:C2; [|discriminate].
  destruct (is_cont b3) eqn:C3; [|discriminate].
  apply is_cont_range in C1. apply is_cont_range in C2. apply is_cont_range in C3.
  cbn [andb] in H.
  destruct (65536 <=? (b0 - 240) * 262144 + (b1 - 128) * 4096 + (b2 - 128) * 64 + (b3 - 128))
    eqn:C4; [|discriminate].
  destruct ((b0 - 240) * 262144 + (b1 - 128) * 4096 + (b2 - 128) * 64 + (b3 - 128) <? 1114112)
    eqn:C5; [|discriminate].
  cbn [andb] in H.
  apply option_map_cons_inv in H as (s' & H' & ->).
  pose proof (utf8_encode_cp_4 (b0 - 240) (b1 - 128) (b2 - 128) (b3 - 128)) as Hc.
  replace (240 + (b0 - 240)) with b0 in Hc by lia.
  replace (128 + (b1 - 128)) with b1 in Hc by lia.
  replace (128 + (b2 - 128)) with b2 in Hc by lia.
  replace (128 + (b3 - 128)) with b3 in Hc by lia.
  apply (utf8_encode_cons _ s' [b0; b1; b2; b3] r3); [apply Hc; lia|].
  apply IH; [cbn [List.length] in Hlen; lia|exact H'].
Qed.

Lemma utf8_encode_decode bs s : utf8_decode bs = Some s -> utf8_encode s = Some bs.
Proof. apply (utf8_encode_decode_upto (List.length bs)). apply le_n. Qed.

(** ** The credentials sent upstream *)

Lemma get_auth_header_ret d token hdrs :
  get_auth_header d token = Ret hdrs ->
  exists raw,
    utf8_encode (58 :: or_default (Some token) (AZURE_ACCESS_TOKEN d)) = Some raw
    /\ hdrs = [(py "Authorization", py "Basic " ++ b64encode raw)].
Proof.
  unfold get_auth_header. cbv zeta.
  change (py ":" ++ or_default (Some token) (AZURE_ACCESS_TOKEN d))
    with (58 :: or_default (Some token) (AZURE_ACCESS_TOKEN d)).
  destruct (utf8_encode _) as [raw|]; [|discriminate].
  intros H. apply Ret_inj in H. subst hdrs. now exists raw.
Qed.

(** X5. Lines 83-117. The header [get_auth_header] builds, sent back as the
    Authorization header of a request, resolves to the token the header
    was built from: the given token, or the static default when the
    given token is empty. *)
Theorem auth_header_resolves_back d o p u token hdrs :
  get_auth_header d token = Ret hdrs ->
  exists value,
    hdrs = [(py "Authorization", value)]
    /\ access_token (get_azure_config_from_headers d o p u (Some value))
       = or_default (Some token) (AZURE_ACCESS_TOKEN d).
Proof.
  intros H. destruct (get_auth_header_ret _ _ _ H) as (raw & Hraw & ->).
  eexists. split; [reflexivity|].
  cbn [get_azure_config_from_headers access_token].
  rewrite (token_of_basic_credentials (or_default (Some token) (AZURE_ACCESS_TOKEN d)))
    by (unfold basic_credentials; now rewrite Hraw).
  destruct token as [|c t]; cbn [or_default]; [|reflexivity].
  destruct (AZURE_ACCESS_TOKEN d); reflexivity.
Qed.

Lemma auth_header_resolves_back_witness :
  exists value,
    [(py "Authorization", py "Basic OnBhdA==")] = [(py "Authorization", value)]
    /\ access_token (get_azure_config_from_headers builtin_defaults None None None (Some value))
       = or_default (Some (py "pat")) (AZURE_ACCESS_TOKEN builtin_defaults).
Proof.
  apply (auth_header_resolves_back builtin_defaults None None None (py "pat")).
  reflexivity.
Defined.

Lemma token_of_authorization_encodable authorization token :
  token_of_authorization authorization = Some token ->
  exists raw, utf8_encode (58 :: token) = Some raw.
Proof.
  unfold token_of_authorization.
  destruct authorization as [[|c a]|]; try discriminate.
  destruct (startswith (c :: a) (py "Basic ")); [|discriminate].
  destruct (b64decode (skipn 6 (c :: a))) as [raw|]; [|discriminate].
  destruct (utf8_decode raw) as [decoded|] eqn:Ed; [|discriminate].
  destruct decoded as [|x decoded]; [discriminate|].
  change (py ":") with [58]. cbn [startswith].
  destruct (Z.eqb_spec 58 x) as [Hx|Hx]; [subst x|discriminate].
  cbn [andb skipn]. intros E. apply Some_inj in E. subst token.
  exists raw. now apply utf8_encode_decode.
Qed.

Lemma get_auth_header_resolved d o p u authorization raw :
  utf8_encode (58 :: AZURE_ACCESS_TOKEN d) = Some raw ->
  exists hdrs,
    get_auth_header d
      (access_token (get_azure_config_from_headers d o p u authorization)) = Ret hdrs.
Proof.
  intros Hd. cbn [get_azure_config_from_headers access_token].
  unfold get_auth_header. cbv zeta.
  set (t := or_default (Some (or_default (token_of_authorization authorization)
                                          (AZURE_ACCESS_TOKEN d)))
                       (AZURE_ACCESS_TOKEN d)).
  change (py ":" ++ t) with (58 :: t).
  assert (Ht : exists raw', utf8_encode (58 :: t) = Some raw').
  { unfold t. destruct (token_of_authorization authorization) as [[|c tok]|] eqn:E;
      cbn [or_default].
    - destruct (AZURE_ACCESS_TOKEN d); eauto.
    - exact (token_of_authorization_encodable _ _ E).
    - destruct (AZURE_ACCESS_TOKEN d); eauto. }
  destruct Ht as (raw' & ->). eauto.
Qed.

(** X6. Lines 83-117. When the static default token can be encoded, so can
    the token of every resolved configuration: building the upstream
    header from a resolved configuration never fails, whatever the
    request headers are. *)
Theorem resolved_token_builds_header d o p u authorization raw :
  utf8_encode (58 :: AZURE_ACCESS_TOKEN d) = Some raw ->
  exists hdrs,
    get_auth_header d
      (access_token (get_azure_config_from_headers d o p u authorization)) = Ret hdrs.
Proof. exact (get_auth_header_resolved d o p u authorization raw). Qed.

Lemma resolved_token_builds_header_witness :
  exists hdrs,
    get_auth_header builtin_defaults
      (access_token (get_azure_config_from_headers builtin_defaults None None None
                       (Some (py "Basic OnBhdA==")))) = Ret hdrs.
Proof.
  apply (resolved_token_builds_header builtin_defaults None None None
           (Some (py "Basic OnBhdA==")) (py ":your-pat-token")).
  reflexivity.
Defined.

(** ** Failures of the upstream *)

Lemma plainly_bind {A B} (p : prog A) (f : A -> prog B) :
  raises_plainly p -> (forall a, raises_plainly (f a)) -> raises_plainly (bind p f).
Proof. destruct p; cbn; auto. Qed.

Lemma plainly_for_each {A B} (f : A -> prog B) l :
  (forall a, raises_plainly (f a)) -> raises_plainly (for_each f l).
Proof.
  intros Hf. induction l as [|a l IH]; cbn [for_each]; [exact I|].
  apply plainly_bind; [apply Hf|]. intros b. apply plainly_bind; [apply IH|]. intros; exact I.
Qed.

Lemma plainly_if {A} (b : bool) (p q : prog A) :
  raises_plainly p -> raises_plainly q -> raises_plainly (if b then p else q).
Proof. destruct b; auto. Qed.

Lemma plainly_getitem o k : raises_plainly (getitem o k).
Proof. destruct o; try exact I. cbn. destruct (lookup k kvs); exact I. Qed.

Lemma plainly_get o k dflt : raises_plainly (get o k dflt).
Proof. destruct o; try exact I. cbn. destruct (lookup k kvs); exact I. Qed.

Lemma plainly_iter o : raises_plainly (iter o).
Proof. destruct o; exact I. Qed.

Lemma plainly_py_in needle o : raises_plainly (py_in needle o).
Proof. destruct o; exact I. Qed.

Lemma plainly_str_method o attr : raises_plainly (str_method o attr).
Proof. destruct o; exact I. Qed.

Lemma plainly_response_json r : raises_plainly (response_json r).
Proof. unfold response_json. destruct (body r); exact I. Qed.

Lemma plainly_get_auth_header d token : raises_plainly (get_auth_header d token).
Proof. unfold get_auth_header. cbv zeta. destruct (utf8_encode _); exact I. Qed.

Create HintDb plainly.
#[local] Hint Resolve plainly_getitem plainly_get plainly_iter plainly_py_in
  plainly_str_method plainly_response_json plainly_get_auth_header plainly_if : plainly.

Ltac plainness :=
  repeat match goal with
  | |- raises_plainly (bind _ _) => apply plainly_bind; [|intros ?]
  | |- raises_plainly (if _ then _ else _) => apply plainly_if
  | |- raises_plainly (for_each _ _) => apply plainly_for_each; intros ?
  | |- raises_plainly (Ret _) => exact I
  | |- raises_plainly (match ?x with _ => _ end) => destruct x
  | |- raises_plainly _ => solve [auto with plainly | exact I]
  end.

Lemma plainly_simplified_item it item : raises_plainly (simplified_item it item).
Proof. unfold simplified_item. plainness. Qed.

Lemma plainly_iteration_path_of item : raises_plainly (iteration_path_of item).
Proof. unfold iteration_path_of. plainness. Qed.

Lemma plainly_strings_of l : raises_plainly (strings_of l).
Proof.
  induction l as [|v l IH]; [exact I|]. destruct v; try exact I.
  cbn [strings_of]. plainness.
Qed.

#[local] Hint Resolve plainly_simplified_item plainly_iteration_path_of
  plainly_strings_of : plainly.

Lemma upstream_error_plain {A} exn_str e :
  plain e ->
  @upstream_error exn_str A e
  = Raise (HTTPException 500 (py "Internal server error: " ++ exn_str e)).
Proof. destruct e; cbn; intros H; try reflexivity. contradiction. Qed.

Lemma raise_for_status_ret r u : raise_for_status r = Ret u -> is_success r = true.
Proof.
  unfold raise_for_status, is_success. destruct (_ && _); [reflexivity|discriminate].
Qed.

Lemma raise_for_status_raise r e :
  raise_for_status r = Raise e -> e = HTTPStatusError r /\ is_success r = false.
Proof.
  unfold raise_for_status, is_success. destruct (_ && _); [discriminate|].
  intros H. split; [congruence|reflexivity].
Qed.

Ltac failure_of_call :=
  cbn [upstream_error ensures upstream_failure]; reflexivity.

Ltac plain_failure p e He :=
  let Hp := fresh "Hp" in
  assert (Hp : raises_plainly p) by plainness;
  rewrite He in Hp; cbn [raises_plainly] in Hp;
  cbn beta; rewrite (upstream_error_plain _ _ Hp); cbn [ensures upstream_failure];
  first
    [ eexists; reflexivity
    | match goal with
      | Hs : is_success ?r = true |- _ => rewrite Hs; eexists; reflexivity
      end ].

Ltac fwd :=
  match goal with
  | |- ensures _ (try_except _ _) _ _ => apply ensures_try
  | |- ensures _ (bind (raise_for_status ?r) _) _ _ =>
    let Hs := fresh "Hs" in
    apply ensures_bind_pure;
    [ solve [purity]
    | intros ? Hs; apply raise_for_status_ret in Hs
    | intros ? Hs; destruct (raise_for_status_raise _ _ Hs) as [-> ?];
      cbn [upstream_error ensures upstream_failure];
      match goal with Hf : is_success _ = false |- _ => rewrite Hf; reflexivity end ]
  | |- ensures _ (bind (client_post _ _ _) _) _ _ =>
    unfold client_post, await; cbn [bind ensures];
    intros [?rsp|?m]; cbn [bind ensures]; [|failure_of_call]
  | |- ensures _ (bind (client_get _ _) _) _ _ =>
    unfold client_get, await; cbn [bind ensures];
    intros [?rsp|?m]; cbn [bind ensures]; [|failure_of_call]
  | |- ensures _ (Call _ _) _ _ =>
    cbn [ensures]; intros [?rsp|?m]; cbn [bind ensures]; [|failure_of_call]
  | |- ensures _ (bind ?p _) _ _ =>
    let He := fresh "He" in
    apply ensures_bind_pure;
    [ solve [purity] | intros ? ? | intros ?e He; plain_failure p e He ]
  end.

Lemma get_my_iterations_failures d str_of exn_str a o p u auth :
  ensures [] (get_my_iterations d str_of exn_str a o p u auth)
    (fun h _ => Forall answered_with_success h)
    (fun h e => upstream_failure exn_str h e).
Proof.
  unfold get_my_iterations. cbv zeta.
  repeat fwd.
  match goal with |- context [nonempty ?l] => destruct (nonempty l) end.
  - repeat fwd. cbn [ensures].
    repeat constructor; eexists; (split; [reflexivity|assumption]).
  - cbn [ensures]. repeat constructor; eexists; (split; [reflexivity|assumption]).
Qed.

Lemma get_work_items_failures d str_of exn_str a it o p u auth raw :
  utf8_encode (58 :: AZURE_ACCESS_TOKEN d) = Some raw ->
  ensures [] (get_work_items d str_of exn_str a it o p u auth)
    (fun h _ => Forall answered_with_success h)
    (fun h e => upstream_failure exn_str h e).
Proof.
  intros Hd. unfold get_work_items. cbv zeta.
  destruct (get_auth_header_resolved d o p u auth raw Hd) as (hdrs & ->). cbn [bind].
  repeat fwd.
  match goal with |- context [nonempty ?l] => destruct (nonempty l) end.
  - repeat fwd. cbn [ensures].
    repeat constructor; eexists; (split; [reflexivity|assumption]).
  - cbn [ensures]. repeat constructor; eexists; (split; [reflexivity|assumption]).
Qed.

(** X7. Lines 160-218. When the static default token can be encoded,
    /work-items returns only if every upstream reply was a response
    with a 2xx status, and otherwise raises an [HTTPException]: with the
    status and text of the latest upstream response when that response
    is outside 2xx, and with status 500 in every other case, a failed
    connection included. *)
Theorem work_items_failures_passed_on (World : Type)
    (send : request -> World -> reply * World) d str_of exn_str (w : World)
    a it o p u auth raw :
  utf8_encode (58 :: AZURE_ACCESS_TOKEN d) = Some raw ->
  let handler := get_work_items d str_of exn_str a it o p u auth in
  match fst (run send handler w) with
  | Returned _ => Forall answered_with_success (exchanges send handler w)
  | Raised e => upstream_failure exn_str (rev (exchanges send handler w)) e
  end.
Proof.
  intros Hd handler.
  pose proof (ensures_run World send handler _ _ [] w
                (get_work_items_failures d str_of exn_str a it o p u auth raw Hd)) as H.
  rewrite app_nil_r in H. destruct (fst (run send handler w)); [|exact H].
  cbn beta in H. apply Forall_rev in H. now rewrite rev_involutive in H.
Qed.

Lemma work_items_failures_passed_on_witness :
  fst (run scripted
         (get_work_items builtin_defaults decimal class_name (py "me") [] None None None None)
         [status 403 (py "denied")])
  = Raised (HTTPException 403 (py "Azure DevOps API error: denied")).
Proof.
  pose proof (work_items_failures_passed_on (list reply) scripted builtin_defaults decimal
                class_name [status 403 (py "denied")] (py "me") [] None None None None
                (py ":your-pat-token") eq_refl) as H.
  cbv zeta in H.
  destruct (fst (run scripted
                   (get_work_items builtin_defaults decimal class_name (py "me") []
                      None None None None) [status 403 (py "denied")])) as [resp|e] eqn:E.
  - vm_compute in E. discriminate.
  - vm_compute in H. now subst e.
Defined.

(** X8. Lines 379-426. /my-iterations returns only if every upstream reply
    was a response with a 2xx status, and otherwise raises an
    [HTTPException]: with the status and text of the latest upstream
    response when that response is outside 2xx, and with status 500 in
    every other case. *)
Theorem my_iterations_failures_passed_on (World : Type)
    (send : request -> World -> reply * World) d str_of exn_str (w : World)
    a o p u auth :
  let handler := get_my_iterations d str_of exn_str a o p u auth in
  match fst (run send handler w) with
  | Returned _ => Forall answered_with_success (exchanges send handler w)
  | Raised e => upstream_failure exn_str (rev (exchanges send handler w)) e
  end.
Proof.
  intros handler.
  pose proof (ensures_run World send handler _ _ [] w
                (get_my_iterations_failures d str_of exn_str a o p u auth)) as H.
  rewrite app_nil_r in H. destruct (fst (run send handler w)); [|exact H].
  cbn beta in H. apply Forall_rev in H. now rewrite rev_involutive in H.
Qed.

Example my_iterations_connection_refused :
  fst (run scripted
         (get_my_iterations builtin_defaults decimal class_name (py "me") None None None None)
         [])
  = Raised (HTTPException 500 (py "Internal server error: TransportError")).
Proof. vm_compute. reflexivity. Qed.

(** ** /my-iterations: the listing *)

Lemma str_compare_eq a b : str_compare a b = Eq -> a = b.
Proof.
  revert b. induction a as [|x a IH]; intros [|y b]; cbn; try discriminate; auto.
  destruct (Z.compare_spec x y) as [->| |]; try discriminate. intros Hc. f_equal. auto.
Qed.

Lemma str_compare_refl a : str_compare a a = Eq.
Proof. induction a as [|x a IH]; cbn; [reflexivity|]. now rewrite Z.compare_refl. Qed.

Lemma str_compare_gt a b : str_compare a b = Gt -> str_compare b a = Lt.
Proof.
  revert b. induction a as [|x a IH]; intros [|y b]; cbn; try discriminate; auto.
  rewrite (Z.compare_antisym x y).
  destruct (x ?= y); cbn; try discriminate; auto.
Qed.

Lemma str_compare_trans a b c :
  str_compare a b = Lt -> str_compare b c = Lt -> str_compare a c = Lt.
Proof.
  revert b c. induction a as [|x a IH]; intros [|y b] [|z c]; cbn; try discriminate; auto.
  destruct (Z.compare_spec x y) as [->|Hxy|Hxy]; try discriminate.
  - destruct (y ?= z); try discriminate; eauto.
  - destruct (Z.compare_spec y z) as [->|Hyz|Hyz]; try discriminate; intros _ _.
    + now rewrite (proj2 (Z.compare_lt_iff x z) Hxy).
    + rewrite (proj2 (Z.compare_lt_iff x z)); [reflexivity|lia].
Qed.

Lemma insert_unique_in x l y : In y (insert_unique x l) <-> y = x \/ In y l.
Proof.
  induction l as [|z l IH]; cbn [insert_unique].
  - cbn. intuition.
  - destruct (str_compare x z) eqn:E.
    + apply str_compare_eq in E. subst z. cbn. intuition.
    + cbn. intuition.
    + cbn [In]. rewrite IH. intuition.
Qed.

Lemma insert_unique_ascending x l : ascending l -> ascending (insert_unique x l).
Proof.
  induction l as [|z l IH]; cbn [insert_unique ascending].
  - intros _. split; [constructor|exact I].
  - intros [Hz Hl]. destruct (str_compare x z) eqn:E.
    + split; assumption.
    + cbn [ascending]. split; [|split; assumption].
      constructor; [exact E|].
      eapply Forall_impl; [|exact Hz]. intros y Hy. cbn beta in Hy.
      eapply str_compare_trans; eassumption.
    + cbn [ascending]. split; [|auto].
      apply Forall_forall. intros y Hy. apply insert_unique_in in Hy.
      destruct Hy as [->|Hy]; [now apply str_compare_gt|].
      rewrite Forall_forall in Hz. auto.
Qed.

Lemma sorted_set_ascending l : ascending (sorted_set l).
Proof.
  induction l as [|x l IH]; cbn; [exact I|]. now apply insert_unique_ascending.
Qed.

Lemma sorted_set_in l y : In y (sorted_set l) <-> In y l.
Proof.
  induction l as [|x l IH]; cbn [sorted_set fold_right]; [reflexivity|].
  rewrite insert_unique_in. fold (sorted_set l). rewrite IH. cbn. intuition.
Qed.

Lemma strings_of_in l ss x : strings_of l = Ret ss -> (In x ss <-> In (JStr x) l).
Proof.
  revert ss. induction l as [|v l IH]; intros ss; cbn [strings_of].
  - intros [= <-]. reflexivity.
  - destruct v; try discriminate.
    destruct (strings_of l) as [ss'| |] eqn:E; cbn [bind]; try discriminate.
    intros [= <-]. cbn [In]. rewrite (IH ss' eq_refl).
    split; (intros [H|H]; [left|right; exact H]); congruence.
Qed.

Lemma somes_in {A} (l : list (option A)) x : In x (somes l) <-> In (Some x) l.
Proof.
  induction l as [|o l IH]; [reflexivity|].
  change (somes (o :: l)) with ((match o with Some a => [a] | None => [] end) ++ somes l).
  rewrite in_app_iff, IH. destruct o as [a|]; cbn [In].
  - split; [intros [[->|[]]|H]; auto|intros [[= ->]|H]; auto].
  - split; [intros [[]|H]; auto|intros [[=]|H]; auto].
Qed.

Lemma for_each_in {A B} (f : A -> prog B) l bs b :
  for_each f l = Ret bs -> (In b bs <-> exists a, In a l /\ f a = Ret b).
Proof.
  intros H. apply for_each_ret in H.
  induction H as [|a b' l bs Hab _ IH]; cbn [In].
  - split; [intros []|intros (a & [] & _)].
  - rewrite IH. split.
    + intros [->|(a' & Ha & Hf)]; eauto.
    + intros (a' & [->|Ha] & Hf); [left; congruence|right; eauto].
Qed.

Lemma iteration_path_of_truthy item v :
  iteration_path_of item = Ret (Some v) -> truthy v = true.
Proof.
  unfold iteration_path_of. intros H.
  destruct (getitem item (py "fields")) as [fields| |]; cbn [bind] in H; try discriminate.
  destruct (get fields _ _) as [path| |]; cbn [bind] in H; try discriminate.
  destruct (truthy path) eqn:E; [|discriminate].
  destruct path; try discriminate; congruence.
Qed.

Lemma get_my_iterations_listing d str_of exn_str a o p u auth :
  ensures [] (get_my_iterations d str_of exn_str a o p u auth)
    (fun h resp =>
       exists paths,
         resp = JObj [(py "iterations", JArr (map shaped_iteration paths));
                      (py "count", JInt (Z.of_nat (List.length paths)))]
         /\ ascending paths
         /\ forall x, In x paths <->
              exists item, In item (fetched_items (rev h))
                           /\ iteration_path_of item = Ret (Some (JStr x)))
    (fun _ _ => True).
Proof.
  unfold get_my_iterations. cbv zeta.
  repeat advance.
  match goal with |- context [nonempty ?l] => destruct (nonempty l) end.
  - repeat advance. cbn [ensures].
    match goal with
    | Hb : response_json rsp0 = Ret ?details,
      Hv : getitem ?details (py "value") = Ret ?listed,
      Hi : iter ?listed = Ret ?items,
      Hk : for_each _ ?items = Ret ?added,
      Hs : strings_of _ = Ret ?iterations |- _ =>
      exists (sorted_set iterations); split; [reflexivity|];
      split; [apply sorted_set_ascending|];
      unfold fetched_items, listed_items; cbn [rev app find is_get fst snd rq_method];
      rewrite (response_json_body _ _ Hb), Hv, Hi;
      intros x; rewrite sorted_set_in, (strings_of_in _ _ x Hs), somes_in;
      apply (for_each_in _ _ _ _ Hk)
    end.
  - cbn [ensures]. exists []. split; [reflexivity|]. split; [exact I|].
    intros x. cbn. split; [intros []|intros (item & [] & _)].
Qed.

(** X9. Lines 379-419. A successful /my-iterations response lists the
    shaped forms of iteration paths that strictly ascend, code point by
    code point, so that no path occurs twice; the paths are exactly the
    non-empty [System.IterationPath] texts of the fetched items, and
    [count] is their number. *)
Theorem my_iterations_sorted_unique (World : Type)
    (send : request -> World -> reply * World) d str_of exn_str (w w' : World)
    a o p u auth resp :
  run send (get_my_iterations d str_of exn_str a o p u auth) w = (Returned resp, w') ->
  let fetched :=
    fetched_items (exchanges send (get_my_iterations d str_of exn_str a o p u auth) w) in
  exists paths,
    resp = JObj [(py "iterations", JArr (map shaped_iteration paths));
                 (py "count", JInt (Z.of_nat (List.length paths)))]
    /\ ascending paths
    /\ Forall (fun x => x <> []) paths
    /\ forall x, In x paths <->
         exists item, In item fetched /\ iteration_path_of item = Ret (Some (JStr x)).
Proof.
  intros Hrun fetched.
  pose proof (ensures_returned World send _ _ _ w resp w'
                (get_my_iterations_listing d str_of exn_str a o p u auth) Hrun) as H.
  cbn beta in H. rewrite rev_involutive in H. fold fetched in H.
  destruct H as (paths & -> & Hasc & Hin).
  exists paths. repeat split; try assumption; try apply Hin.
  apply Forall_forall. intros x Hx. apply Hin in Hx. destruct Hx as (item & _ & Hi).
  apply iteration_path_of_truthy in Hi. intros ->. discriminate.
Qed.

Example two_sprints_listed_once :
  run scripted
    (get_my_iterations builtin_defaults decimal class_name (py "me") None None None None)
    iteration_script
  = (Returned (JObj [
       (py "iterations",
        JArr (map shaped_iteration [py "Proj\Sprint 1"; py "Proj\Sprint 2"]));
       (py "count", JInt 2)]), []).
Proof. vm_compute. reflexivity. Qed.

Lemma my_iterations_sorted_unique_witness :
  exists paths,
    JObj [(py "iterations",
           JArr (map shaped_iteration [py "Proj\Sprint 1"; py "Proj\Sprint 2"]));
          (py "count", JInt 2)]
    = JObj [(py "iterations", JArr (map shaped_iteration paths));
            (py "count", JInt (Z.of_nat (List.length paths)))]
    /\ ascending paths
    /\ Forall (fun x => x <> []) paths.
Proof.
  destruct (my_iterations_sorted_unique (list reply) scripted builtin_defaults decimal
              class_name iteration_script [] (py "me") None None None None
              _ two_sprints_listed_once)
    as (paths & H1 & H2 & H3 & _).
  exists paths. split; [exact H1|]. split; [exact H2|exact H3].
Defined.

(** X10. Lines 411-415. The [name] of a listed iteration holds no backslash
    and is the whole path or what follows a backslash of it, hence what
    follows the last one; [is_active] tells whether the path contains
    [Active]. *)
Theorem iteration_name_is_last_segment path :
  exists name,
    shaped_iteration path
    = JObj [(py "path", JStr path); (py "name", JStr name);
            (py "is_active", JBool (contains path (py "Active")))]
    /\ contains name (py "\") = false
    /\ (path = name \/ exists before, path = before ++ py "\" ++ name).
Proof.
  unfold shaped_iteration. destruct (contains path (py "\")) eqn:E.
  - destruct (last_piece_split path (py "\")) as (before & Hb & Hno);
      [discriminate|exact E|].
    eexists. split; [reflexivity|]. split; [exact Hno|]. right. now exists before.
  - exists path. split; [reflexivity|]. split; [exact E|now left].
Qed.

(** ** The requests *)

Lemma at_most_mono {A} (p : prog A) n m : (n <= m)%nat -> at_most n p -> at_most m p.
Proof.
  revert n m. induction p as [a|e|rq k IH]; intros n m Hnm; cbn; auto.
  destruct n as [|n]; [intros []|]. destruct m as [|m]; [exfalso; lia|].
  intros H r. apply (IH r n m); [lia|apply H].
Qed.

Lemma at_most_pure {A} (p : prog A) n : pure p -> at_most n p.
Proof. destruct p; cbn; auto. intros []. Qed.

Lemma at_most_bind {A B} (p : prog A) (f : A -> prog B) n m :
  at_most n p -> (forall a, at_most m (f a)) -> at_most (n + m) (bind p f).
Proof.
  revert n. induction p as [a|e|rq k IH]; intros n; cbn [bind].
  - intros _ Hf. apply (at_most_mono _ m); [lia|apply Hf].
  - intros _ _. exact I.
  - destruct n as [|n]; cbn; [intros []|]. intros H Hf r. apply IH; auto.
Qed.

Lemma at_most_try {A} (p : prog A) (handler : exn -> prog A) n m :
  at_most n p -> (forall e, at_most m (handler e)) -> at_most (n + m) (try_except p handler).
Proof.
  revert n. induction p as [a|e|rq k IH]; intros n; cbn [try_except].
  - intros _ _. exact I.
  - intros _ Hf. apply (at_most_mono _ m); [lia|apply Hf].
  - destruct n as [|n]; cbn; [intros []|]. intros H Hf r. apply IH; auto.
Qed.

Lemma at_most_for_each {A B} (f : A -> prog B) l n :
  (forall a, at_most n (f a)) -> at_most (List.length l * n) (for_each f l).
Proof.
  intros Hf. induction l as [|a l IH]; cbn [for_each List.length]; [exact I|].
  change (S (List.length l) * n)%nat with (n + List.length l * n)%nat.
  apply at_most_bind; [apply Hf|]. intros b.
  replace (List.length l * n)%nat with (List.length l * n + 0)%nat by lia.
  apply at_most_bind; [exact IH|]. intros; exact I.
Qed.

Lemma at_most_await rq : at_most 1 (await rq).
Proof. cbn. intros [r|m]; exact I. Qed.

Lemma at_most_if {A} (b : bool) (p q : prog A) n :
  at_most n p -> at_most n q -> at_most n (if b then p else q).
Proof. destruct b; auto. Qed.

Lemma at_most_exchanges {A} (World : Type) (send : request -> World -> reply * World)
    (p : prog A) n w :
  at_most n p -> (List.length (exchanges send p w) <= n)%nat.
Proof.
  revert n w. induction p as [a|e|rq k IH]; intros n w; cbn; try lia.
  destruct n as [|n]; [intros []|]. intros H.
  destruct (send rq w) as [r w1]. cbn [List.length]. specialize (IH r n w1 (H r)). lia.
Qed.

(** One awaited call followed by steps that await nothing. *)
Ltac one_call :=
  match goal with
  | |- at_most 1 (bind (client_post _ _ _) _) =>
    unfold client_post; apply (at_most_bind _ _ 1 0); [apply at_most_await|intros ?]
  | |- at_most 1 (bind (client_get _ _) _) =>
    unfold client_get; apply (at_most_bind _ _ 1 0); [apply at_most_await|intros ?]
  | |- at_most _ (bind _ _) =>
    apply (at_most_bind _ _ 0); [apply at_most_pure; solve [purity]|intros ?]
  | |- at_most _ (if _ then _ else _) => apply at_most_if
  | |- at_most _ _ => apply at_most_pure; solve [purity]
  end.

Lemma fetch_children_at_most d cfg child_ids : at_most 1 (fetch_children d cfg child_ids).
Proof. unfold fetch_children. cbv zeta. repeat one_call. Qed.

Lemma work_item_detail_at_most d cfg single_id : at_most 3 (work_item_detail d cfg single_id).
Proof.
  unfold work_item_detail. cbv zeta.
  apply (at_most_bind _ _ 0 3); [apply at_most_pure; solve [purity]|intros auth].
  unfold client_get at 1. apply (at_most_bind _ _ 1 2); [apply at_most_await|intros response].
  apply (at_most_bind _ _ 0 2); [apply at_most_pure; solve [purity]|intros _].
  apply (at_most_bind _ _ 0 2); [apply at_most_pure; solve [purity]|intros work_item].
  apply (at_most_bind _ _ 0 2); [apply at_most_pure; solve [purity]|intros fields].
  apply (at_most_bind _ _ 0 2); [apply at_most_pure; solve [purity]|intros auth'].
  unfold client_get at 1. apply (at_most_bind _ _ 1 1); [apply at_most_await|intros comments_response].
  apply (at_most_bind _ _ 0 1); [apply at_most_pure; solve [purity]|intros comments].
  apply (at_most_bind _ _ 0 1); [apply at_most_pure; solve [purity]|intros relations].
  apply (at_most_bind _ _ 0 1); [apply at_most_pure; solve [purity]|intros relations'].
  apply (at_most_bind _ _ 0 1); [apply at_most_pure; solve [purity]|intros extracted].
  apply (at_most_bind _ _ 1 0); [apply fetch_children_at_most|intros child_items].
  apply at_most_pure. purity.
Qed.

Lemma listing_at_most_aux {A} (first : prog response) (rest : response -> prog A) :
  at_most 1 first -> (forall r, at_most 1 (rest r)) -> at_most 2 (bind first rest).
Proof. intros H1 H2. now apply (at_most_bind _ _ 1 1). Qed.

Lemma get_work_items_at_most d str_of exn_str a it o p u auth :
  at_most 2 (get_work_items d str_of exn_str a it o p u auth).
Proof.
  unfold get_work_items. cbv zeta.
  apply (at_most_bind _ _ 0 2); [apply at_most_pure; solve [purity]|intros hdrs].
  apply (at_most_try _ _ 2 0); [|intros e; apply at_most_pure; purity].
  unfold client_post at 1. apply (at_most_bind _ _ 1 1); [apply at_most_await|intros response].
  do 5 (apply (at_most_bind _ _ 0 1); [apply at_most_pure; solve [purity]|intros ?]).
  apply at_most_if; [|exact I].
  repeat one_call.
Qed.

Lemma get_my_iterations_at_most d str_of exn_str a o p u auth :
  at_most 2 (get_my_iterations d str_of exn_str a o p u auth).
Proof.
  unfold get_my_iterations. cbv zeta.
  apply (at_most_try _ _ 2 0); [|intros e; apply at_most_pure; purity].
  apply (at_most_bind _ _ 0 2); [apply at_most_pure; solve [purity]|intros hdrs].
  unfold client_post at 1. apply (at_most_bind _ _ 1 1); [apply at_most_await|intros response].
  do 5 (apply (at_most_bind _ _ 0 1); [apply at_most_pure; solve [purity]|intros ?]).
  apply at_most_if; [|exact I].
  repeat one_call.
Qed.

Lemma get_work_item_details_at_most d exn_str wid o p u auth :
  at_most (List.length (split wid (py ",")) * 3)
    (get_work_item_details d exn_str wid o p u auth).
Proof.
  unfold get_work_item_details. cbv zeta.
  replace (List.length (split wid (py ",")) * 3)%nat
    with (List.length (map strip (split wid (py ","))) * 3 + 0 + 0)%nat
    by (rewrite length_map; lia).
  apply at_most_try; [|intros e; apply at_most_pure; purity].
  apply at_most_bind.
  - apply at_most_for_each. intros single_id. unfold detail_or_error.
    apply (at_most_try _ _ 3 0); [apply work_item_detail_at_most|intros e; exact I].
  - intros entries. destruct (_ =? _)%nat; [destruct entries|]; exact I.
Qed.

Lemma test_connection_at_most d exn_str settings : at_most 1 (test_connection d exn_str settings).
Proof.
  unfold test_connection. cbv zeta.
  apply (at_most_try _ _ 1 0).
  - repeat one_call.
  - intros e. apply at_most_pure. unfold connection_error.
    destruct e; try exact I.
    repeat match goal with |- pure (if ?b then _ else _) => destruct b end; exact I.
Qed.

(** X11. Lines 129-218, 221-353, 356-426 and 428-485. No endpoint repeats a
    request: whatever the upstream replies, /work-items and
    /my-iterations make at most two upstream requests,
    /work-item-details at most three for each piece of the comma
    separated [work_item_id], and /test-connection at most one. *)
Theorem request_budget (World : Type) (send : request -> World -> reply * World)
    d str_of exn_str (w : World) a it wid o p u auth settings :
  (List.length (exchanges send (get_work_items d str_of exn_str a it o p u auth) w) <= 2)%nat
  /\ (List.length (exchanges send (get_my_iterations d str_of exn_str a o p u auth) w) <= 2)%nat
  /\ (List.length (exchanges send (get_work_item_details d exn_str wid o p u auth) w)
      <= List.length (split wid (py ",")) * 3)%nat
  /\ (List.length (exchanges send (test_connection d exn_str settings) w) <= 1)%nat.
Proof.
  repeat split; apply at_most_exchanges.
  - apply get_work_items_at_most.
  - apply get_my_iterations_at_most.
  - apply get_work_item_details_at_most.
  - apply test_connection_at_most.
Qed.

Lemma issues_bind_pure {A B} P (p : prog A) (f : A -> prog B) :
  pure p -> (forall a, p = Ret a -> issues P (f a)) -> issues P (bind p f).
Proof. destruct p as [a|e|rq k]; cbn; auto. intros []. Qed.

Lemma issues_for_each {A B} P (f : A -> prog B) l :
  (forall a, issues P (f a)) -> issues P (for_each f l).
Proof.
  intros Hf. induction l as [|a l IH]; cbn [for_each]; [exact I|].
  apply issues_bind; [apply Hf|]. intros b. apply issues_bind; [exact IH|]. intros; exact I.
Qed.

Lemma startswith_app_both a s p : startswith (a ++ s) (a ++ p) = startswith s p.
Proof. induction a as [|c a IH]; cbn; [reflexivity|]. now rewrite Z.eqb_refl. Qed.

Lemma endswith_app a s p : endswith s p = true -> endswith (a ++ s) p = true.
Proof. unfold endswith. rewrite rev_app_distr. apply startswith_app_l. Qed.

Lemma addressed_to d cfg token raw m rest hdrs j :
  token = access_token cfg ->
  utf8_encode (58 :: or_default (Some token) (AZURE_ACCESS_TOKEN d)) = Some raw ->
  endswith rest (py "api-version=7.0") = true ->
  In (py "Authorization", py "Basic " ++ b64encode raw) hdrs ->
  addressed d cfg
    {| rq_method := m;
       rq_url := base_url cfg ++ py "/" ++ project cfg ++ py "/_apis/wit/" ++ rest;
       rq_headers := hdrs;
       rq_json := j |}.
Proof.
  intros -> Hraw Hrest Hin. unfold addressed. cbn [rq_url rq_headers]. split; [|split].
  - rewrite !(app_assoc _ _ rest), !(app_assoc _ _ (py "/_apis/wit/")).
    rewrite <- (app_assoc (base_url cfg)). apply startswith_self_app.
  - now do 4 apply endswith_app.
  - exists raw. split; [exact Hraw|exact Hin].
Qed.

Ltac addressing :=
  repeat match goal with
  | |- issues _ (bind (get_auth_header _ _) _) =>
    let H := fresh "Hauth" in
    apply issues_bind_pure; [solve [purity]|];
    intros ? H; apply get_auth_header_ret in H; destruct H as (?raw & ?Hraw & ->)
  | |- issues _ (bind (client_post _ _ _) _) =>
    unfold client_post at 1; apply issues_bind; [apply issues_await|intros ?]
  | |- issues _ (bind (client_get _ _) _) =>
    unfold client_get at 1; apply issues_bind; [apply issues_await|intros ?]
  | |- issues _ (bind (fetch_children _ _ _) _) => apply issues_bind; [|intros ?]
  | |- issues _ (bind _ _) => apply issues_bind; [apply issues_pure; solve [purity]|intros ?]
  | |- issues _ (try_except _ _) => apply issues_try; [|intros ?]
  | |- issues _ (if ?b then _ else _) => destruct b
  | |- issues _ (for_each _ _) => apply issues_for_each; intros ?
  | |- issues _ _ => apply issues_pure; solve [purity]
  end.

Lemma get_work_items_addressed d str_of exn_str a it o p u auth :
  issues (addressed d (get_azure_config_from_headers d o p u auth))
    (get_work_items d str_of exn_str a it o p u auth).
Proof.
  unfold get_work_items. cbv zeta. addressing.
  - change (py "/_apis/wit/wiql") with (py "/_apis/wit/" ++ py "wiql").
    rewrite <- !app_assoc.
    eapply (addressed_to _ _ _ raw); [reflexivity|exact Hraw| |now left].
    now apply endswith_app.
  - change (py "/_apis/wit/workitems") with (py "/_apis/wit/" ++ py "workitems").
    rewrite <- !app_assoc.
    eapply (addressed_to _ _ _ raw0); [reflexivity|exact Hraw0| |now left].
    now do 3 apply endswith_app.
Qed.

Lemma get_my_iterations_addressed d str_of exn_str a o p u auth :
  issues (addressed d (get_azure_config_from_headers d o p u auth))
    (get_my_iterations d str_of exn_str a o p u auth).
Proof.
  unfold get_my_iterations. cbv zeta. addressing.
  - change (py "/_apis/wit/wiql") with (py "/_apis/wit/" ++ py "wiql").
    rewrite <- !app_assoc.
    eapply (addressed_to _ _ _ raw); [reflexivity|exact Hraw| |now left].
    now apply endswith_app.
  - change (py "/_apis/wit/workitems") with (py "/_apis/wit/" ++ py "workitems").
    rewrite <- !app_assoc.
    eapply (addressed_to _ _ _ raw0); [reflexivity|exact Hraw0| |now left].
    now do 3 apply endswith_app.
Qed.

Lemma get_work_item_details_addressed d exn_str wid o p u auth :
  issues (fun rq => addressed d (get_azure_config_from_headers d o p u auth) rq
                    /\ rq_method rq = GET /\ rq_json rq = None)
    (get_work_item_details d exn_str wid o p u auth).
Proof.
  unfold get_work_item_details. cbv zeta. addressing.
  apply issues_bind; [apply issues_for_each; intros single_id|intros entries].
  - unfold detail_or_error, work_item_detail. cbv zeta. addressing.
    + split; [|split; reflexivity].
      change (py "/_apis/wit/workitems/") with (py "/_apis/wit/" ++ py "workitems/").
      rewrite <- !app_assoc.
      eapply (addressed_to _ _ _ raw); [reflexivity|exact Hraw| |now left].
      now do 2 apply endswith_app.
    + split; [|split; reflexivity].
      change (py "/_apis/wit/workitems/") with (py "/_apis/wit/" ++ py "workitems/").
      rewrite <- !app_assoc.
      eapply (addressed_to _ _ _ raw0); [reflexivity|exact Hraw0| |now left].
      now do 3 apply endswith_app.
    + unfold fetch_children. cbv zeta. addressing.
      split; [|split; reflexivity].
      change (py "/_apis/wit/workitems") with (py "/_apis/wit/" ++ py "workitems").
      rewrite <- !app_assoc.
      eapply (addressed_to _ _ _ raw1); [reflexivity|exact Hraw1| |now left].
      now do 3 apply endswith_app.
  - apply issues_pure. destruct (_ =? _)%nat; [destruct entries|]; exact I.
Qed.

(** X12. Lines 139-181, 232-283 and 366-396. Every upstream request of
    /work-items, /my-iterations and /work-item-details goes to a URL
    that starts with [{base_url}/{project}/_apis/wit/] of the resolved
    configuration and ends with [api-version=7.0], and carries the
    Basic credentials built from the resolved token; the requests of
    /work-item-details are all GET requests without a body. *)
Theorem requests_addressed (World : Type) (send : request -> World -> reply * World)
    d str_of exn_str (w : World) a it wid o p u auth :
  let cfg := get_azure_config_from_headers d o p u auth in
  Forall (fun x => addressed d cfg (fst x))
    (exchanges send (get_work_items d str_of exn_str a it o p u auth) w)
  /\ Forall (fun x => addressed d cfg (fst x))
       (exchanges send (get_my_iterations d str_of exn_str a o p u auth) w)
  /\ Forall (fun x => addressed d cfg (fst x)
                      /\ rq_method (fst x) = GET /\ rq_json (fst x) = None)
       (exchanges send (get_work_item_details d exn_str wid o p u auth) w).
Proof.
  intros cfg. split; [|split].
  - apply (issues_exchanges World send (addressed d cfg)), get_work_items_addressed.
  - apply (issues_exchanges World send (addressed d cfg)), get_my_iterations_addressed.
  - apply (issues_exchanges World send
             (fun rq => addressed d cfg rq /\ rq_method rq = GET /\ rq_json rq = None)),
      get_work_item_details_addressed.
Qed.

(** ** The probe of /test-connection *)

Lemma test_connection_probe d exn_str settings :
  issues (fun rq =>
            rq_method rq = POST /\ rq_json rq = Some test_query
            /\ startswith (rq_url rq) (py "http://")
               || startswith (rq_url rq) (py "https://") = true
            /\ (exists scheme,
                  (scheme = [] \/ scheme = py "https://")
                  /\ rq_url rq = scheme ++ baseUrl settings ++ py "/" ++ tc_project settings
                                 ++ py "/_apis/wit/wiql?api-version=7.0")
            /\ exists raw,
                 utf8_encode (py ":" ++ or_default (Some (accessToken settings))
                                                   (AZURE_ACCESS_TOKEN d)) = Some raw
                 /\ rq_headers rq = [(py "Authorization", py "Basic " ++ b64encode raw);
                                     (py "Content-Type", py "application/json")])
    (test_connection d exn_str settings).
Proof.
  unfold test_connection. cbv zeta. apply issues_try.
  - addressing. cbn [rq_method rq_json rq_url rq_headers].
    split; [reflexivity|]. split; [reflexivity|].
    destruct (startswith (baseUrl settings) (py "http://")
              || startswith (baseUrl settings) (py "https://")) eqn:E.
    + split; [|split].
      * apply orb_true_iff in E. apply orb_true_iff.
        destruct E as [E|E]; [left|right]; rewrite <- !app_assoc; now apply startswith_app_l.
      * exists []. split; [now left|]. cbn [app]. now rewrite <- !app_assoc.
      * exists raw. split; [exact Hraw|reflexivity].
    + split; [|split].
      * apply orb_true_iff. right. rewrite <- !app_assoc. apply startswith_self_app.
      * exists (py "https://"). split; [now right|]. now rewrite <- !app_assoc.
      * exists raw. split; [exact Hraw|reflexivity].
  - intros e. apply issues_pure. unfold connection_error. destruct e; try exact I.
    repeat match goal with |- pure (if ?b then _ else _) => destruct b end; exact I.
Qed.

(** X13. Lines 436-459. Every request of /test-connection is a POST of the
    fixed probe query to [{base}/{project}/_apis/wit/wiql?api-version=7.0],
    where [base] is the given base URL, with [https://] put before it
    when it starts with neither [http://] nor [https://], so that the
    URL always starts with a scheme; the credentials are built from the
    given token, and from the static default token when the given one
    is empty. *)
Theorem probe_request (World : Type) (send : request -> World -> reply * World)
    d exn_str (w : World) settings :
  Forall (fun x =>
            rq_method (fst x) = POST /\ rq_json (fst x) = Some test_query
            /\ startswith (rq_url (fst x)) (py "http://")
               || startswith (rq_url (fst x)) (py "https://") = true
            /\ (exists scheme,
                  (scheme = [] \/ scheme = py "https://")
                  /\ rq_url (fst x)
                     = scheme ++ baseUrl settings ++ py "/" ++ tc_project settings
                       ++ py "/_apis/wit/wiql?api-version=7.0")
            /\ exists raw,
                 utf8_encode (py ":" ++ or_default (Some (accessToken settings))
                                                   (AZURE_ACCESS_TOKEN d)) = Some raw
                 /\ rq_headers (fst x)
                    = [(py "Authorization", py "Basic " ++ b64encode raw);
                       (py "Content-Type", py "application/json")])
    (exchanges send (test_connection d exn_str settings) w).
Proof.
  apply (issues_exchanges World send _ _ w (test_connection_probe d exn_str settings)).
Qed.

(** X14. Lines 113, 139, 232, 366 and 431. Logging aside, the organization
    plays no part: the handlers are the same programs whatever the
    X-Azure-Organization header and the [organization] of the
    /test-connection body are, so the upstream requests and the
    responses do not depend on them. *)
Theorem organization_unused d str_of exn_str a it wid o o' p u auth org org' proj base token :
  get_work_items d str_of exn_str a it o p u auth
  = get_work_items d str_of exn_str a it o' p u auth
  /\ get_my_iterations d str_of exn_str a o p u auth
     = get_my_iterations d str_of exn_str a o' p u auth
  /\ get_work_item_details d exn_str wid o p u auth
     = get_work_item_details d exn_str wid o' p u auth
  /\ test_connection d exn_str
       {| tc_organization := org; tc_project := proj; baseUrl := base; accessToken := token |}
     = test_connection d exn_str
         {| tc_organization := org'; tc_project := proj; baseUrl := base;
            accessToken := token |}.
Proof. repeat split. Qed.

(** ** The fan-out of a listing *)

Ltac listed :=
  match goal with
  | Hb : response_json ?rsp = Ret ?found,
    Hv : getitem ?found (py "workItems") = Ret ?refs,
    Hi : iter ?refs = Ret ?items,
    Hk : for_each _ ?items = Ret ?ids |- _ =>
    unfold listed_refs; cbn [snd];
    rewrite (response_json_body _ _ Hb), Hv, Hi; exact Hk
  end.

Lemma get_work_items_fanned_out d str_of exn_str a it o p u auth :
  ensures [] (get_work_items d str_of exn_str a it o p u auth)
    (fun h resp =>
       fanned_out str_of (get_azure_config_from_headers d o p u auth)
         (py "&api-version=7.0") (rev h)
       /\ match rev h with
          | [_] => resp = JObj [(py "work_items", JArr []); (py "count", JInt 0)]
          | _ =>
            exists kvs,
              resp = JObj kvs
              /\ lookup (py "filters") kvs
                 = Some (JObj [(py "assigned_to", JStr a); (py "iteration", JStr it)])
          end)
    (fun _ _ => True).
Proof.
  unfold get_work_items. cbv zeta.
  advance; [|exact I]. repeat advance.
  match goal with |- context [nonempty ?l] => destruct (nonempty l) eqn:Hids end.
  - repeat advance. cbn [ensures rev app]. split.
    + do 3 eexists. split; [reflexivity|]. split; [reflexivity|].
      split; [listed|]. split; [now apply nonempty_true|]. split; reflexivity.
    + eexists. split; reflexivity.
  - cbn [ensures rev app]. split; [|reflexivity].
    do 3 eexists. split; [reflexivity|]. split; [reflexivity|].
    split; [listed|]. now apply nonempty_false.
Qed.

Lemma get_my_iterations_fanned_out d str_of exn_str a o p u auth :
  ensures [] (get_my_iterations d str_of exn_str a o p u auth)
    (fun h resp =>
       fanned_out str_of (get_azure_config_from_headers d o p u auth)
         (py "&fields=System.IterationPath&api-version=7.0") (rev h)
       /\ match rev h with
          | [_] => resp = JObj [(py "iterations", JArr []); (py "count", JInt 0)]
          | _ => True
          end)
    (fun _ _ => True).
Proof.
  unfold get_my_iterations. cbv zeta.
  repeat advance.
  match goal with |- context [nonempty ?l] => destruct (nonempty l) eqn:Hids end.
  - repeat advance. cbn [ensures rev app]. split; [|exact I].
    do 3 eexists. split; [reflexivity|]. split; [reflexivity|].
    split; [listed|]. split; [now apply nonempty_true|]. split; reflexivity.
  - cbn [ensures rev app]. split; [|reflexivity].
    do 3 eexists. split; [reflexivity|]. split; [reflexivity|].
    split; [listed|]. now apply nonempty_false.
Qed.

(** X15. Lines 160-218. In a /work-items request that succeeds the query is
    posted first. When its reply lists no work item, nothing else is
    asked and the response is [{work_items: [], count: 0}], without
    [filters]. Otherwise exactly one GET follows, for the listed IDs
    joined by commas in the order of the listing, and the response
    repeats the two parameters under [filters]. *)
Theorem work_items_fan_out (World : Type) (send : request -> World -> reply * World)
    d str_of exn_str (w w' : World) a it o p u auth resp :
  run send (get_work_items d str_of exn_str a it o p u auth) w = (Returned resp, w') ->
  let exchanged := exchanges send (get_work_items d str_of exn_str a it o p u auth) w in
  fanned_out str_of (get_azure_config_from_headers d o p u auth)
    (py "&api-version=7.0") exchanged
  /\ match exchanged with
     | [_] => resp = JObj [(py "work_items", JArr []); (py "count", JInt 0)]
     | _ =>
       exists kvs,
         resp = JObj kvs
         /\ lookup (py "filters") kvs
            = Some (JObj [(py "assigned_to", JStr a); (py "iteration", JStr it)])
     end.
Proof.
  intros Hrun exchanged.
  pose proof (ensures_returned World send _ _ _ w resp w'
                (get_work_items_fanned_out d str_of exn_str a it o p u auth) Hrun) as H.
  cbn beta in H. rewrite rev_involutive in H. exact H.
Qed.

Lemma work_items_fan_out_witness :
  fanned_out decimal (get_azure_config_from_headers builtin_defaults None None None None)
    (py "&api-version=7.0")
    (exchanges scripted
       (get_work_items builtin_defaults decimal class_name (py "me") (py "Sprint 1")
          None None None None) sprint_script).
Proof.
  exact (proj1 (work_items_fan_out (list reply) scripted builtin_defaults decimal
                  class_name sprint_script [] (py "me") (py "Sprint 1") None None None None
                  _ sprint_1_only)).
Defined.

Example nothing_assigned :
  run scripted
    (get_work_items builtin_defaults decimal class_name (py "me") (py "Sprint 1")
       None None None None)
    [ok (JObj [(py "workItems", JArr [])])]
  = (Returned (JObj [(py "work_items", JArr []); (py "count", JInt 0)]), []).
Proof. vm_compute. reflexivity. Qed.

(** X16. Lines 379-419. In a /my-iterations request that succeeds the query
    is posted first. When its reply lists no work item, nothing else is
    asked and the response is [{iterations: [], count: 0}]. Otherwise
    exactly one GET follows, for the listed IDs joined by commas in the
    order of the listing, restricted to the field
    [System.IterationPath]. *)
Theorem my_iterations_fan_out (World : Type) (send : request -> World -> reply * World)
    d str_of exn_str (w w' : World) a o p u auth resp :
  run send (get_my_iterations d str_of exn_str a o p u auth) w = (Returned resp, w') ->
  let exchanged := exchanges send (get_my_iterations d str_of exn_str a o p u auth) w in
  fanned_out str_of (get_azure_config_from_headers d o p u auth)
    (py "&fields=System.IterationPath&api-version=7.0") exchanged
  /\ match exchanged with
     | [_] => resp = JObj [(py "iterations", JArr []); (py "count", JInt 0)]
     | _ => True
     end.
Proof.
  intros Hrun exchanged.
  pose proof (ensures_returned World send _ _ _ w resp w'
                (get_my_iterations_fanned_out d str_of exn_str a o p u auth) Hrun) as H.
  cbn beta in H. rewrite rev_involutive in H. exact H.
Qed.

Lemma my_iterations_fan_out_witness :
  fanned_out decimal (get_azure_config_from_headers builtin_defaults None None None None)
    (py "&fields=System.IterationPath&api-version=7.0")
    (exchanges scripted
       (get_my_iterations builtin_defaults decimal class_name (py "me")
          None None None None) iteration_script).
Proof.
  exact (proj1 (my_iterations_fan_out (list reply) scripted builtin_defaults decimal
                  class_name iteration_script [] (py "me") None None None None
                  _ two_sprints_listed_once)).
Defined.

(** ** The outcome of a probe *)

Lemma get_auth_header_raise d token e :
  get_auth_header d token = Raise e -> exists s, e = UnicodeEncodeError s.
Proof.
  unfold get_auth_header. cbv zeta. destruct (utf8_encode _); [discriminate|].
  intros [= <-]. eauto.
Qed.

Lemma test_connection_outcome d exn_str settings :
  ensures [] (test_connection d exn_str settings) probe_success (probe_failure exn_str).
Proof.
  unfold test_connection. cbv zeta. apply ensures_try.
  apply ensures_bind_pure; [solve [purity]| |].
  - intros hdrs _. unfold client_post, await. cbn [bind ensures]. intros [r|m].
    + cbn [bind]. unfold raise_for_status. fold (is_success r).
      destruct (is_success r) eqn:Hs; cbn [bind ensures].
      * eexists; exists r; split; [reflexivity|]. now rewrite Hs.
      * unfold connection_error.
        destruct (Z.eqb_spec (status_code r) 400) as [E400|E400];
          destruct (contains (text r) (py "size limit")) eqn:Et; cbn [andb ensures].
        -- eexists; exists r; split; [reflexivity|]. rewrite Hs. now repeat split.
        -- rewrite E400. cbn [Z.eqb Pos.eqb ensures]. eexists. split; [reflexivity|].
           split; [exact Hs|]. intros _. exact Et.
        -- destruct (status_code r =? 401); [|destruct (status_code r =? 404)];
             cbn [ensures]; eexists; (split; [reflexivity|]); (split; [exact Hs|]);
             intros; contradiction.
        -- destruct (status_code r =? 401); [|destruct (status_code r =? 404)];
             cbn [ensures]; eexists; (split; [reflexivity|]); (split; [exact Hs|]);
             intros; contradiction.
    + cbn [bind ensures connection_error]. eexists. split; reflexivity.
  - intros e He. destruct (get_auth_header_raise _ _ _ He) as (s & ->).
    cbn [ensures connection_error]. eexists. split; [reflexivity|]. now exists s.
Qed.

(** X17. Lines 442-485. /test-connection answers a success only after one
    exchange whose reply is a response: the plain success for a 2xx
    status, the large-dataset success for a 400 that mentions the size
    limit. Everything else raises an [HTTPException] with status 400,
    whatever the upstream status was; a failure of the transport is
    reported as [Connection failed: ...]. *)
Theorem probe_outcome (World : Type) (send : request -> World -> reply * World)
    d exn_str (w : World) settings :
  let handler := test_connection d exn_str settings in
  match fst (run send handler w) with
  | Returned resp => probe_success (exchanges send handler w) resp
  | Raised e => probe_failure exn_str (exchanges send handler w) e
  end.
Proof.
  intros handler.
  pose proof (ensures_run World send handler _ _ [] w
                (test_connection_outcome d exn_str settings)) as H.
  rewrite app_nil_r in H.
  pose proof (at_most_exchanges World send handler 1 w
                (test_connection_at_most d exn_str settings)) as Hn.
  destruct (exchanges send handler w) as [|x [|y l]]; [exact H|exact H|].
  cbn [List.length] in Hn. lia.
Qed.

Example probe_without_connection :
  fst (run scripted
         (test_connection builtin_defaults class_name
            {| tc_organization := py "org"; tc_project := py "proj";
               baseUrl := py "dev.example.com"; accessToken := py "pat" |})
         [])
  = Raised (HTTPException 400 (py "Connection failed: TransportError")).
Proof. vm_compute. reflexivity. Qed.

(** ** The comments of a work item *)

Lemma comments_shaped (rsp : response) comments :
  (if status_code rsp =? 200
   then comments_data <- response_json rsp ;;
        listed <- get comments_data (py "comments") (JArr []) ;;
        listed <- iter listed ;;
        for_each shaped_comment listed
   else Ret []) = Ret comments ->
  if status_code rsp =? 200
  then for_each shaped_comment (listed_comments (Response rsp)) = Ret comments
  else comments = [].
Proof.
  intros Hc. destruct (status_code rsp =? 200).
  - unfold listed_comments.
    destruct (response_json rsp) as [comments_data| |] eqn:Ej;
      cbn [bind] in Hc; try discriminate Hc.
    rewrite (response_json_body _ _ Ej).
    destruct (get comments_data (py "comments") (JArr [])) as [listed| |];
      cbn [bind] in Hc; try discriminate Hc.
    destruct (iter listed) as [items| |]; cbn [bind] in Hc; try discriminate Hc.
    exact Hc.
  - now apply Ret_inj in Hc.
Qed.

Lemma work_item_detail_comments d cfg single_id :
  ensures [] (work_item_detail d cfg single_id)
    (fun h record => comments_origin cfg single_id (rev h) record) (fun _ _ => True).
Proof.
  unfold work_item_detail. cbv zeta.
  repeat proceed.
  match goal with |- context [fetch_children ?d ?c ?ids] =>
    unfold fetch_children; destruct (nonempty ids) eqn:Hids end.
  - cbv zeta. repeat proceed. cbn [ensures rev app]. unfold comments_origin.
    do 6 eexists. split; [reflexivity|]. split; [reflexivity|]. split; [reflexivity|].
    split; [reflexivity|]. split; [reflexivity|]. cbn [snd].
    match goal with
    | Hc : (if status_code rsp0 =? 200 then _ else _) = Ret _ |- _ =>
      exact (comments_shaped _ _ Hc)
    end.
  - repeat proceed. cbn [ensures rev app]. unfold comments_origin.
    do 6 eexists. split; [reflexivity|]. split; [reflexivity|]. split; [reflexivity|].
    split; [reflexivity|]. split; [reflexivity|]. cbn [snd].
    match goal with
    | Hc : (if status_code rsp0 =? 200 then _ else _) = Ret _ |- _ =>
      exact (comments_shaped _ _ Hc)
    end.
Qed.

(** X18. Lines 250-263. In a detail record the comments come from the second
    request of the fetch, to [.../workitems/{id}/comments?api-version=7.0]:
    they are shaped from the [comments] of its reply when the status is
    200, and the record has no comment and the fetch still succeeds
    when the status is anything else, a failure status included. *)
Theorem comments_best_effort (World : Type) (send : request -> World -> reply * World)
    d cfg single_id (w w' : World) record :
  run send (work_item_detail d cfg single_id) w = (Returned record, w') ->
  comments_origin cfg single_id (exchanges send (work_item_detail d cfg single_id) w) record.
Proof.
  intros Hrun.
  pose proof (ensures_returned World send _ _ _ w record w'
                (work_item_detail_comments d cfg single_id) Hrun) as H.
  cbn beta in H. now rewrite rev_involutive in H.
Qed.

Example refused_comments_are_none :
  run scripted
    (work_item_detail builtin_defaults
       (get_azure_config_from_headers builtin_defaults None None None None) (py "8"))
    comments_refused_script
  = (Returned (JObj [(py "id", JInt 8); (py "title", JNull); (py "description", JStr []);
             (py "acceptance_criteria", JStr []); (py "state", JNull);
             (py "work_item_type", JNull); (py "assigned_to", JNull);
             (py "created_by", JNull); (py "created_date", JNull);
             (py "changed_date", JNull); (py "iteration", JNull); (py "area", JNull);
             (py "priority", JNull); (py "story_points", JNull); (py "tags", JNull);
             (py "comments", JArr []); (py "child_work_items", JArr []);
             (py "child_count", JInt 0); (py "url", JStr (py "u8"))]), []).
Proof. vm_compute. reflexivity. Qed.

Lemma comments_best_effort_witness :
  let cfg := get_azure_config_from_headers builtin_defaults None None None None in
  exists record,
    comments_origin cfg (py "8")
      (exchanges scripted (work_item_detail builtin_defaults cfg (py "8"))
         comments_refused_script) record.
Proof.
  intros cfg. eexists.
  exact (comments_best_effort (list reply) scripted builtin_defaults cfg (py "8")
           comments_refused_script [] _ refused_comments_are_none).
Defined.

(** ** What /work-item-details never answers *)

(** X19. Lines 230-353. /work-item-details always answers: the two [except]
    clauses that close it never raise, whatever the upstream replies,
    and the answer is never the fallback
    [{error: No work items found}] of line 341. *)
Theorem details_always_answered (World : Type) (send : request -> World -> reply * World)
    d exn_str (w : World) wid o p u auth :
  exists resp,
    fst (run send (get_work_item_details d exn_str wid o p u auth) w) = Returned resp
    /\ resp <> JObj [(py "error", JStr (py "No work items found"))].
Proof.
  pose proof (ensures_run World send _ _ _ [] w
                (get_work_item_details_shape d exn_str wid o p u auth)) as H.
  destruct (fst (run send (get_work_item_details d exn_str wid o p u auth) w))
    as [resp|e]; [|contradiction].
  exists resp. split; [reflexivity|]. cbn beta zeta in H.
  destruct (List.length (map strip (split wid (py ","))) =? 1)%nat.
  - destruct H as (single_id & _ & [(kvs & l & -> & Hl & _)|(e & ->)]).
    + intros [= ->]. vm_compute in Hl. discriminate.
    + unfold error_entry. intros [=].
  - destruct H as (entries & -> & _). intros [=].
Qed.

(** ** The resolved configuration *)

Lemma or_default_nonempty x dflt : dflt <> [] -> or_default x dflt <> [].
Proof. destruct x as [[|c s]|]; cbn; auto. discriminate. Qed.

Lemma or_default_again x dflt : or_default (Some (or_default x dflt)) dflt = or_default x dflt.
Proof. destruct x as [[|c s]|]; cbn; try reflexivity; destruct dflt; reflexivity. Qed.

(** X20. Lines 94-117. When no static default is empty, no field of a
    resolved configuration is empty, whatever the request headers are;
    and a configuration sent back as the three override headers
    resolves to itself. *)
Theorem resolved_configuration_complete d o p u authorization :
  AZURE_DEVOPS_ORG d <> [] -> AZURE_DEVOPS_PROJECT d <> [] -> BASE_URL d <> [] ->
  AZURE_ACCESS_TOKEN d <> [] ->
  let cfg := get_azure_config_from_headers d o p u authorization in
  organization cfg <> [] /\ project cfg <> [] /\ base_url cfg <> []
  /\ access_token cfg <> []
  /\ get_azure_config_from_headers d (Some (organization cfg)) (Some (project cfg))
       (Some (base_url cfg)) authorization = cfg.
Proof.
  intros Ho Hp Hu Ht cfg. unfold cfg, get_azure_config_from_headers.
  cbn [organization project base_url access_token].
  repeat split; try (now apply or_default_nonempty).
  now rewrite !or_default_again.
Qed.

Lemma resolved_configuration_complete_witness :
  let cfg := get_azure_config_from_headers builtin_defaults (Some []) None
               (Some (py "https://dev.example.com")) (Some (py "Basic abc")) in
  organization cfg <> [] /\ project cfg <> [] /\ base_url cfg <> []
  /\ access_token cfg <> []
  /\ get_azure_config_from_headers builtin_defaults (Some (organization cfg))
       (Some (project cfg)) (Some (base_url cfg)) (Some (py "Basic abc")) = cfg.
Proof.
  apply (resolved_configuration_complete builtin_defaults (Some []) None
           (Some (py "https://dev.example.com")) (Some (py "Basic abc")));
    vm_compute; discriminate.
Defined.
